(** * upgrade-test: a shallow embedding of the upgrade tester and its properties

    The development follows the packages of the repository:
    - [Utf8], [Strings]: the parts of Go's [unicode/utf8], [strings] and
      [regexp] packages the code calls;
    - [Git]: [sanitizePath] of pkg/git/git.go;
    - [Cmd]: [process] and [Execute] of cmd/upgrade_command.go;
    - [K8s], [Operatorhub]: the dynamic client boundary and the
      operator-hub reconciler of pkg/operator/operatorhub. *)

From Stdlib Require Import ZArith Lia List Ascii String Bool.
From stdpp Require Import base tactics option list strings.
Import ListNotations.

Local Open Scope string_scope.

(* ===================================================================== *)
(** ** Go strings

    A Go string is a sequence of bytes: [String.string] (a list of 8-bit
    [ascii]).  A rune is an [int32], here a [Z]. *)

Definition rune := Z.

Definition byteZ (c : ascii) : Z := Z.of_N (N_of_ascii c).
Definition Zbyte (z : Z) : ascii := ascii_of_N (Z.to_N z).

Module Utf8.
  Local Open Scope Z_scope.

Definition RuneError : rune := 0xFFFD.
Definition MaxRune : rune := 0x10FFFF.
Definition surrogateMin : rune := 0xD800.
Definition surrogateMax : rune := 0xDFFF.

(** The entries of the table [first] of unicode/utf8: what the first byte
    of a sequence announces. *)
Inductive firstInfo :=
  | ASCII                               (* as: one byte, the rune itself *)
  | Invalid                             (* xx: RuneError, width 1 *)
  | Lead (sz : nat) (lo hi : Z).        (* size and accept range of byte 2 *)

Definition first (s0 : Z) : firstInfo :=
    if s0 <? 0x80 then ASCII
    else if s0 <? 0xC2 then Invalid
    else if s0 <? 0xE0 then Lead 2 0x80 0xBF
    else if s0 =? 0xE0 then Lead 3 0xA0 0xBF
    else if s0 <? 0xED then Lead 3 0x80 0xBF
    else if s0 =? 0xED then Lead 3 0x80 0x9F
    else if s0 <? 0xF0 then Lead 3 0x80 0xBF
    else if s0 =? 0xF0 then Lead 4 0x90 0xBF
    else if s0 <? 0xF4 then Lead 4 0x80 0xBF
    else if s0 =? 0xF4 then Lead 4 0x80 0x8F
    else Invalid.

Definition locb : Z := 0x80.
Definition hicb : Z := 0xBF.
Definition maskx : Z := 0x3F.
Definition mask2 : Z := 0x1F.
Definition mask3 : Z := 0x0F.
Definition mask4 : Z := 0x07.

Definition outside (lo hi b : Z) : bool := (b <? lo) || (hi <? b).

(** utf8.DecodeRuneInString: the rune at the head of [s] and its width in
    bytes; (RuneError, 0) on the empty string, (RuneError, 1) on a byte
    sequence that is not UTF-8. *)
Definition DecodeRuneInString (s : string) : rune * nat :=
    match s with
    | EmptyString => (RuneError, 0%nat)
    | String c0 t0 =>
      let s0 := byteZ c0 in
      match first s0 with
      | ASCII => (s0, 1%nat)
      | Invalid => (RuneError, 1%nat)
      | Lead sz lo hi =>
        if (String.length s <? sz)%nat then (RuneError, 1%nat) else
        match t0 with
        | EmptyString => (RuneError, 1%nat)
        | String c1 t1 =>
          let s1 := byteZ c1 in
          if outside lo hi s1 then (RuneError, 1%nat) else
          if (sz <=? 2)%nat then
            (Z.lor (Z.shiftl (Z.land s0 mask2) 6) (Z.land s1 maskx), 2%nat)
          else
          match t1 with
          | EmptyString => (RuneError, 1%nat)
          | String c2 t2 =>
            let s2 := byteZ c2 in
            if outside locb hicb s2 then (RuneError, 1%nat) else
            if (sz <=? 3)%nat then
              (Z.lor (Z.lor (Z.shiftl (Z.land s0 mask3) 12)
                            (Z.shiftl (Z.land s1 maskx) 6))
                     (Z.land s2 maskx), 3%nat)
            else
            match t2 with
            | EmptyString => (RuneError, 1%nat)
            | String c3 _ =>
              let s3 := byteZ c3 in
              if outside locb hicb s3 then (RuneError, 1%nat) else
              (Z.lor (Z.lor (Z.lor (Z.shiftl (Z.land s0 mask4) 18)
                                   (Z.shiftl (Z.land s1 maskx) 12))
                            (Z.shiftl (Z.land s2 maskx) 6))
                     (Z.land s3 maskx), 4%nat)
            end
          end
        end
      end
    end.

Definition cont (r : rune) (shift : Z) : ascii :=
    Zbyte (Z.lor 0x80 (Z.land (Z.shiftr r shift) maskx)).

Definition encode3 (r : rune) : string :=
    String (Zbyte (Z.lor 0xE0 (Z.shiftr r 12)))
      (String (cont r 6) (String (cont r 0) EmptyString)).

(** utf8.AppendRune on an empty buffer, for a rune that is not negative
    (strings.Map drops the negative ones before encoding). *)
Definition EncodeRune (r : rune) : string :=
    if r <=? 0x7F then String (Zbyte r) EmptyString
    else if r <=? 0x7FF then
      String (Zbyte (Z.lor 0xC0 (Z.shiftr r 6))) (String (cont r 0) EmptyString)
    else if (MaxRune <? r) || ((surrogateMin <=? r) && (r <=? surrogateMax))
      then encode3 RuneError
    else if r <=? 0xFFFF then encode3 r
    else
      String (Zbyte (Z.lor 0xF0 (Z.shiftr r 18)))
        (String (cont r 12) (String (cont r 6) (String (cont r 0) EmptyString))).
End Utf8.

Module Strings.

Fixpoint drop (n : nat) (s : string) : string :=
    match n, s with
    | O, _ => s
    | S _, EmptyString => EmptyString
    | S n', String _ t => drop n' t
    end.

(** The loop [for _, c := range s] of strings.Map: decode a rune, write
    the encoding of its image unless the image is negative, go on after
    the rune.  Each round consumes at least one byte, so [fuel] rounds
    are enough for a string of [fuel] bytes. *)
Fixpoint MapLoop (fuel : nat) (mapping : rune -> rune) (s : string) : string :=
    match fuel with
    | O => EmptyString
    | S fuel' =>
      match s with
      | EmptyString => EmptyString
      | String _ t =>
        let '(c, width) := Utf8.DecodeRuneInString s in
        let r := mapping c in
        let rest := MapLoop fuel' mapping (drop (width - 1) t) in
        if (r <? 0)%Z then rest else Utf8.EncodeRune r ++ rest
      end
    end.

(** strings.Map *)
Definition Map (mapping : rune -> rune) (s : string) : string :=
    MapLoop (String.length s) mapping s.

(** strings.Split for a separator of one byte: the pieces between the
    occurrences of [sep]; a string without [sep] (the empty one too) is
    one piece. *)
Fixpoint Split (s : string) (sep : ascii) : list string :=
    match s with
    | EmptyString => [EmptyString]
    | String c t =>
      if Ascii.eqb c sep then EmptyString :: Split t sep
      else match Split t sep with
           | p :: ps => String c p :: ps
           | [] => [String c EmptyString]
           end
    end.

(** strings.Join *)
Fixpoint Join (elems : list string) (sep : string) : string :=
    match elems with
    | [] => EmptyString
    | [e] => e
    | e :: rest => e ++ sep ++ Join rest sep
    end.

(** regexp.MustCompile(`c+`).ReplaceAllString(s, c): every maximal run of
    the byte [c] becomes one [c].  [inRun] tells that the byte before was
    a [c] of the run being replaced. *)
Fixpoint squeezeFrom (inRun : bool) (c : ascii) (s : string) : string :=
    match s with
    | EmptyString => EmptyString
    | String x t =>
      if Ascii.eqb x c
      then (if inRun then squeezeFrom true c t else String c (squeezeFrom true c t))
      else String x (squeezeFrom false c t)
    end.

Definition ReplaceAllRuns (c : ascii) (s : string) : string :=
    squeezeFrom false c s.

(** strings.Contains *)
Fixpoint Contains (s substr : string) : bool :=
    String.prefix substr s ||
    match s with
    | EmptyString => false
    | String _ t => Contains t substr
    end.
End Strings.

(* ===================================================================== *)
(** ** Go values and control

    [error] is Go's error interface: [None] is nil.  An error is observed
    by the code only through its message ([Error()]) and, for the errors
    of the API server, through its status reason
    ([errors.IsNotFound], [errors.IsAlreadyExists]). *)

Inductive StatusReason :=
| ReasonNotFound
| ReasonAlreadyExists
| ReasonOther (reason : string).

Inductive GoError :=
| StatusError (reason : StatusReason) (message : string)
| PlainError (message : string).

Definition error := option GoError.

Definition ErrorMsg (e : GoError) : string :=
  match e with
  | StatusError _ m => m
  | PlainError m => m
  end.

(** fmt.Errorf(prefix + "%v", err): a fresh error that keeps the message of
    [err] and none of its status. *)
Definition Errorf (prefix : string) (e : GoError) : GoError :=
  PlainError (prefix ++ ErrorMsg e).

(** fmt.Errorf(prefix + "%v", err) for an [err] that may be nil. *)
Definition ErrorfV (prefix : string) (err : error) : GoError :=
  PlainError (prefix ++ match err with
                        | Some e => ErrorMsg e
                        | None => "<nil>"
                        end).

Definition IsNotFound (e : GoError) : bool :=
  match e with
  | StatusError ReasonNotFound _ => true
  | _ => false
  end.

Definition IsAlreadyExists (e : GoError) : bool :=
  match e with
  | StatusError ReasonAlreadyExists _ => true
  | _ => false
  end.

(** A Go call either returns or panics; a panic unwinds the callers. *)
Inductive Outcome (A : Type) :=
| Val (a : A)
| Panic (msg : string).
Arguments Val {A} a.
Arguments Panic {A} msg.

(** Code that runs in a state [St]. *)
Definition M (St A : Type) : Type := St -> Outcome A * St.

Definition ret {St A} (a : A) : M St A := fun st => (Val a, st).

Definition bind {St A B} (m : M St A) (k : A -> M St B) : M St B :=
  fun st =>
    match m st with
    | (Val a, st') => k a st'
    | (Panic msg, st') => (Panic msg, st')
    end.

Definition panic {St A} (msg : string) : M St A := fun st => (Panic msg, st).

Declare Scope go_scope.
Delimit Scope go_scope with go.
Notation "x <-- m ; k" := (bind m (fun x => k))
  (at level 20, m at level 100, k at level 200, only parsing) : go_scope.
Notation "' pat <-- m ; k" := (bind m (fun x => match x with pat => k end))
  (at level 20, pat pattern, m at level 100, k at level 200, only parsing) : go_scope.
Notation "m ;; k" := (bind m (fun _ => k))
  (at level 100, k at level 200, only parsing, right associativity) : go_scope.

(** time.Duration: nanoseconds. *)
Definition Duration := Z.
Definition Second : Duration := 1000000000%Z.
Definition Minute : Duration := (60 * Second)%Z.

(* ===================================================================== *)
(** ** pkg/config *)

Module Config.
Module Version.
Record t := mk {
      Name : string;
      BundleVersion : string;
      TestCommand : string;
      TestSubPath : string;
      Channel : string
    }.
End Version.

Module UpgradePath.
Record t := mk {
      Name : string;
      Versions : list Version.t
    }.
End UpgradePath.

Module OperatorConfig.
Record t := mk {
      Type_ : string;
      Artifact : string;
      Namespace : string;
      Name : string;
      Workspace : string;
      ArtifactPrefix : string;
      Interval : Duration;
      Timeout : Duration;
      Command : string
    }.
End OperatorConfig.

Record t := mk {
    UpgradePaths : list UpgradePath.t;
    Immediate : bool;
    LogLevel : string;
    OperatorConfig : OperatorConfig.t
  }.

(** [defaultConfig]: the fields a configuration file may leave out, for
    the [OperatorConfig] that [NewOperator] of operatorhub reads. *)
Definition defaultConfig (config : t) : t :=
    let oc := OperatorConfig config in
    let workspace :=
      if (OperatorConfig.Workspace oc =? "")%string then "./"
      else OperatorConfig.Workspace oc in
    let type :=
      if (OperatorConfig.Type_ oc =? "")%string then "operatorhub"
      else OperatorConfig.Type_ oc in
    let artifactPrefix :=
      if (OperatorConfig.ArtifactPrefix oc =? "")%string then "operatorhub"
      else OperatorConfig.ArtifactPrefix oc in
    let interval :=
      if (OperatorConfig.Interval oc =? 0)%Z then (5 * Second)%Z
      else OperatorConfig.Interval oc in
    let timeout :=
      if (OperatorConfig.Timeout oc =? 0)%Z then (10 * Minute)%Z
      else OperatorConfig.Timeout oc in
    mk (UpgradePaths config) (Immediate config) (LogLevel config)
       (OperatorConfig.mk type (OperatorConfig.Artifact oc)
          (OperatorConfig.Namespace oc) (OperatorConfig.Name oc) workspace
          artifactPrefix interval timeout (OperatorConfig.Command oc)).
End Config.

(* ===================================================================== *)
(** ** pkg/exec *)

Module Exec.
Record Command := mkCommand {
    Name : string;
    Args : list string;
    Dir : string;
    Env : list string
  }.

Record CommandResult := mkResult {
    Stdout : string;
    Stderr : string;
    Err : error
  }.

(** [RunCommand] starts an external process: what it answers and what it
    does to the system is up to the system [Sys]. *)
Class Runner (Sys : Type) := RunCommand : Command -> Sys -> CommandResult * Sys.
End Exec.

(* ===================================================================== *)
(** ** pkg/operator: the interface *)

Module OperatorIface.
(** [OperatorInterface]: an operator [O] upgrades itself in a system [Sys]. *)
Class OperatorInterface (O Sys : Type) :=
    UpgradeOperator : O -> Config.Version.t -> M Sys error.
End OperatorIface.

(* ===================================================================== *)
(** ** cmd/upgrade_command.go *)

Module Cmd.
Import Config OperatorIface.
  Local Open Scope go_scope.

Inductive Level := InfoLevel | ErrorLevel.

(** What a run leaves behind, in order: the lines written to the logger,
    the calls to the operator and the test commands, with their answers. *)
Inductive Event :=
  | Log (level : Level) (msg : string) (fields : list (string * string))
  | Upgraded (version : Version.t) (answer : error)
  | Ran (cmd : Exec.Command) (answer : Exec.CommandResult).

Record State (Sys : Type) := mkState {
    sys : Sys;
    events : list Event
  }.
Arguments mkState {Sys}.
Arguments sys {Sys}.
Arguments events {Sys}.

Record UpgradeCommand (O : Type) := mkUC {
    configFile : string;
    kubeconfig : string;
    logLevel : string;
    workspace : string;
    config : option Config.t;          (* *config.Config, nil before Execute *)
    operator : option O                (* operator.OperatorInterface *)
  }.
Arguments mkUC {O}.
Arguments configFile {O}.
Arguments kubeconfig {O}.
Arguments logLevel {O}.
Arguments workspace {O}.
Arguments config {O}.
Arguments operator {O}.

Definition OperatorType := string.

Record OperatorOptions := mkOptions {
    optNamespace : string;
    optName : string;
    optOperatorConfig : OperatorConfig.t
  }.

(** The collaborators of [Execute] that are outside of this package:
    the environment, the configuration file, the logger set-up, the
    kubeconfig and the operator factory. *)
Class Collaborators (O Sys : Type) := {
    getKubeconfig : UpgradeCommand O -> M Sys string;
    LoadConfig : string -> M Sys (Config.t + GoError);
    newLogger : string -> M Sys error;
    loadKubeConfig : string -> M Sys error;
    CreateOperator : OperatorType -> OperatorOptions -> M Sys (O + GoError)
  }.

Section Run.
Context {O Sys : Type}.
Context `{!OperatorInterface O Sys, !Exec.Runner Sys, !Collaborators O Sys}.

Definition emit (e : Event) : M (State Sys) unit :=
      fun st => (Val tt, mkState (sys st) (events st ++ [e])).

Definition logInfo (msg : string) (fields : list (string * string))
      : M (State Sys) unit := emit (Log InfoLevel msg fields).

Definition logError (msg : string) (fields : list (string * string))
      : M (State Sys) unit := emit (Log ErrorLevel msg fields).

(** A call into the system, below this package. *)
Definition inSys {A} (m : M Sys A) : M (State Sys) A :=
      fun st =>
        let '(out, s') := m (sys st) in (out, mkState s' (events st)).

Definition callUpgradeOperator (op : O) (version : Version.t)
      : M (State Sys) error :=
      err <-- inSys (UpgradeOperator op version) ;
      emit (Upgraded version err) ;;
      ret err.

Definition callRunCommand (cmd : Exec.Command)
      : M (State Sys) Exec.CommandResult :=
      result <-- inSys (fun s => let '(r, s') := Exec.RunCommand cmd s in (Val r, s')) ;
      emit (Ran cmd result) ;;
      ret result.

Definition execCommand (workDir command : string) : M (State Sys) error :=
      logInfo "executing upgrade test" [("command", command)] ;;
      result <-- callRunCommand (Exec.mkCommand "bash" ["-c"; command] workDir []) ;
      match Exec.Err result with
      | Some e => ret (Some (Errorf "failed to execute upgrade test: " e))
      | None => ret None
      end.

Definition nilDereference : string :=
      "invalid memory address or nil pointer dereference".

(** The body of [for index, version := range path.Versions]; [uc.operator]
    and [uc.config] are nil until [Execute] has set them. *)
Fixpoint processVersions (uc : UpgradeCommand O) (index : nat)
        (versions : list Version.t) : M (State Sys) error :=
      match versions with
      | [] => ret None
      | version :: rest =>
        logInfo "deploying operator version" [("version", Version.Name version)] ;;
        match operator uc with
        | None => panic nilDereference
        | Some op =>
          err <-- callUpgradeOperator op version ;
          match err with
          | Some e => ret (Some (Errorf "failed to prepare operator: " e))
          | None =>
            let testCommand := "REPO=allure make upgrade" in
            let testCommand :=
              if (index =? 0)%nat then "REPO=allure make prepare" else testCommand in
            let testCommand :=
              if negb (Version.TestCommand version =? "")%string
              then Version.TestCommand version else testCommand in
            match config uc with
            | None => panic nilDereference
            | Some cfg =>
              let workspace := OperatorConfig.Workspace (OperatorConfig cfg) in
              let workspace :=
                if negb (Version.TestSubPath version =? "")%string
                then OperatorConfig.Workspace (OperatorConfig cfg)
                     ++ "/" ++ Version.TestSubPath version
                else workspace in
              err <-- execCommand workspace testCommand ;
              match err with
              | Some e => ret (Some (Errorf "failed to execute test command: " e))
              | None =>
                logInfo "upgrade test passed" [("version", Version.Name version)] ;;
                processVersions uc (S index) rest
              end
            end
          end
        end
      end.

Definition process (uc : UpgradeCommand O) (path : UpgradePath.t)
      : M (State Sys) error :=
      logInfo "==> processing upgrade path" [("path", UpgradePath.Name path)] ;;
      err <-- processVersions uc 0 (UpgradePath.Versions path) ;
      match err with
      | Some e => ret (Some e)
      | None =>
        logInfo "==> upgrade path completed" [("path", UpgradePath.Name path)] ;;
        ret None
      end.

(** The loop [for _, path := range cfg.UpgradePaths] that ends [Execute]. *)
Fixpoint ExecutePaths (uc : UpgradeCommand O) (cfg : Config.t)
        (paths : list UpgradePath.t) : M (State Sys) error :=
      match paths with
      | [] => ret None
      | path :: rest =>
        err <-- process uc path ;
        match err with
        | Some e =>
          if negb (Immediate cfg) then
            logError "failed to process upgrade path"
                     [("path", UpgradePath.Name path); ("error", ErrorMsg e)] ;;
            ExecutePaths uc cfg rest
          else
            ret (Some (PlainError ("failed to process upgrade path: "
                                   ++ UpgradePath.Name path ++ ", error: "
                                   ++ ErrorMsg e)))
        | None => ExecutePaths uc cfg rest
        end
      end.

Definition withWorkspace (cfg : Config.t) (ws : string) : Config.t :=
      let oc := OperatorConfig cfg in
      Config.mk (UpgradePaths cfg) (Immediate cfg) (LogLevel cfg)
        (OperatorConfig.mk (OperatorConfig.Type_ oc) (OperatorConfig.Artifact oc)
           (OperatorConfig.Namespace oc) (OperatorConfig.Name oc) ws
           (OperatorConfig.ArtifactPrefix oc) (OperatorConfig.Interval oc)
           (OperatorConfig.Timeout oc) (OperatorConfig.Command oc)).

Definition Execute (uc : UpgradeCommand O) : M (State Sys) error :=
      kubeconfig <-- inSys (getKubeconfig uc) ;
      loaded <-- inSys (LoadConfig (configFile uc)) ;
      match loaded with
      | inr e => ret (Some (Errorf "failed to load config: " e))
      | inl cfg =>
        let cfg :=
          if negb (workspace uc =? "")%string
          then withWorkspace cfg (workspace uc) else cfg in
        err <-- inSys (newLogger (LogLevel cfg)) ;
        match err with
        | Some e => ret (Some (Errorf "failed to create logger: " e))
        | None =>
          err <-- inSys (loadKubeConfig kubeconfig) ;
          match err with
          | Some e => ret (Some (Errorf "failed to load kubernetes config: " e))
          | None =>
            logInfo "operator type"
                    [("type", OperatorConfig.Type_ (OperatorConfig cfg))] ;;
            created <-- inSys (CreateOperator
                         (OperatorConfig.Type_ (OperatorConfig cfg))
                         (mkOptions (OperatorConfig.Namespace (OperatorConfig cfg))
                                    (OperatorConfig.Name (OperatorConfig cfg))
                                    (OperatorConfig cfg))) ;
            match created with
            | inr e => ret (Some (Errorf "failed to create operator manager: " e))
            | inl op =>
              let uc := mkUC (configFile uc) kubeconfig (logLevel uc)
                             (workspace uc) (Some cfg) (Some op) in
              ExecutePaths uc cfg (UpgradePaths cfg)
            end
          end
        end
      end.
End Run.
End Cmd.

(** *** What the properties of the command read off a run *)

Module CmdProps.
Import Config Cmd.

(** The test command of a call to the runner: the argument of [bash -c]. *)
Definition testCommandOf (cmd : Exec.Command) : string :=
    nth 1 (Exec.Args cmd) "".

(** The test commands that were run, in order. *)
Definition commandsRun (evs : list Event) : list string :=
    omap (fun e => match e with
                   | Ran cmd _ => Some (testCommandOf cmd)
                   | _ => None
                   end) evs.

(** The upgrade paths whose processing was started, in order. *)
Definition pathsEntered (evs : list Event) : list string :=
    omap (fun e => match e with
                   | Log InfoLevel msg [(key, name)] =>
                     if (msg =? "==> processing upgrade path")%string
                     then Some name else None
                   | _ => None
                   end) evs.

Definition prepareCommand : string := "REPO=allure make prepare".
Definition upgradeCommand : string := "REPO=allure make upgrade".

(** The test command of the version at [index] of a path, in the words of
    the documentation: the explicit command if there is one, otherwise
    "prepare" for the first version and "upgrade" for the others. *)
Definition resolvedCommand (index : nat) (version : Version.t) : string :=
    if (Version.TestCommand version =? "")%string
    then match index with
         | O => prepareCommand
         | S _ => upgradeCommand
         end
    else Version.TestCommand version.

(** The command [execCommand] hands to the runner, and the error it makes
    of the runner's answer. *)
Definition bashCommand (workDir command : string) : Exec.Command :=
    Exec.mkCommand "bash" ["-c"; command] workDir [].

Definition wrapExec (r : Exec.CommandResult) : error :=
    match Exec.Err r with
    | Some e => Some (Errorf "failed to execute upgrade test: " e)
    | None => None
    end.

(** The line the loop of [Execute] logs for a failed path. *)
Definition failureLine (path : UpgradePath.t) (e : GoError) : Event :=
    Log ErrorLevel "failed to process upgrade path"
        [("path", UpgradePath.Name path); ("error", ErrorMsg e)].

(** The error [Execute] returns for a failed path. *)
Definition failureError (path : UpgradePath.t) (e : GoError) : GoError :=
    PlainError ("failed to process upgrade path: " ++ UpgradePath.Name path
                ++ ", error: " ++ ErrorMsg e).

(** The prefixes of the errors of the steps of [Execute] before its loop. *)
Definition setupPrefixes : list string :=
    ["failed to load config: "; "failed to create logger: ";
     "failed to load kubernetes config: "; "failed to create operator manager: "].

Section Loaded.
Context {O Sys : Type} `{!Collaborators O Sys}.

(** The configuration [Execute] goes on with: the one [LoadConfig]
    returns for the file of the command, with the workspace of the
    command line when one is given; [None] when none is loaded. *)
Definition loadedConfig (uc : UpgradeCommand O) (st : State Sys)
      : option Config.t :=
      match getKubeconfig uc (sys st) with
      | (Val _, s1) =>
        match LoadConfig (configFile uc) s1 with
        | (Val (inl cfg), _) =>
          Some (if negb (workspace uc =? "")%string
                then withWorkspace cfg (workspace uc) else cfg)
        | _ => None
        end
      | _ => None
      end.
End Loaded.
End CmdProps.

(** *** More to read off a run of the command *)

Module CmdMoreProps.
Import Config Cmd CmdProps.

(** The commands handed to the runner, in order. *)
Definition ranCommands (evs : list Event) : list Exec.Command :=
    omap (fun e => match e with
                   | Ran cmd _ => Some cmd
                   | _ => None
                   end) evs.

(** The answers of the runner, in order. *)
Definition ranAnswers (evs : list Event) : list Exec.CommandResult :=
    omap (fun e => match e with
                   | Ran _ answer => Some answer
                   | _ => None
                   end) evs.

(** The calls to the operator with their answers, in order. *)
Definition upgrades (evs : list Event) : list (Version.t * error) :=
    omap (fun e => match e with
                   | Upgraded version answer => Some (version, answer)
                   | _ => None
                   end) evs.

(** The directory the test command of a version runs in. *)
Definition workDirOf (cfg : Config.t) (version : Version.t) : string :=
    if (Version.TestSubPath version =? "")%string
    then OperatorConfig.Workspace (OperatorConfig cfg)
    else OperatorConfig.Workspace (OperatorConfig cfg) ++ "/"
         ++ Version.TestSubPath version.

Definition isLog (e : Event) : bool :=
    match e with
    | Log _ _ _ => true
    | _ => false
    end.
End CmdMoreProps.

(** *** A small system to run the command in

    An operator that fails on the bundle versions listed in the system
    state, a runner whose commands succeed, and collaborators that hand out
    the configuration held in the state. *)

Module CmdDemo.
Import Config Cmd OperatorIface.

Record Sys := mkSys {
    failing : list string;             (* bundle versions that do not install *)
    loaded : Config.t                  (* what the configuration file holds *)
  }.

Definition demoOperator : OperatorInterface unit Sys :=
    fun _ version s =>
      if existsb (String.eqb (Version.BundleVersion version)) (failing s)
      then (Val (Some (PlainError "bundle version never became present")), s)
      else (Val None, s).

Definition demoRunner : Exec.Runner Sys :=
    fun _ s => (Exec.mkResult "" "" None, s).

Definition demoCollaborators : Collaborators unit Sys :=
    {| getKubeconfig := fun uc s => (Val (kubeconfig uc), s);
       LoadConfig := fun _ s => (Val (inl (loaded s)), s);
       newLogger := fun _ s => (Val None, s);
       loadKubeConfig := fun _ s => (Val None, s);
       CreateOperator := fun _ _ s => (Val (inl tt), s) |}.

Definition v1 : Version.t := Version.mk "v1.0" "v1.0.0" "" "" "".
Definition v2 : Version.t := Version.mk "v1.1" "v1.1.0" "" "" "stable".
Definition v3 : Version.t := Version.mk "v2.0" "v2.0.0" "make smoke" "e2e" "".

Definition pathA : UpgradePath.t := UpgradePath.mk "a" [v1; v2].
Definition pathB : UpgradePath.t := UpgradePath.mk "b" [v1; v3].

Definition demoOperatorConfig : OperatorConfig.t :=
    OperatorConfig.mk "operatorhub" "" "testing" "gitlab-operator" "./"
                      "operatorhub" (5 * Second)%Z (600 * Second)%Z "".

Definition demoConfig (immediate : bool) : Config.t :=
    Config.mk [pathA; pathB] immediate "info" demoOperatorConfig.

Definition demoUC : UpgradeCommand unit :=
    mkUC "config.yaml" "/root/.kube/config" "info" "" None None.

Definition readyUC (immediate : bool) : UpgradeCommand unit :=
    mkUC "config.yaml" "/root/.kube/config" "info" ""
         (Some (demoConfig immediate)) (Some tt).

Definition start (failing : list string) (immediate : bool) : State Sys :=
    mkState (mkSys failing (demoConfig immediate)) [].

Definition demoExecute := @Execute unit Sys demoOperator demoRunner demoCollaborators.
Definition demoProcess := @process unit Sys demoOperator demoRunner.
Definition demoExecutePaths :=
    @ExecutePaths unit Sys demoOperator demoRunner.
End CmdDemo.

(* ===================================================================== *)
(** ** The cluster boundary: unstructured objects and the dynamic client *)

Module K8s.
  Local Open Scope go_scope.

(** interface{} values of a decoded JSON document. *)
#[warnings="-register-all"] Inductive value :=
  | VNil
  | VBool (b : bool)
  | VInt (z : Z)
  | VString (s : string)
  | VSlice (items : list value)
  | VMap (fields : list (string * value)).

(** map[string]interface{}; the first binding of a key is the one read. *)
Definition Object := list (string * value).

(** unstructured.Unstructured *)
Definition Unstructured := Object.

Fixpoint field (m : Object) (key : string) : option value :=
    match m with
    | [] => None
    | (k, v) :: rest => if (k =? key)%string then Some v else field rest key
    end.

(** m[key] = v *)
Fixpoint setField (m : Object) (key : string) (v : value) : Object :=
    match m with
    | [] => [(key, v)]
    | (k, v0) :: rest =>
      if (k =? key)%string then (k, v) :: rest else (k, v0) :: setField rest key v
    end.

Definition accessorError : GoError := PlainError "accessor error".

(** unstructured.NestedFieldNoCopy: (value, found, err). *)
Fixpoint NestedFieldNoCopy (val : value) (fields : list string)
    : value * bool * error :=
    match fields with
    | [] => (val, true, None)
    | f :: rest =>
      match val with
      | VNil => (VNil, false, None)
      | VMap m =>
        match field m f with
        | Some v => NestedFieldNoCopy v rest
        | None => (VNil, false, None)
        end
      | _ => (VNil, false, Some accessorError)
      end
    end.

Definition NestedString (obj : Object) (fields : list string)
    : string * bool * error :=
    match NestedFieldNoCopy (VMap obj) fields with
    | (val, true, None) =>
      match val with
      | VString s => (s, true, None)
      | _ => ("", false, Some accessorError)
      end
    | (_, found, err) => ("", found, err)
    end.

Definition NestedMap (obj : Object) (fields : list string)
    : Object * bool * error :=
    match NestedFieldNoCopy (VMap obj) fields with
    | (val, true, None) =>
      match val with
      | VMap m => (m, true, None)
      | _ => ([], false, Some accessorError)
      end
    | (_, found, err) => ([], found, err)
    end.

Definition NestedSlice (obj : Object) (fields : list string)
    : list value * bool * error :=
    match NestedFieldNoCopy (VMap obj) fields with
    | (val, true, None) =>
      match val with
      | VSlice l => (l, true, None)
      | _ => ([], false, Some accessorError)
      end
    | (_, found, err) => ([], found, err)
    end.

Definition getNestedString (obj : Object) (fields : list string) : string :=
    let '(s, _, _) := NestedString obj fields in s.

Definition GetName (u : Unstructured) : string :=
    getNestedString u ["metadata"; "name"].
Definition GetAPIVersion (u : Unstructured) : string :=
    getNestedString u ["apiVersion"].
Definition GetKind (u : Unstructured) : string :=
    getNestedString u ["kind"].
Definition GetUID (u : Unstructured) : string :=
    getNestedString u ["metadata"; "uid"].

(** u.setNestedField(v, "metadata", key) *)
Definition setMetadataField (u : Unstructured) (key : string) (v : value)
    : Unstructured :=
    match field u "metadata" with
    | Some (VMap m) => setField u "metadata" (VMap (setField m key v))
    | _ => setField u "metadata" (VMap [(key, v)])
    end.

Record OwnerReference := mkOwnerReference {
    refAPIVersion : string;
    refKind : string;
    refName : string;
    refUID : string
  }.

Definition ownerReferenceValue (r : OwnerReference) : value :=
    VMap [("apiVersion", VString (refAPIVersion r));
          ("kind", VString (refKind r));
          ("name", VString (refName r));
          ("uid", VString (refUID r))].

Definition SetOwnerReferences (u : Unstructured) (refs : list OwnerReference)
    : Unstructured :=
    setMetadataField u "ownerReferences" (VSlice (map ownerReferenceValue refs)).

(** jsonpath.JsonPathLookup for a path of keys, [$.a.b.c]: the value under
    the keys, an error when a key is missing on the way. *)
Fixpoint JsonPathLookup (val : value) (keys : list string) : value + GoError :=
    match keys with
    | [] => inl val
    | k :: rest =>
      match val with
      | VMap m =>
        match field m k with
        | Some v => JsonPathLookup v rest
        | None => inr (PlainError ("key error: " ++ k ++ " not found in object"))
        end
      | _ => inr (PlainError "object is not map")
      end
    end.

(** schema.GroupVersionResource *)
Record GroupVersionResource := mkGVR {
    Group : string;
    Version : string;
    Resource : string
  }.

Definition gvrEqb (a b : GroupVersionResource) : bool :=
    (Group a =? Group b)%string && (Version a =? Version b)%string
    && (Resource a =? Resource b)%string.

(** What the API server, the clock and the timers do is up to the
    cluster [W]: each request is answered from the state of the cluster
    and may change it.  The namespace "" is the cluster scope.
    [pollTicks] starts the timer of a poll: how many times it fires before
    the deadline of the poll is over. *)
Class Cluster (W : Type) := {
    apiGet : GroupVersionResource -> string -> string -> W
             -> (Unstructured + GoError) * W;
    apiCreate : GroupVersionResource -> string -> Unstructured -> W
                -> (Unstructured + GoError) * W;
    apiUpdate : GroupVersionResource -> string -> Unstructured -> W
                -> (Unstructured + GoError) * W;
    apiDelete : GroupVersionResource -> string -> string -> W -> error * W;
    sleepFor : Duration -> W -> W;
    pollTicks : Duration -> Duration -> W -> nat * W
  }.

(** The requests of a run, with their answers. *)
Inductive Call :=
  | Get (gvr : GroupVersionResource) (namespace name : string)
        (answer : Unstructured + GoError)
  | Create (gvr : GroupVersionResource) (namespace : string)
           (obj : Unstructured) (answer : Unstructured + GoError)
  | Update (gvr : GroupVersionResource) (namespace : string)
           (obj : Unstructured) (answer : Unstructured + GoError)
  | Delete (gvr : GroupVersionResource) (namespace name : string)
           (answer : error)
  | Sleep (d : Duration)
  | PollStart (interval timeout : Duration) (ticks : nat).

(** A request and the cluster it was sent to. *)
Record Entry (W : Type) := mkEntry {
    before : W;
    call : Call
  }.
Arguments mkEntry {W}.
Arguments before {W}.
Arguments call {W}.

Record State (W : Type) := mkState {
    world : W;
    calls : list (Entry W)
  }.
Arguments mkState {W}.
Arguments world {W}.
Arguments calls {W}.

Section Client.
Context {W : Type} `{!Cluster W}.

Definition request {A} (op : W -> A * W) (c : A -> Call) : M (State W) A :=
      fun st =>
        let '(a, w') := op (world st) in
        (Val a, mkState w' (calls st ++ [mkEntry (world st) (c a)])).

Definition clientGet gvr namespace name : M (State W) (Unstructured + GoError) :=
      request (apiGet gvr namespace name) (Get gvr namespace name).

Definition clientCreate gvr namespace obj : M (State W) (Unstructured + GoError) :=
      request (apiCreate gvr namespace obj) (Create gvr namespace obj).

Definition clientUpdate gvr namespace obj : M (State W) (Unstructured + GoError) :=
      request (apiUpdate gvr namespace obj) (Update gvr namespace obj).

Definition clientDelete gvr namespace name : M (State W) error :=
      request (apiDelete gvr namespace name) (Delete gvr namespace name).

(** time.Sleep *)
Definition timeSleep (d : Duration) : M (State W) unit :=
      request (fun w => (tt, sleepFor d w)) (fun _ => Sleep d).

Definition DeadlineExceeded : GoError := PlainError "context deadline exceeded".

(** The loop of wait.loopConditionUntilContext: at each firing of the
    timer the condition is called; once the timer has fired [ticks]
    times the context is done.  The condition is a closure: [vars] are
    the variables of the caller it assigns to. *)
Fixpoint pollLoop {V} (ticks : nat)
        (condition : V -> M (State W) (V * bool * error)) (vars : V)
      : M (State W) (V * error) :=
      match ticks with
      | O => ret (vars, Some DeadlineExceeded)
      | S ticks' =>
        '(vars, ok, err) <-- condition vars ;
        match err, ok with
        | Some e, _ => ret (vars, Some e)
        | None, true => ret (vars, None)
        | None, false => pollLoop ticks' condition vars
        end
      end.

(** wait.PollUntilContextTimeout *)
Definition PollUntilContextTimeout {V} (interval timeout : Duration)
        (immediate : bool)
        (condition : V -> M (State W) (V * bool * error)) (vars : V)
      : M (State W) (V * error) :=
      ticks <-- request (pollTicks interval timeout) (PollStart interval timeout) ;
      if immediate then
        '(vars, ok, err) <-- condition vars ;
        match err, ok with
        | Some e, _ => ret (vars, Some e)
        | None, true => ret (vars, None)
        | None, false => pollLoop ticks condition vars
        end
      else pollLoop ticks condition vars.
End Client.
End K8s.

(* ===================================================================== *)
(** ** pkg/operator/operatorhub *)

Module Operatorhub.
Import K8s.
  Local Open Scope go_scope.

(** The [client] of the Go struct is the cluster the code runs against. *)
Record Operator := mkOperator {
    namespace : string;
    name : string;
    artifact : string;
    timeout : Duration;
    interval : Duration
  }.

Definition systemNamespace : string := "cpaas-system".

Definition artifactGVR := mkGVR "app.alauda.io" "v1alpha1" "artifacts".
Definition artifactVersionGVR := mkGVR "app.alauda.io" "v1alpha1" "artifactversions".
Definition subscriptionGVR := mkGVR "operators.coreos.com" "v1alpha1" "subscriptions".
Definition namespaceGVR := mkGVR "" "v1" "namespaces".
Definition installPlanGVR := mkGVR "operators.coreos.com" "v1alpha1" "installplans".
Definition packageManifestGVR :=
    mkGVR "packages.operators.coreos.com" "v1" "packagemanifests".
Definition csvGVR :=
    mkGVR "operators.coreos.com" "v1alpha1" "clusterserviceversions".

(** The part of [NewOperator] after the client is made. *)
Definition NewOperator (options : Config.OperatorConfig.t) : Operator :=
    let artifact := Config.OperatorConfig.Artifact options in
    let artifact :=
      if (artifact =? "")%string
      then Config.OperatorConfig.ArtifactPrefix options ++ "-"
           ++ Config.OperatorConfig.Name options
      else artifact in
    mkOperator (Config.OperatorConfig.Namespace options)
               (Config.OperatorConfig.Name options)
               artifact
               (Config.OperatorConfig.Timeout options)
               (Config.OperatorConfig.Interval options).

Definition nilDereference : string :=
    "invalid memory address or nil pointer dereference".

Section Reconciler.
Context {W : Type} `{!Cluster W}.

Local Abbreviation Run := (M (State W)).

Definition GetResource (o : Operator) (name namespace : string)
        (gvr : GroupVersionResource) : Run (Unstructured + GoError) :=
      clientGet gvr namespace name.

    (* ---------------- artifact_versiong.go ---------------- *)

Definition newArtifactVersion (avName version : string)
        (artifact : Unstructured) : Unstructured :=
      [("apiVersion", VString "app.alauda.io/v1alpha1");
       ("kind", VString "ArtifactVersion");
       ("metadata", VMap [
          ("name", VString avName);
          ("namespace", VString systemNamespace);
          ("annotations", VMap [("kubectl-artifact", VString "kubectl-artfact")]);
          ("labels", VMap [
             ("cpaas.io/artifact-version", VString (GetName artifact));
             ("cpaas.io/library", VString "platform")])]);
       ("spec", VMap [("present", VBool true); ("tag", VString version)])].

Definition createArtifactVersion (o : Operator) (version : string)
        (artifact : Unstructured) : Run (Unstructured + GoError) :=
      let avName := GetName artifact ++ "." ++ version in
      got <-- GetResource o avName systemNamespace artifactVersionGVR ;
      match got with
      | inl av => ret (inl av)
      | inr _ =>
        let av := newArtifactVersion avName version artifact in
        let av := SetOwnerReferences av
                    [mkOwnerReference (GetAPIVersion artifact) (GetKind artifact)
                                      (GetName artifact) (GetUID artifact)] in
        clientCreate artifactVersionGVR systemNamespace av
      end.

Definition phaseIs (obj : Unstructured) (phase : string) : bool :=
      let '(status, _, _) := NestedMap obj ["status"] in
      match field status "phase" with
      | Some (VString p) => (p =? phase)%string
      | _ => false
      end.

Definition waitArtifactVersionPresent (o : Operator) (name : string)
      : Run (Unstructured + GoError) :=
      let lastResource : Unstructured := [] in
      '(lastResource, err) <--
        PollUntilContextTimeout (interval o) (timeout o) true (fun lastResource =>
          got <-- clientGet artifactVersionGVR systemNamespace name ;
          match got with
          | inr e => ret (lastResource, false, Some e)
          | inl obj =>
            if phaseIs obj "Present"
            then ret (obj, true, None)
            else ret (lastResource, false, None)
          end) lastResource ;
      match err with
      | Some e => ret (inr e)
      | None => ret (inl lastResource)
      end.

Definition entryMatches (csv : string) (entry : value) : bool :=
      match entry with
      | VMap entryMap =>
        let '(csvName, _, _) := NestedString entryMap ["name"] in
        Strings.Contains csvName csv
      | _ => false
      end.

Definition channelMatches (csv : string) (channel : value) : bool :=
      match channel with
      | VMap channelMap =>
        let '(entries, _, _) := NestedSlice channelMap ["entries"] in
        existsb (entryMatches csv) entries
      | _ => false
      end.

Definition waitPackageManifest (o : Operator) (csv : string) : Run error :=
      '(_, err) <--
        PollUntilContextTimeout (interval o) (timeout o) true (fun _ : unit =>
          got <-- clientGet packageManifestGVR systemNamespace (name o) ;
          match got with
          | inr e =>
            if negb (IsNotFound e) then ret (tt, false, Some e)
            else ret (tt, false, None)
          | inl pm =>
            let '(channels, _, _) := NestedSlice pm ["status"; "channels"] in
            if existsb (channelMatches csv) channels
            then ret (tt, true, None) else ret (tt, false, None)
          end) tt ;
      ret err.

Definition InstallArtifactVersion (o : Operator) (version : string)
      : Run (Unstructured + GoError) :=
      got <-- GetResource o (artifact o) systemNamespace artifactGVR ;
      match got with
      | inr e => ret (inr (Errorf "failed to get artifact: " e))
      | inl artifact =>
        created <-- createArtifactVersion o version artifact ;
        match created with
        | inr e => ret (inr (Errorf "failed to create artifact version: " e))
        | inl av =>
          waited <-- waitArtifactVersionPresent o (GetName av) ;
          match waited with
          | inr e => ret (inr (Errorf "failed to wait for artifact version: " e))
          | inl av =>
            let '(csv, found, _) := NestedString av ["status"; "version"] in
            if negb found || (csv =? "")%string then
              ret (inr (PlainError
                     ("failed to get CSV version from artifact version "
                      ++ GetName av
                      ++ ": status.version field is empty or not found")))
            else
              err <-- waitPackageManifest o csv ;
              match err with
              | Some e => ret (inr (Errorf "failed to ensure package manifest: " e))
              | None => ret (inl av)
              end
          end
        end
      end.

    (* ---------------- subscription.go ---------------- *)

(** [rsAbled] stays a nil interface when [namespace] is empty, and the
    call of its [Delete] method panics. *)
Definition deleteResource (o : Operator) (gvr : GroupVersionResource)
        (name namespace : string) : Run error :=
      let rsAbled :=
        if negb (namespace =? "")%string then Some namespace else None in
      match rsAbled with
      | None => panic nilDereference
      | Some ns =>
        let waitDeleted : Run error :=
          '(_, err) <--
            PollUntilContextTimeout (interval o) (timeout o) true (fun _ : unit =>
              got <-- clientGet gvr ns name ;
              match got with
              | inr e => if IsNotFound e then ret (tt, true, None)
                         else ret (tt, false, Some e)
              | inl _ => ret (tt, false, None)
              end) tt ;
          match err with
          | Some e =>
            ret (Some (Errorf ("failed to delete resource " ++ name ++ ": ") e))
          | None => ret None
          end in
        err <-- clientDelete gvr ns name ;
        match err with
        | Some e =>
          if negb (IsNotFound e)
          then ret (Some (Errorf ("failed to delete resource " ++ name ++ ": ") e))
          else waitDeleted
        | None => waitDeleted
        end
      end.

Definition newNamespace (namespace : string) : Unstructured :=
      [("apiVersion", VString "v1");
       ("kind", VString "Namespace");
       ("metadata", VMap [("name", VString namespace)])].

Definition newSubscription (name namespace csv channel : string)
      : Unstructured :=
      [("apiVersion", VString "operators.coreos.com/v1alpha1");
       ("kind", VString "Subscription");
       ("metadata", VMap [
          ("name", VString name);
          ("namespace", VString namespace);
          ("labels", VMap [("catalog", VString "platform")])]);
       ("spec", VMap [
          ("channel", VString channel);
          ("installPlanApproval", VString "Manual");
          ("name", VString name);
          ("source", VString "platform");
          ("sourceNamespace", VString systemNamespace);
          ("startingCSV", VString csv)])].

(** [for attempt := 1; attempt <= 3; attempt++]: [attempts] are the
    values of [attempt] still to come, [err] the error of the attempt
    before. *)
Fixpoint createAttempts (attempts : list Z) (namespace : string)
        (subscription : Unstructured) (err : error)
      : Run (Unstructured + GoError) :=
      match attempts with
      | [] =>
        ret (inr (ErrorfV "failed to create subscription after 3 attempts: " err))
      | attempt :: rest =>
        created <-- clientCreate subscriptionGVR namespace subscription ;
        match created with
        | inl result => ret (inl result)
        | inr e =>
          (if (attempt <? 3)%Z then
             let backoffDuration := (Z.shiftl 1 (attempt - 1) * Second)%Z in
             timeSleep backoffDuration
           else ret tt) ;;
          createAttempts rest namespace subscription (Some e)
        end
      end.

Definition createSubscription (o : Operator)
        (name namespace csv channel : string) : Run (Unstructured + GoError) :=
      created <-- clientCreate namespaceGVR "" (newNamespace namespace) ;
      match created with
      | inr e =>
        if negb (IsAlreadyExists e)
        then ret (inr (Errorf "failed to create namespace: " e))
        else createAttempts [1; 2; 3]%Z namespace
               (newSubscription name namespace csv channel) (Some e)
      | inl _ =>
        createAttempts [1; 2; 3]%Z namespace
          (newSubscription name namespace csv channel) None
      end.

Definition waitInstallPlan (o : Operator) (name namespace : string)
      : Run (string * error) :=
      let installPlanName := "" in
      '(installPlanName, err) <--
        PollUntilContextTimeout (interval o) (timeout o) true (fun installPlanName =>
          got <-- clientGet subscriptionGVR namespace name ;
          match got with
          | inr e =>
            if negb (IsNotFound e) then ret (installPlanName, false, Some e)
            else ret (installPlanName, false, None)
          | inl obj =>
            match JsonPathLookup (VMap obj) ["status"; "installplan"; "name"] with
            | inr _ => ret (installPlanName, false, None)
            | inl result =>
              match result with
              | VString installPlanNameStr =>
                if negb (installPlanNameStr =? "")%string
                then ret (installPlanNameStr, true, None)
                else ret (installPlanName, false, None)
              | _ => ret (installPlanName, false, None)
              end
            end
          end) installPlanName ;
      match err with
      | Some _ =>
        ret ("", Some (PlainError ("timeout waiting for subscription " ++ name
                                   ++ " to have install plan")))
      | None =>
        if (installPlanName =? "")%string then
          ret ("", Some (PlainError ("install plan name not found for subscription "
                                     ++ name)))
        else ret (installPlanName, None)
      end.

Definition waitCSVReady (o : Operator) (name namespace : string) : Run error :=
      '(_, err) <--
        PollUntilContextTimeout (interval o) (timeout o) true (fun _ : unit =>
          got <-- clientGet csvGVR namespace name ;
          match got with
          | inr e =>
            if negb (IsNotFound e) then ret (tt, false, Some e)
            else ret (tt, false, None)
          | inl csv =>
            if phaseIs csv "Succeeded" then ret (tt, true, None)
            else ret (tt, false, None)
          end) tt ;
      match err with
      | Some e =>
        ret (Some (PlainError ("timeout waiting for csv " ++ name
                               ++ " to be ready, error: " ++ ErrorMsg e)))
      | None => ret None
      end.

Definition InstallSubscription (o : Operator) (csv channel : string)
      : Run error :=
      if (csv =? "")%string then ret (Some (PlainError "csv is empty")) else
      err <-- deleteResource o subscriptionGVR (name o) (namespace o) ;
      match err with
      | Some e => ret (Some (Errorf "failed to delete old subscription: " e))
      | None =>
      err <-- deleteResource o csvGVR csv (namespace o) ;
      match err with
      | Some e => ret (Some (Errorf "failed to delete old csv: " e))
      | None =>
      created <-- createSubscription o (name o) (namespace o) csv channel ;
      match created with
      | inr e => ret (Some (Errorf "failed to create subscription: " e))
      | inl _ =>
      '(installPlanName, err) <-- waitInstallPlan o (name o) (namespace o) ;
      match err with
      | Some e => ret (Some (Errorf "failed to wait for install plan: " e))
      | None =>
      got <-- clientGet installPlanGVR (namespace o) installPlanName ;
      match got with
      | inr e => ret (Some (Errorf "failed to get install plan: " e))
      | inl installPlan =>
        match field installPlan "spec" with
        | Some (VMap spec) =>
          let installPlan :=
            setField installPlan "spec" (VMap (setField spec "approved" (VBool true))) in
          updated <-- clientUpdate installPlanGVR (namespace o) installPlan ;
          match updated with
          | inr e => ret (Some (Errorf "failed to update install plan: " e))
          | inl _ =>
            err <-- waitCSVReady o csv (namespace o) ;
            match err with
            | Some e => ret (Some (Errorf "failed to wait for csv to be ready: " e))
            | None => ret None
            end
          end
        | _ => panic "interface conversion: interface {} is not map[string]interface {}"
        end
      end end end end end.

Definition DeleteSubscription (o : Operator) (name namespace : string)
      : Run error :=
      clientDelete subscriptionGVR namespace name.

    (* ---------------- operator.go ---------------- *)

Definition UpgradeOperator (o : Operator) (version : Config.Version.t)
      : Run error :=
      installed <-- InstallArtifactVersion o (Config.Version.BundleVersion version) ;
      match installed with
      | inr e => ret (Some (Errorf "failed to prepare operator: " e))
      | inl av =>
        let '(csv, _, _) := NestedString av ["status"; "version"] in
        let channel := Config.Version.Channel version in
        let channel := if (channel =? "")%string then "stable" else channel in
        err <-- InstallSubscription o csv channel ;
        match err with
        | Some e => ret (Some (Errorf "failed to install subscription: " e))
        | None => ret None
        end
      end.

(** [*Operator] implements [operator.OperatorInterface]. *)
Definition operatorhubInterface
      : OperatorIface.OperatorInterface Operator (State W) := UpgradeOperator.
End Reconciler.
End Operatorhub.

(** *** What the properties of the reconciler read off a run *)

Module K8sProps.
Import K8s Operatorhub.

(** A key of the cluster: kind, namespace and name. *)
Definition Key : Type := GroupVersionResource * string * string.

(** Whether an object of a key is live in a cluster. *)
Class Liveness (W : Type) := live : W -> Key -> bool.

Definition isCreate (gvr : GroupVersionResource) (c : Call) : bool :=
    match c with
    | Create g _ _ _ => gvrEqb g gvr
    | _ => false
    end.

(** If the request is one to create a Subscription, it is for the
    Subscription of key [k], and no object of that key was live in the
    cluster it was sent to. *)
Definition createdAfresh {W} `{!Liveness W} (ns n : string) (e : Entry W)
    : Prop :=
    forall ns' obj answer,
      call e = Create subscriptionGVR ns' obj answer ->
      ns' = ns /\ GetName obj = n
      /\ live (before e) (subscriptionGVR, ns, n) = false.

(** The pauses of a run and the answers to its requests to create a
    Subscription, in order. *)
Definition schedule (cs : list Call) : list (Duration + (Unstructured + GoError)) :=
    omap (fun c => match c with
                   | Sleep d => Some (inl d)
                   | Create g _ _ answer =>
                     if gvrEqb g subscriptionGVR then Some (inr answer) else None
                   | _ => None
                   end) cs.

(** The answers to the requests to create a Subscription, in order. *)
Definition attempts (cs : list Call) : list (Unstructured + GoError) :=
    omap (fun x => match x with
                   | inr answer => Some answer
                   | inl _ => None
                   end) (schedule cs).

Definition failed {A} (answer : A + GoError) : bool :=
    match answer with
    | inr _ => true
    | inl _ => false
    end.

(** A delete request that was answered with nil or not-found, followed by
    a poll whose gets saw the object until one was answered not-found. *)
Definition ConfirmedDeletion (gvr : GroupVersionResource)
      (namespace name : string) (cs : list Call) : Prop :=
    exists answer interval timeout ticks seen e,
      cs = (Delete gvr namespace name answer
            :: PollStart interval timeout ticks
            :: map (fun obj => Get gvr namespace name (inl obj)) seen
            ++ [Get gvr namespace name (inr e)])%list
      /\ IsNotFound e = true
      /\ (answer = None \/ exists e0, answer = Some e0 /\ IsNotFound e0 = true).

(** The tool is the only one that creates objects while it runs: an
    object is live from a successful create request for it until a get
    request for it is answered not-found, and nothing else makes an
    object live. *)
Class SoleDriver (W : Type) `{!Cluster W, !Liveness W} : Prop := {
    get_absent : forall g ns n w e w',
      apiGet g ns n w = (inr e, w') -> IsNotFound e = true ->
      live w' (g, ns, n) = false;
    get_keeps : forall g ns n w k,
      live w k = false -> live (snd (apiGet g ns n w)) k = false;
    delete_keeps : forall g ns n w k,
      live w k = false -> live (snd (apiDelete g ns n w)) k = false;
    update_keeps : forall g ns obj w k,
      live w k = false -> live (snd (apiUpdate g ns obj w)) k = false;
    sleep_keeps : forall d w k,
      live w k = false -> live (sleepFor d w) k = false;
    ticks_keeps : forall i t w k,
      live w k = false -> live (snd (pollTicks i t w)) k = false;
    create_other_keeps : forall g ns obj w k,
      k <> (g, ns, GetName obj) ->
      live w k = false -> live (snd (apiCreate g ns obj w)) k = false;
    create_failed_keeps : forall g ns obj w e w' k,
      apiCreate g ns obj w = (inr e, w') ->
      live w k = false -> live w' k = false
  }.

(** The requests added from [st] to [st'] are gets that saw the object
    of the key until one was answered not-found, after which no object of
    the key is live. *)
Definition Confirmed {W} `{!Liveness W} (g : GroupVersionResource)
      (ns n : string) (st st' : State W) : Prop :=
    exists new seen e,
      calls st' = (calls st ++ new)%list
      /\ map call new
         = (map (fun obj => Get g ns n (inl obj)) seen ++ [Get g ns n (inr e)])%list
      /\ IsNotFound e = true
      /\ live (world st') (g, ns, n) = false.

(** Every run of [m] relates the state before to the state after. *)
Definition Respects {W A} (R : State W -> State W -> Prop)
      (m : M (State W) A) : Prop :=
    forall st out st', m st = (out, st') -> R st st'.

(** The requests that neither create nor fail to create an object. *)
Definition QuietRequests {W} `{!Cluster W} (R : State W -> State W -> Prop)
    : Prop :=
    (forall g ns n, Respects R (clientGet g ns n))
    /\ (forall g ns n, Respects R (clientDelete g ns n))
    /\ (forall g ns obj, Respects R (clientUpdate g ns obj))
    /\ (forall d, Respects R (timeSleep d))
    /\ (forall i t, Respects R (request (pollTicks i t) (PollStart i t))).

(** The run added requests that all satisfy [P]. *)
Definition Added {W} (P : Entry W -> Prop) (st st' : State W) : Prop :=
    exists new, calls st' = (calls st ++ new)%list /\ Forall P new.

(** The run made no object of key [k] live. *)
Definition StaysAbsent {W} `{!Liveness W} (k : Key)
      (st st' : State W) : Prop :=
    live (world st) k = false -> live (world st') k = false.

Definition channelOf (obj : Unstructured) : string :=
    getNestedString obj ["spec"; "channel"].

Definition notCreate (c : Call) : Prop :=
    match c with
    | Create _ _ _ _ => False
    | _ => True
    end.

(** If the request is one to create a Subscription, the Subscription
    asks for [channel]. *)
Definition channelStamped {W} (channel : string) (e : Entry W) : Prop :=
    forall ns obj answer,
      call e = Create subscriptionGVR ns obj answer -> channelOf obj = channel.
End K8sProps.

(** *** More to read off a run of the reconciler *)

Module K8sMoreProps.
Import K8s Operatorhub K8sProps.

(** Requests that change nothing in the cluster. *)
Definition readOnly (c : Call) : Prop :=
    match c with
    | Get _ _ _ _ | PollStart _ _ _ => True
    | _ => False
    end.

(** The requests [InstallArtifactVersion] may send: gets, polls, and the
    creation of an ArtifactVersion in the system namespace. *)
Definition publishing (c : Call) : Prop :=
    match c with
    | Get _ _ _ _ | PollStart _ _ _ => True
    | Create g ns _ _ => g = artifactVersionGVR /\ ns = systemNamespace
    | _ => False
    end.

(** If the request is one to create a Subscription, it is the
    Subscription [InstallSubscription] builds. *)
Definition wellFormedSubscription {W} (o : Operator) (csv channel : string)
      (e : Entry W) : Prop :=
    forall ns obj answer,
      call e = Create subscriptionGVR ns obj answer ->
      ns = namespace o
      /\ GetName obj = name o
      /\ getNestedString obj ["metadata"; "namespace"] = namespace o
      /\ getNestedString obj ["spec"; "name"] = name o
      /\ getNestedString obj ["spec"; "startingCSV"] = csv
      /\ getNestedString obj ["spec"; "channel"] = channel
      /\ getNestedString obj ["spec"; "installPlanApproval"] = "Manual"
      /\ getNestedString obj ["spec"; "source"] = "platform"
      /\ getNestedString obj ["spec"; "sourceNamespace"] = systemNamespace.

(** If the request is one to create a Subscription, its startingCSV is
    not empty. *)
Definition startsSomewhere {W} (e : Entry W) : Prop :=
    forall ns obj answer,
      call e = Create subscriptionGVR ns obj answer ->
      getNestedString obj ["spec"; "startingCSV"] <> "".

(** The answers to the get requests of a run, in order. *)
Definition getAnswers (cs : list Call) : list (Unstructured + GoError) :=
    omap (fun c => match c with
                   | Get _ _ _ answer => Some answer
                   | _ => None
                   end) cs.

Definition statusVersion (av : Unstructured) : string :=
    getNestedString av ["status"; "version"].

(** The run added requests and took none back. *)
Definition Extends {W} (st st' : State W) : Prop :=
    Added (fun _ => True) st st'.

(** An object whose spec.approved is true. *)
Definition approved (obj : Unstructured) : bool :=
    match NestedFieldNoCopy (VMap obj) ["spec"; "approved"] with
    | (VBool true, true, None) => true
    | _ => false
    end.

(** A request that updated an install plan of the namespace to approved
    and was answered without error. *)
Definition approval (ns : string) (c : Call) : Prop :=
    exists plan answer,
      c = Update installPlanGVR ns plan (inl answer) /\ approved plan = true.

(** A request that created a Subscription in the namespace. *)
Definition subscribed (ns : string) (c : Call) : Prop :=
    exists obj answer, c = Create subscriptionGVR ns obj (inl answer).

(** A get request that saw the CSV in phase Succeeded. *)
Definition sawSucceeded (ns csv : string) (c : Call) : Prop :=
    exists obj,
      c = Get csvGVR ns csv (inl obj) /\ phaseIs obj "Succeeded" = true.

(** A get request that saw the Subscription name the install plan. *)
Definition sawPlan (ns n plan : string) (c : Call) : Prop :=
    exists sub,
      c = Get subscriptionGVR ns n (inl sub)
      /\ JsonPathLookup (VMap sub) ["status"; "installplan"; "name"]
         = inl (VString plan).

(** Whether an entry of a channel of the package manifest has a name
    that contains the name of the CSV. *)
Definition lists (pm : Unstructured) (csv : string) : bool :=
    let '(channels, _, _) := NestedSlice pm ["status"; "channels"] in
    existsb (channelMatches csv) channels.

(** A get request that saw the package manifest of the operator list the
    CSV. *)
Definition sawListed (o : Operator) (csv : string) (c : Call) : Prop :=
    exists pm,
      c = Get packageManifestGVR systemNamespace (name o) (inl pm)
      /\ lists pm csv = true.

(** If the request is one to create an object, it is the ArtifactVersion
    of [version] that [createArtifactVersion] builds for [artifact]. *)
Definition wellFormedArtifactVersion {W} (version : string)
      (artifact : Unstructured) (e : Entry W) : Prop :=
    forall g ns obj answer,
      call e = Create g ns obj answer ->
      g = artifactVersionGVR /\ ns = systemNamespace
      /\ GetKind obj = "ArtifactVersion"
      /\ GetName obj = (GetName artifact ++ "." ++ version)%string
      /\ getNestedString obj ["metadata"; "namespace"] = systemNamespace
      /\ getNestedString obj ["metadata"; "labels"; "cpaas.io/artifact-version"]
         = GetName artifact
      /\ getNestedString obj ["spec"; "tag"] = version
      /\ NestedFieldNoCopy (VMap obj) ["spec"; "present"] = (VBool true, true, None)
      /\ NestedFieldNoCopy (VMap obj) ["metadata"; "ownerReferences"]
         = (VSlice [ownerReferenceValue
                      (mkOwnerReference (GetAPIVersion artifact) (GetKind artifact)
                                        (GetName artifact) (GetUID artifact))],
            true, None).
End K8sMoreProps.

(** *** A passive API server

    A store of objects.  A deleted object lingers for [grace] more get
    requests on it before it is gone; the errors in [faults] are the answers
    to the coming requests to create a Subscription; the timer of a poll
    fires [patience] times. *)

Module Sim.
Import K8s Operatorhub K8sProps.

Definition SKey : Type := string * string * string * string * string.

Definition skey (g : GroupVersionResource) (ns n : string) : SKey :=
    (Group g, Version g, Resource g, ns, n).

(** The objects of the store with what is left of their lingering; the
    first binding of a key counts. *)
Definition Store : Type := list (SKey * (Unstructured * option nat)).

Fixpoint find (s : Store) (k : SKey) : option (Unstructured * option nat) :=
    match s with
    | [] => None
    | (k', x) :: rest => if decide (k' = k) then Some x else find rest k
    end.

Definition put (k : SKey) (x : Unstructured * option nat) (s : Store) : Store :=
    (k, x) :: s.

Fixpoint remove (k : SKey) (s : Store) : Store :=
    match s with
    | [] => []
    | (k', x) :: rest =>
      if decide (k' = k) then remove k rest else (k', x) :: remove k rest
    end.

Record Cluster := mk {
    store : Store;
    faults : list GoError;
    grace : nat;
    patience : nat
  }.

Definition notFound (n : string) : GoError :=
    StatusError ReasonNotFound (n ++ " not found").

Definition alreadyExists (n : string) : GoError :=
    StatusError ReasonAlreadyExists (n ++ " already exists").

Definition withStore (w : Cluster) (s : Store) : Cluster := mk s (faults w) (grace w) (patience w).

Definition simGet (g : GroupVersionResource) (ns n : string) (w : Cluster)
    : (Unstructured + GoError) * Cluster :=
    match find (store w) (skey g ns n) with
    | None => (inr (notFound n), w)
    | Some (obj, None) => (inl obj, w)
    | Some (obj, Some O) => (inr (notFound n), withStore w (remove (skey g ns n) (store w)))
    | Some (obj, Some (S remaining)) =>
      (inl obj, withStore w (put (skey g ns n) (obj, Some remaining) (store w)))
    end.

Definition simCreate (g : GroupVersionResource) (ns : string)
      (obj : Unstructured) (w : Cluster) : (Unstructured + GoError) * Cluster :=
    match gvrEqb g subscriptionGVR, faults w with
    | true, e :: rest => (inr e, mk (store w) rest (grace w) (patience w))
    | _, _ =>
      match find (store w) (skey g ns (GetName obj)) with
      | Some _ => (inr (alreadyExists (GetName obj)), w)
      | None => (inl obj, withStore w (put (skey g ns (GetName obj)) (obj, None) (store w)))
      end
    end.

Definition simUpdate (g : GroupVersionResource) (ns : string)
      (obj : Unstructured) (w : Cluster) : (Unstructured + GoError) * Cluster :=
    match find (store w) (skey g ns (GetName obj)) with
    | Some (_, pending) =>
      (inl obj, withStore w (put (skey g ns (GetName obj)) (obj, pending) (store w)))
    | None => (inr (notFound (GetName obj)), w)
    end.

Definition simDelete (g : GroupVersionResource) (ns n : string) (w : Cluster)
    : error * Cluster :=
    match find (store w) (skey g ns n) with
    | Some (obj, None) =>
      (None, withStore w (put (skey g ns n) (obj, Some (grace w)) (store w)))
    | Some (_, Some _) => (None, w)
    | None => (Some (notFound n), w)
    end.

Definition simCluster : K8s.Cluster Cluster :=
    {| apiGet := simGet;
       apiCreate := simCreate;
       apiUpdate := simUpdate;
       apiDelete := simDelete;
       sleepFor := fun _ w => w;
       pollTicks := fun _ _ w => (patience w, w) |}.

Definition simLive : Liveness Cluster :=
    fun w k =>
      let '(g, ns, n) := k in
      match find (store w) (skey g ns n) with
      | Some _ => true
      | None => false
      end.

Definition op : Operator :=
    mkOperator "testing" "gitlab-operator" "operatorhub-gitlab-operator"
               (600 * Second)%Z (5 * Second)%Z.

Definition oldSubscription : Unstructured :=
    @newSubscription "gitlab-operator" "testing" "gitlab.v17.8.0" "alpha".

Definition flaky : GoError :=
    StatusError (ReasonOther "InternalError") "etcdserver: request timed out".

(** A cluster that holds a Subscription from an earlier installation. *)
Definition used (faults : list GoError) : Cluster :=
    mk [(skey subscriptionGVR "testing" "gitlab-operator", (oldSubscription, None))]
       faults 2 3.

Definition fresh (faults : list GoError) : Cluster := mk [] faults 2 3.

Definition theArtifact : Unstructured :=
    [("apiVersion", VString "app.alauda.io/v1alpha1");
     ("kind", VString "Artifact");
     ("metadata", VMap [("name", VString "operatorhub-gitlab-operator");
                        ("namespace", VString systemNamespace);
                        ("uid", VString "7d1c")])].

Definition presentVersion : Unstructured :=
    [("apiVersion", VString "app.alauda.io/v1alpha1");
     ("kind", VString "ArtifactVersion");
     ("metadata", VMap [("name", VString "operatorhub-gitlab-operator.v17.11.0");
                        ("namespace", VString systemNamespace)]);
     ("spec", VMap [("present", VBool true); ("tag", VString "v17.11.0")]);
     ("status", VMap [("phase", VString "Present");
                      ("version", VString "gitlab.v17.11.0")])].

Definition theManifest : Unstructured :=
    [("metadata", VMap [("name", VString "gitlab-operator")]);
     ("status", VMap [("channels", VSlice [
        VMap [("name", VString "stable");
              ("entries", VSlice [VMap [("name", VString "gitlab.v17.11.0")]])]])])].

(** A cluster whose catalog offers the bundle version v17.11.0. *)
Definition stocked : Cluster :=
    mk [(skey artifactGVR systemNamespace "operatorhub-gitlab-operator",
         (theArtifact, None));
        (skey artifactVersionGVR systemNamespace
              "operatorhub-gitlab-operator.v17.11.0", (presentVersion, None));
        (skey packageManifestGVR systemNamespace "gitlab-operator",
         (theManifest, None))]
       [] 2 3.

Definition v17_11 (channel : string) : Config.Version.t :=
    Config.Version.mk "v17.11" "v17.11.0" "" "" channel.

Definition start (w : Cluster) : State Cluster := mkState w [].

(** The operator of a configuration that names no namespace. *)
Definition homeless : Operator :=
    mkOperator "" "gitlab-operator" "operatorhub-gitlab-operator"
               (600 * Second)%Z (5 * Second)%Z.

(** The old Subscription is there, and stays. *)
Definition subscriptionStays (w : Cluster) : Prop :=
    find (store w) (skey subscriptionGVR "testing" "gitlab-operator")
    = Some (oldSubscription, None).

(** A cluster whose objects cannot be deleted: requests to delete are
    answered nil and change nothing. *)
Definition stubborn : K8s.Cluster Cluster :=
    {| apiGet := simGet;
       apiCreate := simCreate;
       apiUpdate := simUpdate;
       apiDelete := fun _ _ _ w => (None, w);
       sleepFor := fun _ w => w;
       pollTicks := fun _ _ w => (patience w, w) |}.

(** What the lifecycle manager writes into a Subscription it has
    resolved. *)
Definition resolved (sub : Unstructured) : Unstructured :=
    setField sub "status"
      (VMap [("installplan", VMap [("name", VString "install-7x2kq")])]).

(** A cluster whose Subscription names its install plan. *)
Definition planned : Cluster :=
    mk [(skey subscriptionGVR "testing" "gitlab-operator",
         (resolved oldSubscription, None))] [] 2 3.

(** A cluster in which the namespace of the operator exists. *)
Definition settled : Cluster :=
    mk [(skey namespaceGVR "" "testing", (newNamespace "testing", None))] [] 2 3.

Definition thePlan (csv : string) : Unstructured :=
    [("apiVersion", VString "operators.coreos.com/v1alpha1");
     ("kind", VString "InstallPlan");
     ("metadata", VMap [("name", VString "install-7x2kq")]);
     ("spec", VMap [("approved", VBool false);
                    ("clusterServiceVersionNames", VSlice [VString csv])])].

Definition theCSV (csv : string) : Unstructured :=
    [("apiVersion", VString "operators.coreos.com/v1alpha1");
     ("kind", VString "ClusterServiceVersion");
     ("metadata", VMap [("name", VString csv)]);
     ("status", VMap [("phase", VString "Succeeded")])].

(** A cluster with a lifecycle manager: a Subscription that is created
    is resolved at once to an install plan, and the CSVs of an install
    plan that is updated to approved are installed at once. *)
Definition managedCreate (g : GroupVersionResource) (ns : string)
      (obj : Unstructured) (w : Cluster) : (Unstructured + GoError) * Cluster :=
    match simCreate g ns obj w with
    | (inl created, w1) =>
      if gvrEqb g subscriptionGVR then
        (inl created,
         withStore w1
           (put (skey installPlanGVR ns "install-7x2kq")
                (thePlan (getNestedString obj ["spec"; "startingCSV"]), None)
                (put (skey subscriptionGVR ns (GetName obj)) (resolved obj, None)
                     (store w1))))
      else (inl created, w1)
    | answer => answer
    end.

Definition managedUpdate (g : GroupVersionResource) (ns : string)
      (obj : Unstructured) (w : Cluster) : (Unstructured + GoError) * Cluster :=
    match simUpdate g ns obj w with
    | (inl updated, w1) =>
      if gvrEqb g installPlanGVR && K8sMoreProps.approved obj then
        match NestedSlice obj ["spec"; "clusterServiceVersionNames"] with
        | ([VString csv], _, _) =>
          (inl updated,
           withStore w1 (put (skey csvGVR ns csv) (theCSV csv, None) (store w1)))
        | _ => (inl updated, w1)
        end
      else (inl updated, w1)
    | answer => answer
    end.

Definition managed : K8s.Cluster Cluster :=
    {| apiGet := simGet;
       apiCreate := managedCreate;
       apiUpdate := managedUpdate;
       apiDelete := simDelete;
       sleepFor := fun _ w => w;
       pollTicks := fun _ _ w => (patience w, w) |}.

(** No CSV gitlab.v17.11.0 in the namespace of the operator. *)
Definition csvAbsent (w : Cluster) : Prop :=
    find (store w) (skey csvGVR "testing" "gitlab.v17.11.0") = None.

Definition runInstallSubscription :=
    @InstallSubscription Cluster simCluster.
Definition runCreateSubscription :=
    @createSubscription Cluster simCluster.
Definition runDeleteResource :=
    @deleteResource Cluster simCluster.
Definition runCreateArtifactVersion :=
    @createArtifactVersion Cluster simCluster.
Definition runUpgradeOperator :=
    @UpgradeOperator Cluster simCluster.
End Sim.

(* ===================================================================== *)
(** ** pkg/git *)

Module Git.
Import Strings.

(** os.PathSeparator of the Unix builds the tool is released for. *)
Definition PathSeparator : ascii := "/"%char.

(** The function literal passed to strings.Map in [sanitizePath]. *)
Definition allowRune (r : rune) : rune :=
    if ((48 <=? r) && (r <=? 57)              (* '0' .. '9' *)
        || (65 <=? r) && (r <=? 90)           (* 'A' .. 'Z' *)
        || (97 <=? r) && (r <=? 122)          (* 'a' .. 'z' *)
        || (r =? 95) || (r =? 46))%Z          (* '_' and '.' *)
    then r
    else 95%Z.                                (* '_' *)

Definition sanitizePart (part : string) : string :=
    ReplaceAllRuns "_"%char (Map allowRune part).

Definition sanitizePath (path : string) : string :=
    let parts := Split path PathSeparator in
    let parts := map sanitizePart parts in
    Join parts (String PathSeparator EmptyString).
End Git.

(** *** Predicates used to state the properties of [sanitizePath] *)

Module GitProps.
  Local Open Scope Z_scope.

(** Every byte of [s] satisfies [P]. *)
Fixpoint allBytes (P : ascii -> bool) (s : string) : bool :=
    match s with
    | EmptyString => true
    | String c t => P c && allBytes P t
    end.

(** Two bytes [c] next to each other somewhere in [s]. *)
Fixpoint hasRepeat (c : ascii) (s : string) : bool :=
    match s with
    | EmptyString => false
    | String x t =>
      match t with
      | String y _ => Ascii.eqb x c && Ascii.eqb y c
      | EmptyString => false
      end || hasRepeat c t
    end.

Definition isAlnum (b : Z) : bool :=
    (48 <=? b) && (b <=? 57) || (65 <=? b) && (b <=? 90)
    || (97 <=? b) && (b <=? 122).

(** [0-9A-Za-z_.]: the bytes the mapping of [sanitizePath] keeps. *)
Definition keptByte (c : ascii) : bool :=
    let b := byteZ c in isAlnum b || (b =? 95) || (b =? 46).

(** [0-9A-Za-z_.-]: the set of the documentation. *)
Definition inDocSet (c : ascii) : bool :=
    keptByte c || (byteZ c =? 45).

Definition startsWith (c : ascii) (s : string) : bool :=
    match s with
    | String x _ => Ascii.eqb x c
    | EmptyString => false
    end.

Definition sepStr : string := String Git.PathSeparator EmptyString.

(** No path separator in [p]. *)
Definition noSep (p : string) : bool :=
    allBytes (fun c => negb (Ascii.eqb c Git.PathSeparator)) p.

Definition inDocSetOrSep (c : ascii) : bool :=
    inDocSet c || Ascii.eqb c Git.PathSeparator.

Definition keptOrSep (c : ascii) : bool :=
    keptByte c || Ascii.eqb c Git.PathSeparator.

Definition notHyphen (c : ascii) : bool := negb (Ascii.eqb c "-"%char).

(** The bytes of all the parts together. *)
Definition totalLength (parts : list string) : nat :=
    fold_right (fun p n => (String.length p + n)%nat) 0%nat parts.
End GitProps.

(* ===================================================================== *)
(** * Properties *)

Module GitFacts.
Import Strings Git GitProps.

Lemma byteZ_range c : (0 <= byteZ c < 256)%Z.
Proof.
    unfold byteZ. pose proof (N_ascii_bounded c). lia.
Qed.

Lemma Zbyte_byteZ c : Zbyte (byteZ c) = c.
Proof.
    unfold Zbyte, byteZ. rewrite N2Z.id. apply ascii_N_embedding.
Qed.

Lemma byteZ_Zbyte z : (0 <= z < 256)%Z -> byteZ (Zbyte z) = z.
Proof.
    intros H. unfold Zbyte, byteZ. rewrite N_ascii_embedding by lia. lia.
Qed.

Lemma allowRune_cases r :
    (allowRune r = r /\ keptByte (Zbyte r) = true /\ (0 <= r < 128)%Z)
    \/ allowRune r = 95%Z.
Proof.
    unfold allowRune.
    destruct (_ || _ || _ || _ || _)%bool eqn:E; [left|right; reflexivity].
    assert (0 <= r < 128)%Z as Hr by lia.
    split; [reflexivity|split; [|exact Hr]].
    unfold keptByte, isAlnum. rewrite byteZ_Zbyte by lia. exact E.
Qed.

Lemma allowRune_encode r :
    exists c, Utf8.EncodeRune (allowRune r) = String c EmptyString
              /\ keptByte c = true /\ (allowRune r <? 0)%Z = false.
Proof.
    destruct (allowRune_cases r) as [(E & K & R)|E]; rewrite E.
    - exists (Zbyte r). unfold Utf8.EncodeRune.
      replace (r <=? 127)%Z with true by lia. repeat split; [done|lia].
    - exists "_"%char. by vm_compute.
Qed.

Lemma allBytes_app P a b :
    allBytes P (a ++ b) = allBytes P a && allBytes P b.
Proof. induction a as [|c a IH]; simpl; [done|]. by rewrite IH, andb_assoc. Qed.

Lemma allBytes_impl (P Q : ascii -> bool) s :
    (forall c, P c = true -> Q c = true) ->
    allBytes P s = true -> allBytes Q s = true.
Proof.
    intros HPQ. induction s as [|c s IH]; simpl; [done|].
    intros [Hc Hs]%andb_true_iff. rewrite (HPQ _ Hc). simpl. auto.
Qed.

Lemma MapLoop_allowRune_kept fuel s :
    allBytes keptByte (MapLoop fuel allowRune s) = true.
Proof.
    revert s. induction fuel as [|fuel IH]; intros s; simpl; [done|].
    destruct s as [|c t]; [done|].
    destruct (Utf8.DecodeRuneInString (String c t)) as [r w].
    destruct (allowRune_encode r) as (c' & -> & K & ->).
    simpl. rewrite K. apply IH.
Qed.

Lemma length_drop n s : String.length (drop n s) <= String.length s.
Proof.
    revert s. induction n as [|n IH]; intros [|c t]; simpl; try lia.
    specialize (IH t). lia.
Qed.

(** Each round of the loop of strings.Map consumes a byte or more: the
    fuel [Map] gives it is enough, and more changes nothing. *)
Lemma MapLoop_fuel mapping fuel :
    forall fuel' s,
      String.length s <= fuel -> String.length s <= fuel' ->
      MapLoop fuel mapping s = MapLoop fuel' mapping s.
Proof.
    induction fuel as [|fuel IH]; intros [|fuel'] [|c t] H H';
      cbn [String.length] in *; try done; try lia.
    cbn [MapLoop].
    destruct (Utf8.DecodeRuneInString (String c t)) as [r w].
    pose proof (length_drop (w - 1) t) as Hd.
    rewrite (IH fuel' (drop (w - 1) t)) by lia. done.
Qed.

Lemma Map_allowRune_kept s : allBytes keptByte (Map allowRune s) = true.
Proof. apply MapLoop_allowRune_kept. Qed.

(** On a string of kept bytes the mapping changes nothing. *)
Lemma MapLoop_allowRune_id fuel s :
    (String.length s <= fuel)%nat ->
    allBytes keptByte s = true -> MapLoop fuel allowRune s = s.
Proof.
    revert s. induction fuel as [|fuel IH]; intros [|c t] Hlen Hk; simpl in *;
      try done; try lia.
    apply andb_true_iff in Hk as [Hc Ht].
    assert (byteZ c < 128)%Z as Hlt.
    { unfold keptByte, isAlnum in Hc. lia. }
    pose proof (byteZ_range c) as Hr.
    assert (Utf8.first (byteZ c) = Utf8.ASCII) as ->.
    { unfold Utf8.first. replace (byteZ c <? 128)%Z with true by lia. done. }
    assert (allowRune (byteZ c) = byteZ c) as ->.
    { unfold allowRune. unfold keptByte, isAlnum in Hc. cbv zeta in Hc.
      by rewrite Hc. }
    unfold Utf8.EncodeRune.
    replace (byteZ c <? 0)%Z with false by lia.
    replace (byteZ c <=? 127)%Z with true by lia.
    simpl. rewrite Zbyte_byteZ. f_equal. apply IH; [lia|done].
Qed.

Lemma Map_allowRune_id s :
    allBytes keptByte s = true -> Map allowRune s = s.
Proof. intros H. apply MapLoop_allowRune_id; [lia|done]. Qed.

(** *** Runs of underscores *)

Lemma squeezeFrom_allBytes P b c s :
    allBytes P s = true -> allBytes P (squeezeFrom b c s) = true.
Proof.
    revert b. induction s as [|x t IH]; intros b; simpl; [done|].
    intros [Hx Ht]%andb_true_iff.
    destruct (Ascii.eqb_spec x c) as [->|Hne].
    - destruct b; simpl; rewrite ?Hx; simpl; auto.
    - simpl. rewrite Hx. simpl. auto.
Qed.

Lemma squeezeFrom_true_start c s :
    startsWith c (squeezeFrom true c s) = false.
Proof.
    induction s as [|x t IH]; simpl; [done|].
    destruct (Ascii.eqb_spec x c) as [->|Hne]; [done|].
    simpl. by apply Ascii.eqb_neq.
Qed.

Lemma hasRepeat_cons c x t :
    hasRepeat c (String x t) = Ascii.eqb x c && startsWith c t || hasRepeat c t.
Proof. destruct t; simpl; [by rewrite andb_false_r|done]. Qed.

Lemma squeezeFrom_noRepeat b c s :
    hasRepeat c (squeezeFrom b c s) = false.
Proof.
    revert b. induction s as [|x t IH]; intros b; [done|].
    cbn [squeezeFrom].
    destruct (Ascii.eqb_spec x c) as [->|Hne].
    - destruct b; [apply IH|].
      rewrite hasRepeat_cons, squeezeFrom_true_start, IH.
      by rewrite andb_false_r.
    - rewrite hasRepeat_cons, IH.
      apply Ascii.eqb_neq in Hne. by rewrite Hne.
Qed.

(** A string without a repeated [c] is left as it is. *)
Lemma squeezeFrom_id b c s :
    hasRepeat c s = false -> (b = true -> startsWith c s = false) ->
    squeezeFrom b c s = s.
Proof.
    revert b. induction s as [|x t IH]; intros b Hrep Hstart; [done|].
    rewrite hasRepeat_cons in Hrep.
    apply orb_false_iff in Hrep as [Hxt Ht].
    cbn [squeezeFrom].
    destruct (Ascii.eqb_spec x c) as [->|Hne].
    - destruct b.
      + specialize (Hstart eq_refl). simpl in Hstart.
        by rewrite Ascii.eqb_refl in Hstart.
      + f_equal. apply IH; [done|]. intros _. exact Hxt.
    - f_equal. apply IH; [done|]. intros; done.
Qed.

Lemma ReplaceAllRuns_id c s : hasRepeat c s = false -> ReplaceAllRuns c s = s.
Proof. intros H. apply squeezeFrom_id; [done|intros; done]. Qed.

Lemma sanitizePart_kept p : allBytes keptByte (sanitizePart p) = true.
Proof. apply squeezeFrom_allBytes, Map_allowRune_kept. Qed.

Lemma sanitizePart_noRepeat p : hasRepeat "_" (sanitizePart p) = false.
Proof. apply squeezeFrom_noRepeat. Qed.

Lemma sanitizePart_id p :
    allBytes keptByte p = true -> hasRepeat "_" p = false -> sanitizePart p = p.
Proof.
    intros Hk Hr. unfold sanitizePart.
    rewrite (Map_allowRune_id _ Hk). by apply ReplaceAllRuns_id.
Qed.

Lemma sanitizePart_idem p : sanitizePart (sanitizePart p) = sanitizePart p.
Proof. apply sanitizePart_id; [apply sanitizePart_kept|apply sanitizePart_noRepeat]. Qed.

(** *** Split and Join *)

Lemma Split_nonempty s sep : Split s sep <> [].
Proof.
    destruct s as [|c t]; simpl; [done|].
    destruct (Ascii.eqb c sep); [done|]. by destruct (Split t sep).
Qed.

Lemma Join_cons e rest sep :
    rest <> [] -> Join (e :: rest) sep = e ++ sep ++ Join rest sep.
Proof. by destruct rest. Qed.

Lemma Join_Split s sep : Join (Split s sep) (String sep EmptyString) = s.
Proof.
    induction s as [|c t IH]; simpl; [done|].
    destruct (Ascii.eqb_spec c sep) as [->|Hne].
    - rewrite Join_cons by apply Split_nonempty. simpl. by rewrite IH.
    - pose proof (Split_nonempty t sep) as Hn.
      destruct (Split t sep) as [|p ps]; [done|].
      destruct ps as [|q qs]; simpl in *; by rewrite <- IH.
Qed.

Lemma Split_noSep p : noSep p = true -> Split p PathSeparator = [p].
Proof.
    induction p as [|c t IH]; simpl; [done|].
    intros [Hc Ht]%andb_true_iff. apply negb_true_iff in Hc. rewrite Hc.
    by rewrite (IH Ht).
Qed.

Lemma Split_app_sep p rest :
    noSep p = true ->
    Split (p ++ String PathSeparator rest) PathSeparator
    = p :: Split rest PathSeparator.
Proof.
    induction p as [|c t IH]; simpl.
    - intros _. reflexivity.
    - intros [Hc Ht]%andb_true_iff. apply negb_true_iff in Hc. rewrite Hc.
      by rewrite (IH Ht).
Qed.

Lemma Split_Join ps :
    ps <> [] -> Forall (fun p => noSep p = true) ps ->
    Split (Join ps sepStr) PathSeparator = ps.
Proof.
    induction ps as [|p ps IH]; [done|]. intros _ Hall.
    inversion Hall as [|? ? Hp Hps]; subst.
    destruct ps as [|q qs].
    - simpl. by apply Split_noSep.
    - rewrite Join_cons by done.
      change (p ++ sepStr ++ Join (q :: qs) sepStr)
        with (p ++ String PathSeparator (Join (q :: qs) sepStr)).
      rewrite Split_app_sep by done. f_equal. by apply IH.
Qed.

Lemma allBytes_Join P ps :
    P PathSeparator = true -> Forall (fun p => allBytes P p = true) ps ->
    allBytes P (Join ps sepStr) = true.
Proof.
    intros Hsep. induction ps as [|p ps IH]; [done|]. intros Hall.
    inversion Hall as [|? ? Hp Hps]; subst.
    destruct ps as [|q qs]; [done|].
    rewrite Join_cons by done. rewrite allBytes_app, Hp. simpl.
    rewrite Hsep. simpl. by apply IH.
Qed.

Lemma hasRepeat_app_sep c a sep b :
    sep <> c ->
    hasRepeat c (a ++ String sep b) = hasRepeat c a || hasRepeat c b.
Proof.
    intros Hne. apply Ascii.eqb_neq in Hne.
    induction a as [|x t IH].
    - change ("" ++ String sep b) with (String sep b).
      rewrite hasRepeat_cons, Hne. done.
    - change (String x t ++ String sep b) with (String x (t ++ String sep b)).
      rewrite !hasRepeat_cons, IH.
      destruct t as [|y t']; simpl startsWith.
      + rewrite Hne. by rewrite andb_false_r.
      + by rewrite orb_assoc.
Qed.

Lemma hasRepeat_Join ps :
    Forall (fun p => hasRepeat "_" p = false) ps ->
    hasRepeat "_" (Join ps sepStr) = false.
Proof.
    induction ps as [|p ps IH]; [done|]. intros Hall.
    inversion Hall as [|? ? Hp Hps]; subst.
    destruct ps as [|q qs]; [done|].
    rewrite Join_cons by done.
    change (p ++ sepStr ++ Join (q :: qs) sepStr)
      with (p ++ String PathSeparator (Join (q :: qs) sepStr)).
    rewrite hasRepeat_app_sep by done. rewrite Hp. by apply IH.
Qed.

(** The parts of a string inherit what holds of all its bytes. *)
Lemma Split_allBytes P s :
    allBytes P s = true ->
    Forall (fun p => allBytes P p = true) (Split s PathSeparator).
Proof.
    induction s as [|c t IH]; simpl.
    - intros _. by constructor.
    - intros [Hc Ht]%andb_true_iff. specialize (IH Ht).
      destruct (Ascii.eqb c PathSeparator); [by constructor|].
      destruct (Split t PathSeparator) as [|p ps].
      + constructor; [simpl; by rewrite Hc|done].
      + inversion IH; subst. constructor; [simpl; by rewrite Hc|done].
Qed.

Lemma Split_noSep_parts s :
    Forall (fun p => noSep p = true) (Split s PathSeparator).
Proof.
    induction s as [|c t IH]; simpl; [by constructor|].
    destruct (Ascii.eqb c PathSeparator) eqn:E; [by constructor|].
    destruct (Split t PathSeparator) as [|p ps].
    - constructor; [|done]. unfold noSep. simpl. by rewrite E.
    - inversion IH; subst. constructor; [|done]. unfold noSep in *. simpl.
      by rewrite E.
Qed.

Lemma Split_hasRepeat s :
    hasRepeat "_" s = false ->
    Forall (fun p => hasRepeat "_" p = false) (Split s PathSeparator).
Proof.
    intros H. rewrite <- (Join_Split s PathSeparator) in H.
    pose proof (Split_nonempty s PathSeparator) as Hn.
    induction (Split s PathSeparator) as [|p ps IH]; [done|].
    destruct ps as [|q qs]; [by repeat constructor|].
    rewrite Join_cons in H by done.
    change (p ++ String PathSeparator "" ++ Join (q :: qs) (String PathSeparator ""))
      with (p ++ String PathSeparator (Join (q :: qs) sepStr)) in H.
    rewrite hasRepeat_app_sep in H by done.
    apply orb_false_iff in H as [Hp Hrest].
    constructor; [done|]. by apply IH.
Qed.

Lemma keptByte_noSep p : allBytes keptByte p = true -> noSep p = true.
Proof.
    apply allBytes_impl. intros c Hc.
    destruct (Ascii.eqb_spec c PathSeparator) as [->|]; [by vm_compute in Hc|done].
Qed.

Lemma sanitized_parts_stable ps :
    Forall (fun p => allBytes keptByte p = true) ps ->
    Forall (fun p => hasRepeat "_" p = false) ps ->
    map sanitizePart ps = ps.
Proof.
    induction ps as [|p ps IH]; [done|].
    intros Hk Hr. inversion Hk; inversion Hr; subst. simpl.
    rewrite sanitizePart_id by done. f_equal. by apply IH.
Qed.

Lemma keptOrSep_parts s :
    allBytes keptOrSep s = true ->
    Forall (fun p => allBytes keptByte p = true) (Split s PathSeparator).
Proof.
    intros H.
    pose proof (Split_allBytes _ _ H) as H1.
    pose proof (Split_noSep_parts s) as H2.
    induction H1 as [|p ps Hp _ IH]; [done|].
    inversion H2 as [|? ? Hq Hqs]; subst. constructor; [|by apply IH].
    clear -Hp Hq. induction p as [|c t IHt]; [done|].
    simpl in *. apply andb_true_iff in Hp as [Hc Ht].
    unfold noSep in Hq. simpl in Hq. apply andb_true_iff in Hq as [Hn Hq'].
    unfold keptOrSep in Hc. apply negb_true_iff in Hn. rewrite Hn in Hc.
    rewrite orb_false_r in Hc. rewrite Hc. simpl. by apply IHt.
Qed.
End GitFacts.

Module GitClaims.
Import Strings Git GitProps GitFacts.

Lemma Forall_map_all {A B} (P : B -> Prop) (f : A -> B) l :
    (forall a, P (f a)) -> Forall P (map f l).
Proof. intros H. induction l; simpl; constructor; auto. Qed.

Lemma sanitizePath_parts path :
    Split (sanitizePath path) PathSeparator
    = map sanitizePart (Split path PathSeparator).
Proof.
    unfold sanitizePath. apply Split_Join.
    - pose proof (Split_nonempty path PathSeparator).
      by destruct (Split path PathSeparator).
    - apply Forall_map_all. intros q.
      apply keptByte_noSep, sanitizePart_kept.
Qed.

Lemma sanitizePath_keptOrSep path :
    allBytes keptOrSep (sanitizePath path) = true.
Proof.
    apply allBytes_Join; [done|].
    apply Forall_map_all. intros q.
    apply allBytes_impl with (P := keptByte); [|apply sanitizePart_kept].
    intros c Hc. unfold keptOrSep. by rewrite Hc.
Qed.

Lemma sanitizePath_noRepeat path :
    hasRepeat "_" (sanitizePath path) = false.
Proof.
    apply hasRepeat_Join.
    apply Forall_map_all. intros q.
    apply sanitizePart_noRepeat.
Qed.

Lemma sanitizePath_fixed path :
    allBytes keptOrSep path = true -> hasRepeat "_" path = false ->
    sanitizePath path = path.
Proof.
    intros Hk Hr. unfold sanitizePath.
    rewrite sanitized_parts_stable.
    - apply Join_Split.
    - by apply keptOrSep_parts.
    - by apply Split_hasRepeat.
Qed.

(** C5, the claim as stated fails: the output for "release/v17.8!" keeps
    the path separator, a byte outside [0-9A-Za-z_.-]. *)
Lemma C5_sanitizePath_separator_outside_set :
    sanitizePath "release/v17.8!" = "release/v17.8_"
    /\ allBytes inDocSet (sanitizePath "release/v17.8!") = false.
Proof. split; vm_compute; reflexivity. Qed.

(** C5, amended: for every input the output of sanitizePath contains only
    bytes of [0-9A-Za-z_.-] and the path separator, with no two
    consecutive underscores; an input made of alphanumerics, underscores
    that are not repeated, dots and path separators is returned as it is;
    and sanitizePath("release/v17.8!") is "release/v17.8_". *)
Theorem C5_sanitizePath_charset path :
    allBytes inDocSetOrSep (sanitizePath path) = true
    /\ hasRepeat "_" (sanitizePath path) = false
    /\ (allBytes keptOrSep path = true -> hasRepeat "_" path = false ->
        sanitizePath path = path)
    /\ sanitizePath "release/v17.8!" = "release/v17.8_".
Proof.
    split; [|split; [|split]].
    - apply allBytes_impl with (P := keptOrSep); [|apply sanitizePath_keptOrSep].
      intros c. unfold keptOrSep, inDocSetOrSep, inDocSet.
      intros [->| ->]%orb_true_iff; [done|by rewrite orb_true_r].
    - apply sanitizePath_noRepeat.
    - apply sanitizePath_fixed.
    - by vm_compute.
Qed.

Lemma C5_sanitizePath_charset_witness :
    allBytes keptOrSep "charts/v1.2_rc" = true
    /\ hasRepeat "_" "charts/v1.2_rc" = false
    /\ sanitizePath "charts/v1.2_rc" = "charts/v1.2_rc".
Proof.
    split; [by vm_compute|split; [by vm_compute|]].
    apply (C5_sanitizePath_charset "charts/v1.2_rc"); by vm_compute.
Defined.

(** C6: sanitizePath is idempotent:
    sanitizePath (sanitizePath x) = sanitizePath x for every string x. *)
Theorem C6_sanitizePath_idempotent x :
    sanitizePath (sanitizePath x) = sanitizePath x.
Proof.
    apply sanitizePath_fixed.
    - apply sanitizePath_keptOrSep.
    - apply sanitizePath_noRepeat.
Qed.
End GitClaims.

(** * More on sanitizePath *)

Module GitMore.
Import Strings Git GitProps GitFacts GitClaims.

Lemma Split_app_any a b sep :
    Split (a ++ String sep b) sep = (Split a sep ++ Split b sep)%list.
Proof.
    induction a as [|c t IH]; simpl.
    - by rewrite Ascii.eqb_refl.
    - rewrite IH. destruct (Ascii.eqb c sep); [done|].
      pose proof (Split_nonempty t sep) as Hn.
      by destruct (Split t sep).
Qed.

Lemma append_assoc_string a b c : (a ++ b) ++ c = a ++ (b ++ c).
Proof.
    induction a as [|x a IH]; [done|].
    change (String x ((a ++ b) ++ c) = String x (a ++ (b ++ c))). by f_equal.
Qed.

Lemma Join_app l1 l2 sep :
    l1 <> [] -> l2 <> [] ->
    Join (l1 ++ l2)%list sep = Join l1 sep ++ sep ++ Join l2 sep.
Proof.
    intros H1 H2. induction l1 as [|p l1 IH]; [done|].
    destruct l1 as [|q l1].
    - simpl app. by rewrite Join_cons.
    - change ((p :: q :: l1) ++ l2)%list with (p :: ((q :: l1) ++ l2))%list.
      rewrite Join_cons by done. rewrite IH by done.
      rewrite (Join_cons p (q :: l1)) by done.
      by rewrite !append_assoc_string.
Qed.

Lemma map_nonempty {A B} (f : A -> B) l : l <> [] -> map f l <> [].
Proof. by destruct l. Qed.

Lemma length_app_string a b :
    String.length (a ++ b) = String.length a + String.length b.
Proof.
    induction a as [|c a IH]; [done|].
    change (S (String.length (a ++ b)) = S (String.length a) + String.length b).
    by rewrite IH.
Qed.

Lemma length_MapLoop_allowRune fuel s :
    String.length (MapLoop fuel allowRune s) <= String.length s.
Proof.
    revert s. induction fuel as [|fuel IH]; intros s; cbn [MapLoop];
      [simpl; lia|].
    destruct s as [|c t]; [done|].
    destruct (Utf8.DecodeRuneInString (String c t)) as [r w].
    destruct (allowRune_encode r) as (c' & -> & _ & ->).
    specialize (IH (drop (w - 1) t)). pose proof (length_drop (w - 1) t).
    cbv iota. rewrite length_app_string. cbn [String.length]. lia.
Qed.

Lemma length_squeezeFrom b c s :
    String.length (squeezeFrom b c s) <= String.length s.
Proof.
    revert b. induction s as [|x t IH]; intros b; [done|].
    cbn [squeezeFrom]. pose proof (IH true). pose proof (IH false).
    destruct (Ascii.eqb x c); [destruct b|]; cbn [String.length]; lia.
Qed.

Lemma length_sanitizePart p :
    String.length (sanitizePart p) <= String.length p.
Proof.
    unfold sanitizePart, ReplaceAllRuns, Map.
    pose proof (length_squeezeFrom false "_" (MapLoop (String.length p) allowRune p)).
    pose proof (length_MapLoop_allowRune (String.length p) p). lia.
Qed.

Lemma length_Join ps :
    ps <> [] ->
    String.length (Join ps sepStr) = totalLength ps + (List.length ps - 1).
Proof.
    induction ps as [|p ps IH]; [done|]. intros _.
    destruct ps as [|q qs]; [cbn; lia|].
    rewrite Join_cons by done. rewrite !length_app_string, IH by done.
    cbn [totalLength fold_right List.length sepStr String.length]. lia.
Qed.

Lemma totalLength_map_sanitizePart ps :
    totalLength (map sanitizePart ps) <= totalLength ps.
Proof.
    induction ps as [|p ps IH]; simpl; [done|].
    pose proof (length_sanitizePart p). lia.
Qed.

(** X1: The output has no byte outside [0-9A-Za-z_.] and the path separator:
    in particular no hyphen, whatever the input. *)
Theorem sanitizePath_output_bytes path :
    allBytes keptOrSep (sanitizePath path) = true
    /\ allBytes notHyphen (sanitizePath path) = true.
Proof.
    split; [apply sanitizePath_keptOrSep|].
    apply allBytes_impl with (P := keptOrSep); [|apply sanitizePath_keptOrSep].
    intros c Hc. unfold notHyphen.
    destruct (Ascii.eqb_spec c "-") as [->|]; [by vm_compute in Hc|done].
Qed.

(** X2: Each directory name is sanitized on its own: the names of the output
    are the sanitized names of the input, as many and in the same order. *)
Theorem sanitizePath_by_parts path :
    Split (sanitizePath path) PathSeparator
    = map sanitizePart (Split path PathSeparator).
Proof. apply sanitizePath_parts. Qed.

(** X3: sanitizePath goes through a path separator: sanitizing [a/b] is
    sanitizing [a] and [b]. *)
Theorem sanitizePath_separator a b :
    sanitizePath (a ++ String PathSeparator b)
    = sanitizePath a ++ String PathSeparator (sanitizePath b).
Proof.
    unfold sanitizePath. rewrite Split_app_any, map_app.
    rewrite Join_app by (apply map_nonempty, Split_nonempty). done.
Qed.

(** X4: The output is never longer than the input. *)
Theorem sanitizePath_length path :
    String.length (sanitizePath path) <= String.length path.
Proof.
    pose proof (Split_nonempty path PathSeparator) as Hn.
    change (sanitizePath path)
      with (Join (map sanitizePart (Split path PathSeparator)) sepStr).
    rewrite length_Join by by apply map_nonempty.
    rewrite length_map.
    pose proof (Join_Split path PathSeparator) as Hback.
    change (String PathSeparator "") with sepStr in Hback.
    assert (String.length path
            = String.length (Join (Split path PathSeparator) sepStr)) as ->
      by by rewrite Hback.
    rewrite length_Join by done.
    pose proof (totalLength_map_sanitizePart (Split path PathSeparator)). lia.
Qed.
End GitMore.

Local Open Scope list_scope.

(** * The upgrade command *)

Module CmdFacts.
Import Config Cmd CmdProps OperatorIface.

Section Facts.
Context {O Sys : Type}.
Context {opI : OperatorInterface O Sys} {runI : Exec.Runner Sys}.

Local Abbreviation St := (State Sys).

Lemma callUpgradeOperator_eq (op : O) v (st : St) :
      callUpgradeOperator op v st
      = match UpgradeOperator op v (sys st) with
        | (Val err, s') => (Val err, mkState s' (events st ++ [Upgraded v err]))
        | (Panic msg, s') => (Panic msg, mkState s' (events st))
        end.
Proof.
      unfold callUpgradeOperator, bind, inSys, emit, ret.
      by destruct (UpgradeOperator op v (sys st)) as [[err|msg] s'].
Qed.

Lemma execCommand_eq workDir command (st : St) :
      execCommand workDir command st
      = let '(r, s') := Exec.RunCommand (bashCommand workDir command) (sys st) in
        (Val (wrapExec r),
         mkState s' (events st
                     ++ [Log InfoLevel "executing upgrade test" [("command", command)];
                         Ran (bashCommand workDir command) r])).
Proof.
      unfold execCommand, callRunCommand, bind, inSys, emit, ret, logInfo, emit.
      cbn [sys events]. fold (bashCommand workDir command).
      destruct (Exec.RunCommand (bashCommand workDir command) (sys st)) as [r s'].
      cbn [sys events]. rewrite <- app_assoc. cbn [app].
      unfold wrapExec. by destruct (Exec.Err r).
Qed.

Lemma commandsRun_app a b : commandsRun (a ++ b) = commandsRun a ++ commandsRun b.
Proof. apply omap_app. Qed.

Lemma pathsEntered_app a b :
      pathsEntered (a ++ b) = pathsEntered a ++ pathsEntered b.
Proof. apply omap_app. Qed.

(** What [processVersions] adds to the events: the test commands of the
    versions it got to, each resolved at its index, and no new path. *)
Lemma processVersions_events (uc : UpgradeCommand O) versions :
      forall index (st : St) out st',
        processVersions uc index versions st = (out, st') ->
        exists new,
          events st' = events st ++ new
          /\ pathsEntered new = []
          /\ (out = Val None -> length (commandsRun new) = length versions)
          /\ forall i cmd, commandsRun new !! i = Some cmd ->
               exists v, versions !! i = Some v
                         /\ cmd = resolvedCommand (index + i) v.
Proof.
      induction versions as [|version rest IH]; intros index st out st' Hrun.
      - inversion Hrun; subst. exists []. rewrite app_nil_r.
        repeat split; try done.
      - cbn [processVersions] in Hrun. unfold bind at 1 in Hrun.
        unfold logInfo at 1, emit at 1 in Hrun.
        destruct (operator uc) as [op|].
        2:{ inversion Hrun; subst. eexists. split; [reflexivity|].
            repeat split; try done. }
        unfold bind at 1 in Hrun. rewrite callUpgradeOperator_eq in Hrun.
        cbn [sys events] in Hrun.
        destruct (UpgradeOperator op version (sys st)) as [[[e|]|msg] s2].
        { inversion Hrun; subst. eexists. split; [cbn; by rewrite <- app_assoc|].
          repeat split; try done. }
        2:{ inversion Hrun; subst. eexists. split; [reflexivity|].
            repeat split; try done. }
        destruct (config uc) as [cfg|].
        2:{ inversion Hrun; subst. eexists. split; [cbn; by rewrite <- app_assoc|].
            repeat split; try done. }
        unfold bind at 1 in Hrun. rewrite execCommand_eq in Hrun.
        match type of Hrun with
        | context [Exec.RunCommand ?c ?s] =>
          destruct (Exec.RunCommand c s) as [r s3] eqn:Erun
        end.
        cbn [sys events] in Hrun.
        assert ((if negb (Version.TestCommand version =? "")
                 then Version.TestCommand version
                 else if (index =? 0)%nat then "REPO=allure make prepare"
                      else "REPO=allure make upgrade")
                = resolvedCommand index version) as Hres.
        { unfold resolvedCommand, prepareCommand, upgradeCommand.
          destruct (Version.TestCommand version =? ""); [|done].
          by destruct index. }
        rewrite Hres in Hrun.
        destruct (wrapExec r) as [e|].
        { inversion Hrun; subst. eexists.
          split; [cbn; rewrite <- !app_assoc; reflexivity|].
          split; [done|]. split; [done|].
          intros i cmd Hi. cbn in Hi. destruct i as [|i]; [|done].
          inversion Hi; subst. exists version. rewrite Nat.add_0_r. by split. }
        unfold bind at 1 in Hrun. unfold logInfo at 1, emit at 1 in Hrun.
        cbn [sys events] in Hrun.
        apply IH in Hrun as (new & Hev & Hpaths & Hlen & Hcmds).
        cbn [events] in Hev.
        eexists. split; [rewrite Hev, <- !app_assoc; reflexivity|].
        split; [|split].
        + rewrite !pathsEntered_app, Hpaths. done.
        + intros Hout. cbn. rewrite <- (Hlen Hout). done.
        + intros i cmd Hi. cbn in Hi. destruct i as [|i].
          * inversion Hi; subst. exists version. rewrite Nat.add_0_r. by split.
          * cbn in Hi. destruct (Hcmds _ _ Hi) as (v & Hv & ->).
            exists v. split; [done|]. f_equal. lia.
Qed.

Lemma process_events (uc : UpgradeCommand O) path (st : St) out st' :
      process uc path st = (out, st') ->
      exists new,
        events st' = events st ++ new
        /\ pathsEntered new = [UpgradePath.Name path]
        /\ (out = Val None ->
            length (commandsRun new) = length (UpgradePath.Versions path))
        /\ forall i cmd, commandsRun new !! i = Some cmd ->
             exists v, UpgradePath.Versions path !! i = Some v
                       /\ cmd = resolvedCommand i v.
Proof.
      unfold process. unfold bind at 1. unfold logInfo at 1, emit at 1.
      unfold bind at 1.
      destruct (processVersions uc 0 (UpgradePath.Versions path) _)
        as [[[e|]|msg] st1] eqn:Hpv; intros Hrun;
        apply processVersions_events in Hpv as (new & Hev & Hpaths & Hlen & Hcmds);
        cbn [events] in Hev.
      - inversion Hrun; subst. eexists.
        split; [rewrite Hev, <- app_assoc; reflexivity|].
        split; [by rewrite pathsEntered_app, Hpaths|]. split; [done|].
        intros i cmd Hi. cbn in Hi. by apply Hcmds.
      - unfold bind, logInfo, emit, ret in Hrun. inversion Hrun; subst.
        cbn [events]. eexists.
        split; [rewrite Hev, <- !app_assoc; reflexivity|].
        split; [by rewrite !pathsEntered_app, Hpaths|].
        split.
        + intros _. rewrite !commandsRun_app. cbn.
          rewrite app_nil_r. by apply Hlen.
        + intros i cmd Hi. rewrite !commandsRun_app in Hi. cbn in Hi.
          rewrite app_nil_r in Hi. by apply Hcmds.
      - inversion Hrun; subst. eexists.
        split; [rewrite Hev, <- app_assoc; reflexivity|].
        split; [by rewrite pathsEntered_app, Hpaths|]. split; [done|].
        intros i cmd Hi. cbn in Hi. by apply Hcmds.
Qed.

Lemma ExecutePaths_cons_ok uc cfg p post (st st1 : St) :
      process uc p st = (Val None, st1) ->
      ExecutePaths uc cfg (p :: post) st = ExecutePaths uc cfg post st1.
Proof. intros H. cbn [ExecutePaths]. unfold bind at 1. by rewrite H. Qed.

Lemma ExecutePaths_cons_abort uc cfg p post (st st1 : St) e :
      Immediate cfg = true ->
      process uc p st = (Val (Some e), st1) ->
      ExecutePaths uc cfg (p :: post) st = (Val (Some (failureError p e)), st1).
Proof.
      intros Himm H. cbn [ExecutePaths]. unfold bind at 1. by rewrite H, Himm.
Qed.

Lemma ExecutePaths_cons_continue uc cfg p post (st st1 : St) e :
      Immediate cfg = false ->
      process uc p st = (Val (Some e), st1) ->
      ExecutePaths uc cfg (p :: post) st
      = ExecutePaths uc cfg post
          (mkState (sys st1) (events st1 ++ [failureLine p e])).
Proof.
      intros Himm H. cbn [ExecutePaths]. unfold bind at 1. by rewrite H, Himm.
Qed.

(** Going through [pre] without an error returned leads to the rest. *)
Lemma ExecutePaths_app uc cfg pre rest :
      forall (st0 st1 : St),
        ExecutePaths uc cfg pre st0 = (Val None, st1) ->
        ExecutePaths uc cfg (pre ++ rest) st0 = ExecutePaths uc cfg rest st1.
Proof.
      induction pre as [|q pre IH]; intros st0 st1 Hpre.
      - by inversion Hpre.
      - cbn [ExecutePaths app] in *. unfold bind at 1 in Hpre. unfold bind at 1.
        destruct (process uc q st0) as [[[e|]|msg] st] eqn:Hq; [| |done].
        + destruct (negb (Immediate cfg)); [|done].
          unfold bind at 1 in Hpre. unfold bind at 1.
          unfold logError, emit in *. by apply IH.
        + by apply IH.
Qed.

Lemma ExecutePaths_entered uc cfg paths :
      forall (st st' : St),
        ExecutePaths uc cfg paths st = (Val None, st') ->
        pathsEntered (events st')
        = pathsEntered (events st) ++ map UpgradePath.Name paths.
Proof.
      induction paths as [|q paths IH]; intros st st' Hrun.
      - inversion Hrun; subst. by rewrite app_nil_r.
      - cbn [ExecutePaths] in Hrun. unfold bind at 1 in Hrun.
        destruct (process uc q st) as [[[e|]|msg] st1] eqn:Hq; [| |done];
          apply process_events in Hq as (new & Hev & Hpaths & _).
        + destruct (negb (Immediate cfg)); [|done].
          unfold bind at 1, logError, emit in Hrun.
          apply IH in Hrun. rewrite Hrun. cbn [events map].
          rewrite Hev, !pathsEntered_app, Hpaths. cbn.
          by rewrite app_nil_r, <- app_assoc.
        + apply IH in Hrun. rewrite Hrun. cbn [map].
          by rewrite Hev, pathsEntered_app, Hpaths, <- app_assoc.
Qed.

(** In continue mode the loop never returns an error. *)
Lemma ExecutePaths_continue_nil uc cfg paths :
      Immediate cfg = false ->
      forall (st : St) out st',
        ExecutePaths uc cfg paths st = (out, st') ->
        out = Val None \/ exists msg, out = Panic msg.
Proof.
      intros Himm. induction paths as [|q paths IH]; intros st out st' Hrun.
      - inversion Hrun. by left.
      - cbn [ExecutePaths] in Hrun. unfold bind at 1 in Hrun.
        destruct (process uc q st) as [[[e|]|msg] st1] eqn:Hq.
        + rewrite Himm in Hrun. cbn [negb] in Hrun.
          unfold bind at 1, logError, emit in Hrun. by eapply IH.
        + by eapply IH.
        + inversion Hrun. right. by exists msg.
Qed.
End Facts.

Section Setup.
Context {O Sys : Type}.
Context {opI : OperatorInterface O Sys} {runI : Exec.Runner Sys}.
Context {colI : Collaborators O Sys}.


Lemma inSys_eq {A} (m : M Sys A) (st : State Sys) :
      inSys m st = (fst (m (sys st)), mkState (snd (m (sys st))) (events st)).
Proof. unfold inSys. by destruct (m (sys st)). Qed.

(** [Execute] ends in a step of its set-up, with no path entered, or
    it comes to its loop with the configuration it loaded. *)
Lemma Execute_outcome (uc : UpgradeCommand O) (st : State Sys) :
      (exists prefix e0,
          fst (Execute uc st) = Val (Some (Errorf prefix e0))
          /\ In prefix setupPrefixes
          /\ pathsEntered (events (snd (Execute uc st))) = pathsEntered (events st))
      \/ (exists msg,
          fst (Execute uc st) = Panic msg
          /\ pathsEntered (events (snd (Execute uc st))) = pathsEntered (events st))
      \/ (exists cfg uc' st1,
          loadedConfig uc st = Some cfg
          /\ pathsEntered (events st1) = pathsEntered (events st)
          /\ Execute uc st = ExecutePaths uc' cfg (UpgradePaths cfg) st1).
Proof.
      unfold loadedConfig.
      destruct (Execute uc st) as [out st'] eqn:Hrun. cbn [fst snd].
      unfold Execute in Hrun.
      unfold bind at 1 in Hrun. rewrite inSys_eq in Hrun.
      destruct (getKubeconfig uc (sys st)) as [[kube|msg] s1]; cbn [fst snd] in Hrun.
      2:{ inversion Hrun; subst. right. left. by exists msg. }
      unfold bind at 1 in Hrun. rewrite inSys_eq in Hrun. cbn [sys events] in Hrun.
      destruct (LoadConfig (configFile uc) s1) as [[[cfg0|e0]|msg] s2];
        cbn [fst snd] in Hrun.
      2:{ inversion Hrun; subst. left. eexists _, e0.
          split; [reflexivity|]. split; [by left|done]. }
      2:{ inversion Hrun; subst. right. left. by exists msg. }
      set (cfg := if negb (workspace uc =? "")%string
                  then withWorkspace cfg0 (workspace uc) else cfg0) in *.
      unfold bind at 1 in Hrun. rewrite inSys_eq in Hrun. cbn [sys events] in Hrun.
      destruct (newLogger (LogLevel cfg) s2) as [[[e0|]|msg] s3];
        cbn [fst snd] in Hrun.
      { inversion Hrun; subst. left. eexists _, e0.
        split; [reflexivity|]. split; [right; by left|done]. }
      2:{ inversion Hrun; subst. right. left. by exists msg. }
      unfold bind at 1 in Hrun. rewrite inSys_eq in Hrun. cbn [sys events] in Hrun.
      destruct (loadKubeConfig kube s3) as [[[e0|]|msg] s4];
        cbn [fst snd] in Hrun.
      { inversion Hrun; subst. left. eexists _, e0.
        split; [reflexivity|]. split; [right; right; by left|done]. }
      2:{ inversion Hrun; subst. right. left. by exists msg. }
      unfold bind at 1, logInfo at 1, emit at 1 in Hrun. cbn [sys events] in Hrun.
      unfold bind at 1 in Hrun. rewrite inSys_eq in Hrun. cbn [sys events] in Hrun.
      destruct (CreateOperator _ _ s4) as [[[op|e0]|msg] s5];
        cbn [fst snd] in Hrun.
      2:{ inversion Hrun; subst. left. eexists _, e0.
          split; [reflexivity|]. split; [right; right; right; by left|].
          cbn [events]. rewrite pathsEntered_app. cbn. by rewrite app_nil_r. }
      2:{ inversion Hrun; subst. right. left. exists msg. split; [done|].
          cbn [events]. rewrite pathsEntered_app. cbn. by rewrite app_nil_r. }
      right. right. eexists cfg, _, _. split; [done|]. split; [|symmetry; exact Hrun].
      cbn [events]. rewrite pathsEntered_app. cbn. by rewrite app_nil_r.
Qed.
End Setup.
End CmdFacts.

Module CmdClaims.
Import Config Cmd CmdProps OperatorIface CmdFacts.

Section Claims.
Context {O Sys : Type}.
Context {opI : OperatorInterface O Sys} {runI : Exec.Runner Sys}.

(** C3: when processing a path returns an error and Immediate is true,
    the run stops there with that error wrapped and no later path is
    processed (the state is the one the failed path left, and the paths
    entered are those up to it); when Immediate is false the failure is
    logged and the loop goes on with the next path. *)
Theorem C3_failure_policy (uc : UpgradeCommand O) cfg pre p post
        (st0 st1 st2 : State Sys) e :
      ExecutePaths uc cfg pre st0 = (Val None, st1) ->
      process uc p st1 = (Val (Some e), st2) ->
      (Immediate cfg = true ->
         ExecutePaths uc cfg (pre ++ p :: post) st0
         = (Val (Some (failureError p e)), st2)
         /\ pathsEntered (events st2)
            = pathsEntered (events st0) ++ map UpgradePath.Name (pre ++ [p]))
      /\ (Immediate cfg = false ->
         ExecutePaths uc cfg (pre ++ p :: post) st0
         = ExecutePaths uc cfg post
             (mkState (sys st2) (events st2 ++ [failureLine p e]))).
Proof.
      intros Hpre Hp. split; intros Himm.
      - split.
        + rewrite (ExecutePaths_app _ _ _ _ _ _ Hpre).
          by apply ExecutePaths_cons_abort.
        + apply ExecutePaths_entered in Hpre.
          apply process_events in Hp as (new & Hev & Hpaths & _).
          rewrite Hev, pathsEntered_app, Hpaths, Hpre, map_app.
          by rewrite <- app_assoc.
      - rewrite (ExecutePaths_app _ _ _ _ _ _ Hpre).
        by apply ExecutePaths_cons_continue.
Qed.

Context {colI : Collaborators O Sys}.

(** C4, amended: when Immediate is false, a failed upgrade path is
    logged and skipped: the loop that ends Execute writes the failure
    line and goes on with the paths after it.  The loop returns nil
    whatever paths failed, the last one included (or the run panics),
    and Execute reports no error for a failed path: it returns nil with
    every path of the loaded configuration entered, in order, or it
    panics, or it returns the error of a set-up step with no path
    entered. *)
Theorem C4_continue_mode_returns_nil (cfg : Config.t) :
      Immediate cfg = false ->
      (forall (uc : UpgradeCommand O) pre p post (st0 st1 st2 : State Sys) e,
          ExecutePaths uc cfg pre st0 = (Val None, st1) ->
          process uc p st1 = (Val (Some e), st2) ->
          ExecutePaths uc cfg (pre ++ p :: post) st0
          = ExecutePaths uc cfg post
              (mkState (sys st2) (events st2 ++ [failureLine p e])))
      /\ (forall (uc : UpgradeCommand O) paths (st : State Sys),
             fst (ExecutePaths uc cfg paths st) = Val None
             \/ exists msg, fst (ExecutePaths uc cfg paths st) = Panic msg)
      /\ (forall (uc : UpgradeCommand O) (st : State Sys),
             loadedConfig uc st = Some cfg ->
             (fst (Execute uc st) = Val None
              /\ pathsEntered (events (snd (Execute uc st)))
                 = pathsEntered (events st)
                   ++ map UpgradePath.Name (UpgradePaths cfg))
             \/ (exists msg, fst (Execute uc st) = Panic msg)
             \/ (exists prefix e0,
                   fst (Execute uc st) = Val (Some (Errorf prefix e0))
                   /\ In prefix setupPrefixes
                   /\ pathsEntered (events (snd (Execute uc st)))
                      = pathsEntered (events st))).
Proof.
      intros Himm. split; [|split].
      - intros uc pre p post st0 st1 st2 e Hpre Hp.
        rewrite (ExecutePaths_app _ _ _ _ _ _ Hpre).
        by apply ExecutePaths_cons_continue.
      - intros uc paths st.
        destruct (ExecutePaths uc cfg paths st) as [out st'] eqn:Hrun.
        by apply (ExecutePaths_continue_nil _ _ _ Himm) in Hrun.
      - intros uc st Hloaded.
        destruct (Execute_outcome uc st)
          as [Hsetup|[(msg & Hpanic & _)|(cfg' & uc' & st1 & Hl & Hent & Heq)]].
        + by right; right.
        + right. left. by exists msg.
        + rewrite Hloaded in Hl. injection Hl as <-. rewrite Heq.
          destruct (ExecutePaths uc' cfg (UpgradePaths cfg) st1)
            as [out st'] eqn:Hrun. cbn [fst snd].
          destruct (ExecutePaths_continue_nil _ _ _ Himm _ _ _ Hrun)
            as [->|(msg & ->)].
          * left. split; [done|].
            apply ExecutePaths_entered in Hrun. by rewrite Hrun, Hent.
          * right. left. by exists msg.
Qed.

(** C7: the test command run for the version at index i of a path is the
    version's TestCommand when that is not empty; otherwise the
    "prepare" command at index 0 and the "upgrade" command at every
    index above 0.  The commands run are those of the versions in
    order, all of them when the path succeeds. *)
Theorem C7_test_command_resolution (uc : UpgradeCommand O) path
        (st : State Sys) :
      exists ran,
        commandsRun (events (snd (process uc path st)))
        = commandsRun (events st) ++ ran
        /\ (fst (process uc path st) = Val None ->
            length ran = length (UpgradePath.Versions path))
        /\ forall i cmd, ran !! i = Some cmd ->
             exists v, UpgradePath.Versions path !! i = Some v
               /\ (Version.TestCommand v <> "" -> cmd = Version.TestCommand v)
               /\ (Version.TestCommand v = "" -> i = 0 ->
                   cmd = "REPO=allure make prepare")
               /\ (Version.TestCommand v = "" -> 0 < i ->
                   cmd = "REPO=allure make upgrade").
Proof.
      destruct (process uc path st) as [out st'] eqn:Hrun.
      apply process_events in Hrun as (new & Hev & _ & Hlen & Hcmds).
      exists (commandsRun new). cbn [fst snd].
      split; [by rewrite Hev, commandsRun_app|]. split; [done|].
      intros i cmd Hi. destruct (Hcmds _ _ Hi) as (v & Hv & ->).
      exists v. split; [done|]. unfold resolvedCommand.
      destruct (String.eqb_spec (Version.TestCommand v) "") as [Heq|Hne].
      - split; [done|]. split.
        + by intros _ ->.
        + intros _ Hpos. destruct i; [lia|done].
      - split; [done|]. split; intros Hempty; done.
Qed.
End Claims.

Import CmdDemo.

Lemma C3_failure_policy_witness :
    demoExecutePaths (readyUC true) (demoConfig true) [pathA; pathB]
                     (start ["v2.0.0"] true)
    = (Val (Some (failureError pathB
         (Errorf "failed to prepare operator: "
                 (PlainError "bundle version never became present")))),
       snd (demoProcess (readyUC true) pathB
              (snd (demoProcess (readyUC true) pathA (start ["v2.0.0"] true))))).
Proof.
    pose proof (@C3_failure_policy unit Sys demoOperator demoRunner
                  (readyUC true) (demoConfig true) [pathA] pathB []
                  (start ["v2.0.0"] true)
                  (snd (demoProcess (readyUC true) pathA (start ["v2.0.0"] true)))
                  (snd (demoProcess (readyUC true) pathB
                     (snd (demoProcess (readyUC true) pathA
                        (start ["v2.0.0"] true)))))
                  (Errorf "failed to prepare operator: "
                     (PlainError "bundle version never became present"))
                  eq_refl eq_refl) as [Habort _].
    exact (proj1 (Habort eq_refl)).
Defined.

(** C4, the claim as stated fails: with Immediate false and the last
    path failing, Execute logs the failure and returns nil. *)
Lemma C4_last_path_fails_yet_nil :
    Immediate (loaded (sys (start ["v2.0.0"] false))) = false
    /\ fst (demoProcess (readyUC false) pathB (start ["v2.0.0"] false))
       = Val (Some (Errorf "failed to prepare operator: "
                      (PlainError "bundle version never became present")))
    /\ fst (demoExecute demoUC (start ["v2.0.0"] false)) = Val None
    /\ last (events (snd (demoExecute demoUC (start ["v2.0.0"] false))))
       = Some (failureLine pathB
                 (Errorf "failed to prepare operator: "
                    (PlainError "bundle version never became present"))).
Proof. repeat split; vm_compute; reflexivity. Qed.

Lemma C7_test_command_resolution_witness :
    exists ran,
      commandsRun (events (snd (demoProcess (readyUC false) pathB
                                  (start [] false))))
      = commandsRun (events (start [] false)) ++ ran
      /\ ran = ["REPO=allure make prepare"; "make smoke"].
Proof.
    destruct (@C7_test_command_resolution unit Sys demoOperator demoRunner
                (readyUC false) pathB (start [] false)) as (ran & Hran & _).
    exists ran. split; [exact Hran|].
    vm_compute in Hran. by inversion Hran.
Defined.

(** The last path fails: Execute returns nil and has entered both
    paths. *)
Lemma C4_continue_mode_returns_nil_witness :
    (fst (demoExecute demoUC (start ["v2.0.0"] false)) = Val None
     /\ pathsEntered (events (snd (demoExecute demoUC (start ["v2.0.0"] false))))
        = pathsEntered (events (start ["v2.0.0"] false))
          ++ map UpgradePath.Name (UpgradePaths (demoConfig false)))
    \/ (exists msg, fst (demoExecute demoUC (start ["v2.0.0"] false)) = Panic msg)
    \/ (exists prefix e0,
          fst (demoExecute demoUC (start ["v2.0.0"] false))
          = Val (Some (Errorf prefix e0))
          /\ In prefix setupPrefixes
          /\ pathsEntered (events (snd (demoExecute demoUC (start ["v2.0.0"] false))))
             = pathsEntered (events (start ["v2.0.0"] false))).
Proof.
    apply (proj2 (proj2 (@C4_continue_mode_returns_nil unit Sys demoOperator
                           demoRunner demoCollaborators (demoConfig false)
                           eq_refl))).
    reflexivity.
Defined.
End CmdClaims.

(** * The operator-hub reconciler *)

Module K8sFacts.
Import K8s Operatorhub K8sProps.

Lemma bind_eq {St A B} (m : M St A) (k : A -> M St B) st :
    bind m k st = match m st with
                  | (Val a, st1) => k a st1
                  | (Panic msg, st1) => (Panic msg, st1)
                  end.
Proof. reflexivity. Qed.

Section Logic.
Context {W : Type} {cl : Cluster W}.
Context (R : State W -> State W -> Prop) {preR : PreOrder R}.

Lemma Respects_ret {A} (a : A) : Respects R (ret a).
Proof. intros st out st' H. inversion H. reflexivity. Qed.

Lemma Respects_panic {A} msg : Respects R (@panic _ A msg).
Proof. intros st out st' H. inversion H. reflexivity. Qed.

Lemma Respects_bind {A B} (m : M (State W) A) (k : A -> M (State W) B) :
      Respects R m -> (forall a, Respects R (k a)) -> Respects R (bind m k).
Proof.
      intros Hm Hk st out st' H. rewrite bind_eq in H.
      destruct (m st) as [[a|msg] st1] eqn:E.
      - etransitivity; [eapply Hm, E|eapply Hk, H].
      - inversion H; subst. eapply Hm, E.
Qed.

Lemma Respects_pollLoop {V} ticks
        (condition : V -> M (State W) (V * bool * error)) :
      (forall v, Respects R (condition v)) ->
      forall vars, Respects R (pollLoop ticks condition vars).
Proof.
      intros Hc. induction ticks as [|ticks IH]; intros vars; cbn [pollLoop].
      - apply Respects_ret.
      - apply Respects_bind; [apply Hc|].
        intros [[v ok] [e|]]; [apply Respects_ret|].
        destruct ok; [apply Respects_ret|apply IH].
Qed.

Lemma Respects_Poll {V} interval timeout immediate
        (condition : V -> M (State W) (V * bool * error)) vars :
      Respects R (request (pollTicks interval timeout) (PollStart interval timeout)) ->
      (forall v, Respects R (condition v)) ->
      Respects R (PollUntilContextTimeout interval timeout immediate condition vars).
Proof.
      intros Ht Hc. unfold PollUntilContextTimeout.
      apply Respects_bind; [exact Ht|]. intros ticks.
      destruct immediate; [|by apply Respects_pollLoop].
      apply Respects_bind; [apply Hc|].
      intros [[v ok] [e|]]; [apply Respects_ret|].
      destruct ok; [apply Respects_ret|by apply Respects_pollLoop].
Qed.
End Logic.

(** Take a program apart down to its requests. *)
Ltac respects_step :=
    first
      [ apply Respects_ret
      | apply Respects_panic
      | solve [auto]
      | match goal with
        | |- Respects _ (PollUntilContextTimeout _ _ _ _ _) =>
          apply Respects_Poll; [..|intros ?]
        | |- Respects _ (pollLoop _ _ _) =>
          apply Respects_pollLoop; [..|intros ?]
        | |- Respects _ (bind _ _) => apply Respects_bind; [..|intros ?]
        end
      | match goal with
        | |- PreOrder _ => first [assumption | exact _]
        | |- Respects _ (match ?x with _ => _ end) => destruct x
        | |- Respects _ (if ?b then _ else _) => destruct b
        end ].

Ltac respects :=
    cbv zeta;
    try match goal with
        | H : QuietRequests _ |- _ =>
          let Hget := fresh "Hget" in
          let Hdel := fresh "Hdel" in
          let Hupd := fresh "Hupd" in
          let Hsleep := fresh "Hsleep" in
          let Hticks := fresh "Hticks" in
          pose proof H as (Hget & Hdel & Hupd & Hsleep & Hticks)
        end;
    repeat respects_step.

Section Programs.
Context {W : Type} {cl : Cluster W}.
Context (R : State W -> State W -> Prop) {preR : PreOrder R}.
Hypothesis quiet : QuietRequests R.

Lemma Respects_deleteResource o g n ns : Respects R (deleteResource o g n ns).
Proof. unfold deleteResource. respects. Qed.

Lemma Respects_waitInstallPlan o n ns : Respects R (waitInstallPlan o n ns).
Proof. unfold waitInstallPlan. respects. Qed.

Lemma Respects_waitCSVReady o n ns : Respects R (waitCSVReady o n ns).
Proof. unfold waitCSVReady. respects. Qed.

Lemma Respects_waitPackageManifest o csv : Respects R (waitPackageManifest o csv).
Proof. unfold waitPackageManifest. respects. Qed.

Lemma Respects_waitArtifactVersionPresent o n :
      Respects R (waitArtifactVersionPresent o n).
Proof. unfold waitArtifactVersionPresent. respects. Qed.

Lemma Respects_createAttempts attempts ns sub err :
      Respects R (clientCreate subscriptionGVR ns sub) ->
      Respects R (createAttempts attempts ns sub err).
Proof.
      intros Hsub. revert err.
      induction attempts as [|attempt rest IH]; intros err; cbn [createAttempts];
        respects.
Qed.

Lemma Respects_createSubscription o n ns csv channel :
      Respects R (clientCreate namespaceGVR "" (newNamespace ns)) ->
      Respects R (clientCreate subscriptionGVR ns (newSubscription n ns csv channel)) ->
      Respects R (createSubscription o n ns csv channel).
Proof.
      intros Hns Hsub. unfold createSubscription.
      respects; by apply Respects_createAttempts.
Qed.

Lemma Respects_createArtifactVersion o version artifact :
      (forall obj, Respects R (clientCreate artifactVersionGVR systemNamespace obj)) ->
      Respects R (createArtifactVersion o version artifact).
Proof. intros Hav. unfold createArtifactVersion, GetResource. respects. Qed.

Lemma Respects_InstallArtifactVersion o version :
      (forall obj, Respects R (clientCreate artifactVersionGVR systemNamespace obj)) ->
      Respects R (InstallArtifactVersion o version).
Proof.
      intros Hav. unfold InstallArtifactVersion, GetResource.
      pose proof Respects_createArtifactVersion.
      pose proof Respects_waitArtifactVersionPresent.
      pose proof Respects_waitPackageManifest.
      respects.
Qed.

Lemma Respects_InstallSubscription o csv channel :
      Respects R (clientCreate namespaceGVR "" (newNamespace (namespace o))) ->
      Respects R (clientCreate subscriptionGVR (namespace o)
                    (newSubscription (name o) (namespace o) csv channel)) ->
      Respects R (InstallSubscription o csv channel).
Proof.
      intros Hns Hsub. unfold InstallSubscription.
      pose proof Respects_deleteResource.
      pose proof Respects_createSubscription.
      pose proof Respects_waitInstallPlan.
      pose proof Respects_waitCSVReady.
      respects.
Qed.
End Programs.

(** *** The two relations *)

Section Relations.
Context {W : Type} {cl : Cluster W}.

Global Instance Added_preorder (P : Entry W -> Prop) : PreOrder (Added P).
Proof.
      split.
      - intros st. exists []. by rewrite app_nil_r.
      - intros a b c (n1 & H1 & F1) (n2 & H2 & F2). exists (n1 ++ n2).
        split; [by rewrite H2, H1, app_assoc|by apply Forall_app].
Qed.

Lemma Added_request {A} (P : Entry W -> Prop) (op : W -> A * W) (c : A -> Call) :
      (forall w a, P (mkEntry w (c a))) -> Respects (Added P) (request op c).
Proof.
      intros HP st out st' H. unfold request in H.
      destruct (op (world st)) as [a w']. inversion H; subst.
      eexists. split; [reflexivity|]. by repeat constructor.
Qed.

Lemma Added_quiet (P : Entry W -> Prop) :
      (forall w c, notCreate c -> P (mkEntry w c)) -> QuietRequests (Added P).
Proof.
      intros HP. repeat split; intros; apply Added_request; intros; by apply HP.
Qed.

Context {lv : Liveness W} {sd : SoleDriver W}.

Global Instance StaysAbsent_preorder (k : Key) : PreOrder (StaysAbsent k).
Proof.
      split.
      - by intros st H.
      - intros a b c Hab Hbc H. by apply Hbc, Hab.
Qed.

Lemma StaysAbsent_request {A} k (op : W -> A * W) (c : A -> Call) :
      (forall w, live w k = false -> live (snd (op w)) k = false) ->
      Respects (StaysAbsent k) (request op c).
Proof.
      intros Hop st out st' H Hlive. unfold request in H.
      specialize (Hop _ Hlive).
      destruct (op (world st)) as [a w']. by inversion H; subst.
Qed.

Lemma StaysAbsent_quiet k : QuietRequests (StaysAbsent k).
Proof.
      repeat split; intros; apply StaysAbsent_request; intros w Hw; cbn [snd].
      - by apply get_keeps.
      - by apply delete_keeps.
      - by apply update_keeps.
      - by apply sleep_keeps.
      - by apply ticks_keeps.
Qed.

Lemma StaysAbsent_create_other k g ns obj :
      k <> (g, ns, GetName obj) ->
      Respects (StaysAbsent k) (clientCreate g ns obj).
Proof.
      intros Hne. apply StaysAbsent_request. intros w Hw.
      by apply create_other_keeps.
Qed.
End Relations.

(** *** Deletion and creation, request by request *)

Section Deletion.
Context {W : Type} {cl : Cluster W} {lv : Liveness W} {sd : SoleDriver W}.

(** The condition of the poll of [deleteResource]. *)
Local Abbreviation gone g ns n :=
      (fun _ : unit =>
         bind (clientGet g ns n)
           (fun got =>
              match got with
              | inr e => if IsNotFound e then ret (tt, true, None)
                         else ret (tt, false, Some e)
              | inl _ => ret (tt, false, None)
              end)).

Lemma gone_eq g ns n (st : State W) :
      gone g ns n tt st
      = let '(got, w') := apiGet g ns n (world st) in
        (Val (tt,
              match got with
              | inr e => IsNotFound e
              | inl _ => false
              end,
              match got with
              | inr e => if IsNotFound e then None else Some e
              | inl _ => None
              end),
         mkState w' (calls st ++ [mkEntry (world st) (Get g ns n got)])).
Proof.
      cbv beta. rewrite bind_eq. unfold clientGet, request.
      destruct (apiGet g ns n (world st)) as [[obj|e] w']; [done|].
      by destruct (IsNotFound e).
Qed.

Lemma Confirmed_step g ns n (st : State W) obj w' st' :
      apiGet g ns n (world st) = (inl obj, w') ->
      Confirmed g ns n
        (mkState w' (calls st ++ [mkEntry (world st) (Get g ns n (inl obj))])) st' ->
      Confirmed g ns n st st'.
Proof.
      intros Hget (new & seen & e & Hcalls & Hshape & Hnf & Hlive).
      exists (mkEntry (world st) (Get g ns n (inl obj)) :: new), (obj :: seen), e.
      cbn [calls] in Hcalls.
      split; [by rewrite Hcalls, <- app_assoc|].
      split; [cbn; by rewrite Hshape|]. by split.
Qed.

Lemma Confirmed_now g ns n (st : State W) e w' :
      apiGet g ns n (world st) = (inr e, w') -> IsNotFound e = true ->
      Confirmed g ns n st
        (mkState w' (calls st ++ [mkEntry (world st) (Get g ns n (inr e))])).
Proof.
      intros Hget Hnf. exists [mkEntry (world st) (Get g ns n (inr e))], [], e.
      repeat split; try done. cbn [world]. by eapply get_absent.
Qed.

Lemma pollLoop_gone g ns n ticks :
      forall (st st' : State W),
        pollLoop ticks (gone g ns n) tt st = (Val (tt, None), st') ->
        Confirmed g ns n st st'.
Proof.
      induction ticks as [|ticks IH]; intros st st' Hrun; [done|].
      cbn [pollLoop] in Hrun. rewrite bind_eq, gone_eq in Hrun.
      destruct (apiGet g ns n (world st)) as [[obj|e] w'] eqn:Hget.
      - apply IH in Hrun. by eapply Confirmed_step.
      - destruct (IsNotFound e) eqn:Hnf; [|done].
        inversion Hrun; subst. by apply Confirmed_now.
Qed.

Lemma Poll_gone g ns n interval timeout (st st' : State W) :
      PollUntilContextTimeout interval timeout true (gone g ns n) tt st
      = (Val (tt, None), st') ->
      exists ticks w1,
        pollTicks interval timeout (world st) = (ticks, w1)
        /\ Confirmed g ns n
             (mkState w1 (calls st ++ [mkEntry (world st)
                                         (PollStart interval timeout ticks)])) st'.
Proof.
      unfold PollUntilContextTimeout. rewrite bind_eq. unfold request at 1.
      destruct (pollTicks interval timeout (world st)) as [ticks w1].
      intros Hrun. exists ticks, w1. split; [done|].
      rewrite bind_eq, gone_eq in Hrun. cbn [world calls] in Hrun.
      destruct (apiGet g ns n w1) as [[obj|e] w'] eqn:Hget.
      - apply pollLoop_gone in Hrun. by eapply Confirmed_step.
      - destruct (IsNotFound e) eqn:Hnf; [|done].
        inversion Hrun; subst.
        by apply (Confirmed_now g ns n (mkState w1 _)).
Qed.

(** A [deleteResource] that returns nil has had the deletion confirmed. *)
Lemma deleteResource_confirmed o g n ns (st st' : State W) :
      deleteResource o g n ns st = (Val None, st') ->
      exists new,
        calls st' = calls st ++ new
        /\ ConfirmedDeletion g ns n (map call new)
        /\ live (world st') (g, ns, n) = false.
Proof.
      unfold deleteResource. destruct (negb (ns =? "")%string); [|done].
      cbv zeta. rewrite bind_eq. unfold clientDelete at 1, request at 1.
      destruct (apiDelete g ns n (world st)) as [answer w1].
      set (st1 := mkState w1 _).
      assert (forall st'',
        bind (PollUntilContextTimeout (interval o) (timeout o) true (gone g ns n) tt)
             (fun x => match x with
                       | (_, Some e) =>
                         ret (Some (Errorf ("failed to delete resource " ++ n ++ ": ")%string e))
                       | (_, None) => ret None
                       end) st1 = (Val None, st'') ->
        (answer = None \/ exists e0, answer = Some e0 /\ IsNotFound e0 = true) ->
        exists new,
          calls st'' = calls st ++ new
          /\ ConfirmedDeletion g ns n (map call new)
          /\ live (world st'') (g, ns, n) = false) as Hwait.
      { intros st'' Hrun Htol. rewrite bind_eq in Hrun.
        destruct (PollUntilContextTimeout _ _ _ _ _ st1) as [[[[] [e|]]|msg] st2]
          eqn:Hpoll; try done.
        inversion Hrun; subst st''.
        apply Poll_gone in Hpoll
          as (ticks & w2 & Hticks & new & seen & e & Hcalls & Hshape & Hnf & Hlive).
        subst st1. cbn [world calls] in *.
        eexists. split; [rewrite Hcalls, <- !app_assoc; reflexivity|].
        split; [|done].
        exists answer, (interval o), (timeout o), ticks, seen, e.
        split; [cbn; by rewrite Hshape|]. by split. }
      destruct answer as [e0|].
      - destruct (IsNotFound e0) eqn:Hnf0; cbn [negb]; [|done].
        intros Hrun. apply Hwait; [done|]. right. by exists e0.
      - intros Hrun. apply Hwait; [done|]. by left.
Qed.

Lemma afresh_quiet ns n : QuietRequests (Added (createdAfresh (W := W) ns n)).
Proof.
      apply Added_quiet. intros w c Hc ns' obj answer Heq. cbn in Heq.
      subst c. destruct Hc.
Qed.

Lemma notCreate_quiet :
      QuietRequests (Added (fun e : Entry W => notCreate (call e))).
Proof. apply Added_quiet. by intros w c Hc. Qed.

Lemma subscription_not_namespace ns n obj :
      (subscriptionGVR, ns, n) <> (namespaceGVR, "", GetName obj).
Proof. intros H. by inversion H. Qed.

Lemma createAttempts_afresh attempts ns n csv channel :
      forall err (st : State W) out st',
        live (world st) (subscriptionGVR, ns, n) = false ->
        createAttempts attempts ns (newSubscription n ns csv channel) err st
        = (out, st') ->
        Added (createdAfresh ns n) st st'.
Proof.
      induction attempts as [|attempt rest IH]; intros err st out st' Hlive Hrun.
      - inversion Hrun; subst. reflexivity.
      - cbn [createAttempts] in Hrun. rewrite bind_eq in Hrun.
        unfold clientCreate at 1, request at 1 in Hrun.
        destruct (apiCreate subscriptionGVR ns (newSubscription n ns csv channel)
                    (world st)) as [[obj|e] w1] eqn:Hcreate.
        + inversion Hrun; subst. eexists. split; [reflexivity|].
          constructor; [|constructor].
          intros ns' obj' answer Heq. cbn in Heq. inversion Heq; subst. by split.
        + assert (live w1 (subscriptionGVR, ns, n) = false) as Hlive1
            by by eapply create_failed_keeps.
          rewrite bind_eq in Hrun.
          assert (Added (createdAfresh ns n)
                    (mkState w1 (calls st ++ [mkEntry (world st)
                       (Create subscriptionGVR ns
                          (newSubscription n ns csv channel) (inr e))])) st')
            as (new & Hcalls & Hall).
          { destruct (attempt <? 3)%Z.
            - unfold timeSleep, request in Hrun. cbn [world calls] in Hrun.
              apply IH in Hrun; [|cbn [world]; by apply sleep_keeps].
              destruct Hrun as (new & Hcalls & Hall). cbn [calls] in Hcalls.
              eexists. split; [cbn [calls]; rewrite Hcalls, <- app_assoc; reflexivity|].
              constructor; [|done]. intros ns' obj' answer Heq. by cbn in Heq.
            - unfold ret at 1 in Hrun. by apply IH in Hrun. }
          cbn [calls] in Hcalls.
          eexists. split; [rewrite Hcalls, <- app_assoc; reflexivity|].
          constructor; [|done].
          intros ns' obj' answer Heq. cbn in Heq. inversion Heq; subst. by split.
Qed.

Lemma createSubscription_afresh o n ns csv channel (st : State W) out st' :
      live (world st) (subscriptionGVR, ns, n) = false ->
      createSubscription o n ns csv channel st = (out, st') ->
      Added (createdAfresh ns n) st st'.
Proof.
      intros Hlive. unfold createSubscription. rewrite bind_eq.
      unfold clientCreate at 1, request at 1.
      pose proof (create_other_keeps namespaceGVR "" (newNamespace ns) (world st)
                    _ (subscription_not_namespace ns n _) Hlive) as Hlive1.
      destruct (apiCreate namespaceGVR "" (newNamespace ns) (world st))
        as [answer w1]. cbn [snd] in Hlive1.
      intros Hrun.
      assert (Added (createdAfresh ns n) st
                (mkState w1 (calls st ++ [mkEntry (world st)
                   (Create namespaceGVR "" (newNamespace ns) answer)]))) as Hfirst.
      { eexists. split; [reflexivity|]. constructor; [|constructor].
        intros ns' obj answer' Heq. cbn in Heq. by inversion Heq. }
      destruct answer as [nsObj|e0].
      - etransitivity; [exact Hfirst|]. by eapply createAttempts_afresh.
      - destruct (IsAlreadyExists e0); cbn [negb] in Hrun.
        + etransitivity; [exact Hfirst|]. by eapply createAttempts_afresh.
        + by inversion Hrun; subst.
Qed.
End Deletion.
End K8sFacts.

Module K8sClaims.
Import K8s Operatorhub K8sProps K8sFacts.

Section Claims.
Context {W : Type} {cl : Cluster W}.

Lemma other_kind_stamped channel (w : W) g ns obj answer :
      g <> subscriptionGVR ->
      channelStamped channel (mkEntry w (Create g ns obj answer)).
Proof. intros Hg ns' obj' answer' Heq. cbn in Heq. congruence. Qed.

Lemma quiet_stamped channel :
      QuietRequests (Added (channelStamped (W := W) channel)).
Proof.
      apply Added_quiet. intros w c Hc ns obj answer Heq. cbn in Heq.
      subst c. destruct Hc.
Qed.

Lemma InstallSubscription_stamped o csv channel :
      Respects (Added (channelStamped channel)) (InstallSubscription o csv channel).
Proof.
      apply Respects_InstallSubscription.
      - apply Added_preorder.
      - apply quiet_stamped.
      - apply Added_request. intros w a. by apply other_kind_stamped.
      - apply Added_request. intros w a ns obj answer Heq. cbn in Heq.
        by inversion Heq.
Qed.

Lemma UpgradeOperator_stamped o version :
      Respects
        (Added (channelStamped
                  (if (Config.Version.Channel version =? "")%string
                   then "stable" else Config.Version.Channel version)))
        (UpgradeOperator o version).
Proof.
      unfold UpgradeOperator.
      apply Respects_bind; [apply Added_preorder| |].
      - apply Respects_InstallArtifactVersion;
          [apply Added_preorder|apply quiet_stamped|].
        intros obj. apply Added_request. intros w a. by apply other_kind_stamped.
      - intros [av|e]; [|apply Respects_ret, Added_preorder].
        destruct (NestedString av ["status"; "version"]) as [[csv found] err].
        apply Respects_bind; [apply Added_preorder| |].
        + apply InstallSubscription_stamped.
        + intros [e|]; apply Respects_ret, Added_preorder.
Qed.

(** C10: every Subscription that UpgradeOperator asks the cluster to
    create has spec.channel "stable" when the version's Channel is
    empty, and the version's Channel when it is not. *)
Theorem C10_default_channel (o : Operator) (version : Config.Version.t)
        (st : State W) :
      exists new,
        calls (snd (UpgradeOperator o version st)) = calls st ++ new
        /\ forall w ns obj answer,
             In (mkEntry w (Create subscriptionGVR ns obj answer)) new ->
             (Config.Version.Channel version = "" -> channelOf obj = "stable")
             /\ (Config.Version.Channel version <> "" ->
                 channelOf obj = Config.Version.Channel version).
Proof.
      destruct (UpgradeOperator o version st) as [out st'] eqn:Hrun.
      apply UpgradeOperator_stamped in Hrun as (new & Hcalls & Hall).
      exists new. split; [exact Hcalls|].
      intros w ns obj answer Hin.
      rewrite Forall_forall in Hall.
      assert (mkEntry w (Create subscriptionGVR ns obj answer) ∈ new) as Hel
        by by apply list_elem_of_In.
      specialize (Hall _ Hel ns obj answer eq_refl).
      destruct (String.eqb_spec (Config.Version.Channel version) "") as [Heq|Hne].
      - by split.
      - by split.
Qed.

(** C9: the name of the ArtifactVersion is the name of the artifact,
    ".", and the tag.  When the cluster has an object of that name,
    createArtifactVersion returns it as it is, and the get request is
    its only request; otherwise the object it asks to create has that
    name and the tag. *)
Theorem C9_artifact_version_reuse (o : Operator) (version : string)
        (artifact : Unstructured) (st : State W) :
      let avName := (GetName artifact ++ "." ++ version)%string in
      (forall av w',
          apiGet artifactVersionGVR systemNamespace avName (world st) = (inl av, w') ->
          createArtifactVersion o version artifact st
          = (Val (inl av),
             mkState w' (calls st ++ [mkEntry (world st)
                          (Get artifactVersionGVR systemNamespace avName (inl av))])))
      /\ (forall e w',
          apiGet artifactVersionGVR systemNamespace avName (world st) = (inr e, w') ->
          exists obj answer w'',
            createArtifactVersion o version artifact st
            = (Val answer,
               mkState w'' (calls st
                  ++ [mkEntry (world st)
                        (Get artifactVersionGVR systemNamespace avName (inr e));
                      mkEntry w'
                        (Create artifactVersionGVR systemNamespace obj answer)]))
            /\ GetName obj = avName
            /\ getNestedString obj ["spec"; "tag"] = version).
Proof.
      intros avName. split.
      - intros av w' Hget. unfold createArtifactVersion, GetResource.
        rewrite bind_eq. unfold clientGet, request. fold avName. by rewrite Hget.
      - intros e w' Hget. unfold createArtifactVersion, GetResource.
        rewrite bind_eq. unfold clientGet, request at 1. fold avName. rewrite Hget.
        cbv zeta. unfold clientCreate, request. cbn [world calls].
        match goal with
        | |- context [apiCreate ?g ?ns ?obj w'] =>
          destruct (apiCreate g ns obj w') as [answer w''] eqn:Hcreate;
          exists obj, answer, w''
        end.
        split; [by rewrite <- app_assoc|]. split; reflexivity.
Qed.

(** The three attempts of [createSubscription], case by case. *)
Lemma createAttempts_three ns sub err (st : State W) out st' :
      createAttempts [1; 2; 3]%Z ns sub err st = (out, st') ->
      exists new,
        calls st' = calls st ++ new
        /\ let plan := schedule (map call new) in
           (exists obj, plan = [inr (inl obj)] /\ out = Val (inl obj))
           \/ (exists e1 obj,
                 plan = [inr (inr e1); inl (1 * Second)%Z; inr (inl obj)]
                 /\ out = Val (inl obj))
           \/ (exists e1 e2 obj,
                 plan = [inr (inr e1); inl (1 * Second)%Z;
                         inr (inr e2); inl (2 * Second)%Z; inr (inl obj)]
                 /\ out = Val (inl obj))
           \/ (exists e1 e2 e3,
                 plan = [inr (inr e1); inl (1 * Second)%Z;
                         inr (inr e2); inl (2 * Second)%Z; inr (inr e3)]
                 /\ out = Val (inr (Errorf
                            "failed to create subscription after 3 attempts: " e3))).
Proof.
      intros Hrun. cbn [createAttempts] in Hrun. rewrite bind_eq in Hrun.
      unfold clientCreate at 1, request at 1 in Hrun.
      destruct (apiCreate subscriptionGVR ns sub (world st)) as [[obj|e1] w1].
      { inversion Hrun; subst. eexists. split; [reflexivity|]. left. by exists obj. }
      rewrite bind_eq in Hrun.
      cbn [Z.ltb Z.compare Pos.compare Pos.compare_cont] in Hrun.
      unfold timeSleep at 1, request at 1 in Hrun. cbn [world calls] in Hrun.
      rewrite bind_eq in Hrun. unfold clientCreate at 1, request at 1 in Hrun.
      cbn [world calls] in Hrun.
      destruct (apiCreate subscriptionGVR ns sub (sleepFor _ w1)) as [[obj|e2] w2].
      { inversion Hrun; subst. eexists.
        split; [cbn [calls]; rewrite <- !app_assoc; reflexivity|].
        right. left. by exists e1, obj. }
      rewrite bind_eq in Hrun.
      cbn [Z.ltb Z.compare Pos.compare Pos.compare_cont] in Hrun.
      unfold timeSleep at 1, request at 1 in Hrun. cbn [world calls] in Hrun.
      rewrite bind_eq in Hrun. unfold clientCreate at 1, request at 1 in Hrun.
      cbn [world calls] in Hrun.
      destruct (apiCreate subscriptionGVR ns sub (sleepFor _ w2)) as [[obj|e3] w3].
      { inversion Hrun; subst. eexists.
        split; [cbn [calls]; rewrite <- !app_assoc; reflexivity|].
        right. right. left. by exists e1, e2, obj. }
      rewrite bind_eq in Hrun.
      cbn [Z.ltb Z.compare Pos.compare Pos.compare_cont] in Hrun.
      unfold ret at 1 in Hrun. cbn [createAttempts ret] in Hrun.
      inversion Hrun; subst. eexists.
      split; [cbn [calls]; rewrite <- !app_assoc; reflexivity|].
      right. right. right. by exists e1, e2, e3.
Qed.

(** C1: createSubscription asks at most three times for the
    Subscription to be created.  If one of the requests succeeds it
    returns the created object and no error.  If requests are made and
    all fail, there are exactly three of them, with a pause of 1s
    before the second and of 2s before the third, and the error of the
    third is returned wrapped. *)
Theorem C1_create_retries (o : Operator) (name ns csv channel : string)
        (st : State W) :
      exists new,
        calls (snd (createSubscription o name ns csv channel st)) = calls st ++ new
        /\ let out := fst (createSubscription o name ns csv channel st) in
           let tries := attempts (map call new) in
           length tries <= 3
           /\ (forall k obj, tries !! k = Some (inl obj) -> out = Val (inl obj))
           /\ (tries <> [] -> Forall (fun a => failed a = true) tries ->
               exists e1 e2 e3,
                 schedule (map call new)
                 = [inr (inr e1); inl (1 * Second)%Z;
                    inr (inr e2); inl (2 * Second)%Z; inr (inr e3)]
                 /\ out = Val (inr (Errorf
                            "failed to create subscription after 3 attempts: " e3))).
Proof.
      destruct (createSubscription o name ns csv channel st) as [out st'] eqn:Hrun.
      cbn [fst snd]. unfold createSubscription in Hrun. rewrite bind_eq in Hrun.
      unfold clientCreate at 1, request at 1 in Hrun.
      destruct (apiCreate namespaceGVR "" (newNamespace ns) (world st))
        as [answer w1].
      set (first := mkEntry (world st)
                      (Create namespaceGVR "" (newNamespace ns) answer)) in Hrun.
      assert (forall err,
        createAttempts [1; 2; 3]%Z ns (newSubscription name ns csv channel) err
          (mkState w1 (calls st ++ [first])) = (out, st') ->
        exists new,
          calls st' = calls st ++ new
          /\ let tries := attempts (map call new) in
             length tries <= 3
             /\ (forall k obj, tries !! k = Some (inl obj) -> out = Val (inl obj))
             /\ (tries <> [] -> Forall (fun a => failed a = true) tries ->
                 exists e1 e2 e3,
                   schedule (map call new)
                   = [inr (inr e1); inl (1 * Second)%Z;
                      inr (inr e2); inl (2 * Second)%Z; inr (inr e3)]
                   /\ out = Val (inr (Errorf
                          "failed to create subscription after 3 attempts: " e3))))
        as Hloop.
      { intros err Hloop.
        apply createAttempts_three in Hloop as (new & Hcalls & Hcases).
        exists (first :: new).
        split; [rewrite Hcalls; cbn [calls]; by rewrite <- app_assoc|].
        cbv zeta in *.
        assert (schedule (map call (first :: new)) = schedule (map call new))
          as Hsched by reflexivity.
        unfold attempts. rewrite Hsched.
        destruct Hcases as [(obj & -> & ->)
                           |[(e1 & obj & -> & ->)
                           |[(e1 & e2 & obj & -> & ->)
                           |(e1 & e2 & e3 & -> & ->)]]]; cbn [omap list_omap length].
        - split; [lia|]. split.
          + intros [|k] obj' Hk; cbn in Hk; [by inversion Hk|done].
          + intros _ Hall. apply Forall_inv in Hall. by cbn in Hall.
        - split; [lia|]. split.
          + intros [|[|k]] obj' Hk; cbn in Hk; try done. by inversion Hk.
          + intros _ Hall. apply Forall_inv_tail, Forall_inv in Hall.
            by cbn in Hall.
        - split; [lia|]. split.
          + intros [|[|[|k]]] obj' Hk; cbn in Hk; try done. by inversion Hk.
          + intros _ Hall. apply Forall_inv_tail, Forall_inv_tail, Forall_inv in Hall.
            by cbn in Hall.
        - split; [lia|]. split.
          + intros [|[|[|k]]] obj' Hk; cbn in Hk; done.
          + intros _ _. by exists e1, e2, e3. }
      destruct answer as [nsObj|e0].
      - by apply Hloop in Hrun.
      - destruct (IsAlreadyExists e0); cbn [negb] in Hrun;
          [by apply Hloop in Hrun|].
        inversion Hrun; subst. exists [first].
        split; [done|]. cbn. split; [lia|]. split; done.
Qed.

(** C8: the claim fails for the empty namespace.  [rsAbled] is set only
    when the namespace is not empty; with an empty one deleteResource
    calls Delete on the nil interface and panics before it sends a
    request, whether the object is there or not: it does not return
    nil. *)
Theorem C8_empty_namespace_panics (o : Operator) (gvr : GroupVersionResource)
        (name : string) (st : State W) :
      deleteResource o gvr name "" st = (Panic nilDereference, st).
Proof. unfold deleteResource. by rewrite String.eqb_refl. Qed.

(** X26: deleting what is not there is not an error on a namespace.  In
    a cluster where the object is absent (the delete request and every
    get request for it are answered not-found), deleteResource on a
    namespace that is not empty returns nil, after the delete request
    and one get request. *)
Theorem deleteResource_absent (absent : W -> Prop) (o : Operator)
        (gvr : GroupVersionResource) (name ns : string) (st : State W) :
      ns <> "" ->
      (forall w, absent w ->
         exists e, fst (apiDelete gvr ns name w) = Some e /\ IsNotFound e = true
                   /\ absent (snd (apiDelete gvr ns name w))) ->
      (forall i t w, absent w -> absent (snd (pollTicks i t w))) ->
      (forall w, absent w ->
         exists e, fst (apiGet gvr ns name w) = inr e /\ IsNotFound e = true) ->
      absent (world st) ->
      fst (deleteResource o gvr name ns st) = Val None
      /\ exists new e0 ticks e1,
           calls (snd (deleteResource o gvr name ns st)) = calls st ++ new
           /\ map call new = [Delete gvr ns name (Some e0);
                              PollStart (interval o) (timeout o) ticks;
                              Get gvr ns name (inr e1)]
           /\ IsNotFound e0 = true /\ IsNotFound e1 = true.
Proof.
      intros Hns Hdel Hticks Hget Habs.
      destruct (deleteResource o gvr name ns st) as [out st'] eqn:Hrun.
      cbn [fst snd]. unfold deleteResource in Hrun.
      apply String.eqb_neq in Hns. rewrite Hns in Hrun. cbn [negb] in Hrun.
      cbv zeta in Hrun.
      rewrite bind_eq in Hrun. unfold clientDelete at 1, request at 1 in Hrun.
      destruct (Hdel _ Habs) as (e0 & He0 & Hnf0 & Habs1).
      destruct (apiDelete gvr ns name (world st)) as [answer w1].
      cbn [fst snd] in He0, Habs1. subst answer.
      rewrite Hnf0 in Hrun. cbn [negb] in Hrun.
      rewrite bind_eq in Hrun. unfold PollUntilContextTimeout in Hrun.
      rewrite bind_eq in Hrun. unfold request at 1 in Hrun.
      cbn [world calls] in Hrun.
      specialize (Hticks (interval o) (timeout o) _ Habs1).
      destruct (pollTicks (interval o) (timeout o) w1) as [ticks w2].
      cbn [snd] in Hticks.
      rewrite bind_eq in Hrun. rewrite bind_eq in Hrun.
      unfold clientGet at 1, request at 1 in Hrun. cbn [world calls] in Hrun.
      destruct (Hget _ Hticks) as (e1 & He1 & Hnf1).
      destruct (apiGet gvr ns name w2) as [got w3]. cbn [fst] in He1. subst got.
      rewrite Hnf1 in Hrun. cbn [ret] in Hrun. inversion Hrun; subst.
      split; [reflexivity|].
      eexists _, e0, ticks, e1. cbn [calls].
      split; [rewrite <- !app_assoc; reflexivity|]. by split.
Qed.
End Claims.

Section Recreation.
Context {W : Type} {cl : Cluster W} {lv : Liveness W}.

Lemma no_create_among (new : list (Entry W)) :
      Forall (fun e => notCreate (call e)) new ->
      existsb (fun e => isCreate subscriptionGVR (call e)) new = false.
Proof.
      induction 1 as [|e new He _ IH]; [done|]. cbn. rewrite IH.
      by destruct (call e).
Qed.

Lemma ConfirmedDeletion_no_create g ns n (new : list (Entry W)) :
      ConfirmedDeletion g ns n (map call new) ->
      existsb (fun e => isCreate subscriptionGVR (call e)) new = false.
Proof.
      intros (answer & i & t & ticks & seen & e & Hshape & _).
      apply no_create_among. apply Forall_forall. intros x Hx.
      assert (call x ∈ map call new) as Hc.
      { apply list_elem_of_In, in_map, list_elem_of_In, Hx. }
      rewrite Hshape in Hc.
      apply elem_of_cons in Hc as [->|Hc]; [done|].
      apply elem_of_cons in Hc as [->|Hc]; [done|].
      apply elem_of_app in Hc as [Hc|Hc].
      - apply list_elem_of_In, in_map_iff in Hc as (obj & <- & _). done.
      - apply list_elem_of_singleton in Hc as ->. done.
Qed.

Lemma Added_new (P : Entry W -> Prop) (st st' : State W) new :
      Added P st st' -> calls st' = calls st ++ new -> Forall P new.
Proof.
      intros (new' & Hcalls & Hall) Hnew. rewrite Hcalls in Hnew.
      by apply app_inv_head in Hnew as <-.
Qed.

Context {sd : SoleDriver W}.

(** The steps of [InstallSubscription] after the Subscription is there. *)
Lemma after_creation_afresh o csv (st : State W) out st' :
      (bind (waitInstallPlan o (name o) (namespace o))
         (fun x =>
            let '(installPlanName, err) := x in
            match err with
            | Some e => ret (Some (Errorf "failed to wait for install plan: " e))
            | None =>
              bind (clientGet installPlanGVR (namespace o) installPlanName)
                (fun got =>
                   match got with
                   | inr e => ret (Some (Errorf "failed to get install plan: " e))
                   | inl installPlan =>
                     match field installPlan "spec" with
                     | Some (VMap spec) =>
                       bind (clientUpdate installPlanGVR (namespace o)
                               (setField installPlan "spec"
                                  (VMap (setField spec "approved" (VBool true)))))
                         (fun updated =>
                            match updated with
                            | inr e =>
                              ret (Some (Errorf "failed to update install plan: " e))
                            | inl _ =>
                              bind (waitCSVReady o csv (namespace o))
                                (fun err =>
                                   match err with
                                   | Some e =>
                                     ret (Some (Errorf
                                       "failed to wait for csv to be ready: " e))
                                   | None => ret None
                                   end)
                            end)
                     | _ => panic
                         "interface conversion: interface {} is not map[string]interface {}"
                     end
                   end)
            end)) st = (out, st') ->
      Added (createdAfresh (namespace o) (name o)) st st'.
Proof.
      pose proof (afresh_quiet (W := W) (namespace o) (name o)) as Hq.
      pose proof (Respects_waitInstallPlan _ Hq) as Hplan.
      pose proof (Respects_waitCSVReady _ Hq) as Hcsv.
      assert (Respects (Added (createdAfresh (namespace o) (name o)))
                (bind (waitInstallPlan o (name o) (namespace o))
         (fun x =>
            let '(installPlanName, err) := x in
            match err with
            | Some e => ret (Some (Errorf "failed to wait for install plan: " e))
            | None =>
              bind (clientGet installPlanGVR (namespace o) installPlanName)
                (fun got =>
                   match got with
                   | inr e => ret (Some (Errorf "failed to get install plan: " e))
                   | inl installPlan =>
                     match field installPlan "spec" with
                     | Some (VMap spec) =>
                       bind (clientUpdate installPlanGVR (namespace o)
                               (setField installPlan "spec"
                                  (VMap (setField spec "approved" (VBool true)))))
                         (fun updated =>
                            match updated with
                            | inr e =>
                              ret (Some (Errorf "failed to update install plan: " e))
                            | inl _ =>
                              bind (waitCSVReady o csv (namespace o))
                                (fun err =>
                                   match err with
                                   | Some e =>
                                     ret (Some (Errorf
                                       "failed to wait for csv to be ready: " e))
                                   | None => ret None
                                   end)
                            end)
                     | _ => panic
                         "interface conversion: interface {} is not map[string]interface {}"
                     end
                   end)
            end))) as Hall by respects.
      intros Hrun. by eapply Hall.
Qed.

(** C2: in a run of InstallSubscription that asks for a Subscription to
    be created, the requests before are two confirmed deletions: of the
    Subscription named after the operator, then of the CSV, each a
    delete request followed by a poll that ends with a get answered
    not-found.  Every request to create a Subscription comes after
    them, is for the operator's name in its namespace, and is sent to a
    cluster in which no Subscription of that name is live. *)
Theorem C2_deleted_before_created (o : Operator) (csv channel : string)
        (st : State W) (new : list (Entry W)) :
      calls (snd (InstallSubscription o csv channel st)) = calls st ++ new ->
      existsb (fun e => isCreate subscriptionGVR (call e)) new = true ->
      exists d1 d2 rest,
        new = d1 ++ d2 ++ rest
        /\ ConfirmedDeletion subscriptionGVR (namespace o) (name o) (map call d1)
        /\ ConfirmedDeletion csvGVR (namespace o) csv (map call d2)
        /\ Forall (createdAfresh (namespace o) (name o)) rest.
Proof.
      destruct (InstallSubscription o csv channel st) as [out st'] eqn:Hrun.
      cbn [snd]. intros Hnew Hcreate.
      pose proof (notCreate_quiet (W := W)) as Hnc.
      unfold InstallSubscription in Hrun.
      destruct (csv =? "")%string.
      { inversion Hrun; subst.
        assert (new = []) as -> by (by eapply app_inv_head; rewrite app_nil_r).
        done. }
      rewrite bind_eq in Hrun.
      destruct (deleteResource o subscriptionGVR (name o) (namespace o) st)
        as [out1 st1] eqn:Hd1.
      pose proof (Respects_deleteResource _ Hnc _ _ _ _ _ _ _ Hd1)
        as (n1 & Hcalls1 & Hquiet1).
      assert (out1 = Val None) as ->.
      { destruct out1 as [[e|]|msg]; [|done|]; inversion Hrun; subst;
          rewrite Hcalls1 in Hnew; apply app_inv_head in Hnew as <-;
          by rewrite no_create_among in Hcreate. }
      apply deleteResource_confirmed in Hd1 as (d1 & Hcalls1' & Hconf1 & Hlive1).
      rewrite Hcalls1 in Hcalls1'. apply app_inv_head in Hcalls1' as <-.
      rewrite bind_eq in Hrun.
      destruct (deleteResource o csvGVR csv (namespace o) st1)
        as [out2 st2] eqn:Hd2.
      pose proof (Respects_deleteResource _ Hnc _ _ _ _ _ _ _ Hd2)
        as (n2 & Hcalls2 & Hquiet2).
      pose proof (Respects_deleteResource _
                    (StaysAbsent_quiet (subscriptionGVR, namespace o, name o))
                    _ _ _ _ _ _ _ Hd2 Hlive1) as Hlive2.
      assert (out2 = Val None) as ->.
      { destruct out2 as [[e|]|msg]; [|done|]; inversion Hrun; subst;
          rewrite Hcalls2, Hcalls1, <- app_assoc in Hnew;
          apply app_inv_head in Hnew as <-;
          rewrite existsb_app, !no_create_among in Hcreate; done. }
      apply deleteResource_confirmed in Hd2 as (d2 & Hcalls2' & Hconf2 & _).
      rewrite Hcalls2 in Hcalls2'. apply app_inv_head in Hcalls2' as <-.
      assert (Added (createdAfresh (namespace o) (name o)) st2 st')
        as (rest & Hcalls3 & Hrest).
      { rewrite bind_eq in Hrun.
        destruct (createSubscription o (name o) (namespace o) csv channel st2)
          as [out3 st3] eqn:Hcs.
        apply createSubscription_afresh in Hcs; [|done].
        destruct out3 as [[obj|e]|msg].
        - etransitivity; [exact Hcs|]. by eapply after_creation_afresh.
        - by inversion Hrun; subst.
        - by inversion Hrun; subst. }
      exists n1, n2, rest. split; [|by repeat split].
      rewrite Hcalls3, Hcalls2, Hcalls1, <- !app_assoc in Hnew.
      by apply app_inv_head in Hnew.
Qed.
End Recreation.
End K8sClaims.

(** * The passive API server is driven by the tool alone *)

Module SimFacts.
Import K8s Operatorhub K8sProps Sim.

Lemma skey_inj g ns n g' ns' n' :
    skey g ns n = skey g' ns' n' -> (g, ns, n) = (g', ns', n').
Proof.
    destruct g, g'. unfold skey. cbn. intros H. by inversion H.
Qed.

Lemma find_put s key x k :
    find (put key x s) k = if decide (key = k) then Some x else find s k.
Proof. reflexivity. Qed.

Lemma find_remove s key k :
    find (remove key s) k = if decide (key = k) then None else find s k.
Proof.
    induction s as [|[k' y] s IH]; cbn [remove find].
    - by destruct (decide (key = k)).
    - destruct (decide (k' = key)) as [->|Hne].
      + rewrite IH. by destruct (decide (key = k)).
      + cbn [find]. rewrite IH.
        destruct (decide (k' = k)) as [->|Hne']; [|done].
        by destruct (decide (key = k)) as [->|].
Qed.

(** Writing under a key that is in the store makes no other key live. *)
Lemma live_overwrite w key x (k : Key) :
    is_Some (find (store w) key) ->
    simLive w k = false ->
    simLive (withStore w (put key x (store w))) k = false.
Proof.
    destruct k as [[g ns] n]. unfold simLive. cbn [store withStore].
    intros [y Hy] Hk. rewrite find_put.
    destruct (decide (key = skey g ns n)) as [->|Hne]; [|done].
    by rewrite Hy in Hk.
Qed.

Lemma live_remove w key (k : Key) :
    simLive w k = false ->
    simLive (withStore w (remove key (store w))) k = false.
Proof.
    destruct k as [[g ns] n]. unfold simLive. cbn [store withStore].
    intros Hk. rewrite find_remove.
    by destruct (decide (key = skey g ns n)).
Qed.

Lemma sim_sole_driver : @SoleDriver Cluster simCluster simLive.
Proof.
    split.
    - (* get_absent *)
      intros g ns n w e w' Hget Hnf. cbn in Hget. unfold simGet in Hget.
      unfold live, simLive.
      destruct (find (store w) (skey g ns n)) as [[obj [[|k]|]]|] eqn:E;
        inversion Hget; subst; cbn [store withStore].
      + rewrite find_remove. by destruct (decide (skey g ns n = skey g ns n)).
      + by rewrite E.
    - (* get_keeps *)
      intros g ns n w k Hk. cbn. unfold simGet.
      destruct (find (store w) (skey g ns n)) as [[obj [[|r]|]]|] eqn:E;
        cbn [snd]; try done.
      + by apply live_remove.
      + by apply live_overwrite.
    - (* delete_keeps *)
      intros g ns n w k Hk. cbn. unfold simDelete.
      destruct (find (store w) (skey g ns n)) as [[obj [r|]]|] eqn:E;
        cbn [snd]; try done.
      by apply live_overwrite.
    - (* update_keeps *)
      intros g ns obj w k Hk. cbn. unfold simUpdate.
      destruct (find (store w) (skey g ns (GetName obj))) as [[old r]|] eqn:E;
        cbn [snd]; try done.
      by apply live_overwrite.
    - (* sleep_keeps *)
      by intros d w k Hk.
    - (* ticks_keeps *)
      by intros i t w k Hk.
    - (* create_other_keeps *)
      intros g ns obj w k Hne Hk. cbn. unfold simCreate.
      assert (simLive (withStore w (put (skey g ns (GetName obj)) (obj, None)
                                      (store w))) k = false) as Hins.
      { destruct k as [[g' ns'] n']. unfold simLive in *. cbn [store withStore].
        rewrite find_put.
        destruct (decide (skey g ns (GetName obj) = skey g' ns' n')) as [Heq|];
          [|done].
        apply skey_inj in Heq. congruence. }
      destruct (gvrEqb g subscriptionGVR), (faults w) as [|e rest];
        destruct (find (store w) (skey g ns (GetName obj))); cbn [snd]; try done.
    - (* create_failed_keeps *)
      intros g ns obj w e w' k Hcreate Hk. cbn in Hcreate.
      unfold simCreate in Hcreate.
      destruct (gvrEqb g subscriptionGVR), (faults w) as [|e' rest];
        destruct (find (store w) (skey g ns (GetName obj)));
        inversion Hcreate; subst; done.
Qed.
End SimFacts.

(** * The claims on the passive API server *)

Module K8sWitnesses.
Import K8s Operatorhub K8sProps Sim K8sClaims SimFacts.

(** Three transient failures in a row: three requests, pauses of 1s and
    2s, and the last error wrapped. *)
Lemma C1_create_retries_witness :
    schedule (map call (calls (snd (runCreateSubscription op "gitlab-operator"
                "testing" "gitlab.v17.11.0" "stable"
                (start (fresh [flaky; flaky; flaky]))))))
    = [inr (inr flaky); inl (1 * Second)%Z; inr (inr flaky);
       inl (2 * Second)%Z; inr (inr flaky)]
    /\ fst (runCreateSubscription op "gitlab-operator" "testing"
              "gitlab.v17.11.0" "stable" (start (fresh [flaky; flaky; flaky])))
       = Val (inr (Errorf "failed to create subscription after 3 attempts: " flaky)).
Proof.
    destruct (@C1_create_retries Cluster simCluster op "gitlab-operator" "testing"
                "gitlab.v17.11.0" "stable" (start (fresh [flaky; flaky; flaky])))
      as (new & Hcalls & Hlen & _ & _).
    split; vm_compute; reflexivity.
Defined.

Lemma C2_deleted_before_created_witness :
    exists d1 d2 rest,
      calls (snd (runInstallSubscription op "gitlab.v17.11.0" "stable"
                    (start (used [flaky]))))
      = d1 ++ d2 ++ rest
      /\ ConfirmedDeletion subscriptionGVR "testing" "gitlab-operator" (map call d1)
      /\ ConfirmedDeletion csvGVR "testing" "gitlab.v17.11.0" (map call d2)
      /\ Forall (createdAfresh (Liveness0 := simLive) "testing" "gitlab-operator")
                rest.
Proof.
    apply (@C2_deleted_before_created Cluster simCluster simLive sim_sole_driver
             op "gitlab.v17.11.0" "stable" (start (used [flaky]))).
    - vm_compute; reflexivity.
    - vm_compute; reflexivity.
Defined.

(** No CSV of that name in the cluster, and the operator of a
    configuration without a namespace: the run panics. *)
Lemma C8_empty_namespace_panics_witness :
    fst (simGet csvGVR (namespace homeless) "gitlab.v17.11.0" (fresh []))
    = inr (notFound "gitlab.v17.11.0")
    /\ runDeleteResource homeless csvGVR "gitlab.v17.11.0" (namespace homeless)
         (start (fresh []))
       = (Panic nilDereference, start (fresh [])).
Proof.
    split; [reflexivity|].
    apply (@C8_empty_namespace_panics Cluster simCluster homeless csvGVR
             "gitlab.v17.11.0" (start (fresh []))).
Defined.

Lemma deleteResource_absent_witness :
    fst (runDeleteResource op csvGVR "gitlab.v17.11.0" "testing" (start (fresh [])))
    = Val None.
Proof.
    apply (@deleteResource_absent Cluster simCluster csvAbsent op csvGVR
             "gitlab.v17.11.0" "testing" (start (fresh []))).
    - done.
    - intros w Hw. exists (notFound "gitlab.v17.11.0"). cbn. unfold simDelete.
      unfold csvAbsent in Hw. by rewrite Hw.
    - by intros i t w Hw.
    - intros w Hw. exists (notFound "gitlab.v17.11.0"). cbn. unfold simGet.
      unfold csvAbsent in Hw. by rewrite Hw.
    - reflexivity.
Defined.

Lemma C9_artifact_version_reuse_witness :
    runCreateArtifactVersion op "v17.11.0" theArtifact (start stocked)
    = (Val (inl presentVersion),
       mkState stocked
         [mkEntry stocked
            (Get artifactVersionGVR systemNamespace
                 "operatorhub-gitlab-operator.v17.11.0" (inl presentVersion))]).
Proof.
    apply (proj1 (@C9_artifact_version_reuse Cluster simCluster op "v17.11.0"
                    theArtifact (start stocked))).
    vm_compute; reflexivity.
Defined.

(** With an empty Channel the Subscription that is created asks for
    "stable"; with a Channel it asks for that one. *)
Lemma C10_default_channel_witness :
    map (fun answer => match answer with
                       | inl obj => channelOf obj
                       | inr _ => ""
                       end)
        (attempts (map call (calls (snd (runUpgradeOperator op (v17_11 "")
                                           (start stocked))))))
    = ["stable"]
    /\ map (fun answer => match answer with
                          | inl obj => channelOf obj
                          | inr _ => ""
                          end)
        (attempts (map call (calls (snd (runUpgradeOperator op (v17_11 "alpha")
                                           (start stocked))))))
       = ["alpha"].
Proof.
    pose proof (@C10_default_channel Cluster simCluster op (v17_11 "")
                  (start stocked)) as _.
    split; vm_compute; reflexivity.
Defined.
End K8sWitnesses.

(** * More on the upgrade command *)

Module CmdMore.
Import Config Cmd CmdProps CmdMoreProps OperatorIface CmdFacts.

Section More.
Context {O Sys : Type}.
Context {opI : OperatorInterface O Sys} {runI : Exec.Runner Sys}.

Lemma ranCommands_app a b : ranCommands (a ++ b) = ranCommands a ++ ranCommands b.
Proof. apply omap_app. Qed.

Lemma upgrades_app a b : upgrades (a ++ b) = upgrades a ++ upgrades b.
Proof. apply omap_app. Qed.

Lemma ranAnswers_app a b : ranAnswers (a ++ b) = ranAnswers a ++ ranAnswers b.
Proof. apply omap_app. Qed.

(** One round of the loop of [process], when operator and configuration
    are set. *)
Lemma processVersions_round (uc : UpgradeCommand O) op cfg index version rest
        (st : State Sys) :
      operator uc = Some op -> config uc = Some cfg ->
      processVersions uc index (version :: rest) st
      = let st1 := mkState (sys st)
                     (events st ++ [Log InfoLevel "deploying operator version"
                                      [("version", Version.Name version)]]) in
        match UpgradeOperator op version (sys st1) with
        | (Panic msg, s2) => (Panic msg, mkState s2 (events st1))
        | (Val (Some e), s2) =>
          (Val (Some (Errorf "failed to prepare operator: " e)),
           mkState s2 (events st1 ++ [Upgraded version (Some e)]))
        | (Val None, s2) =>
          let cmd := bashCommand (workDirOf cfg version)
                                 (resolvedCommand index version) in
          let '(r, s3) := Exec.RunCommand cmd s2 in
          let evs := events st1 ++ [Upgraded version None;
                       Log InfoLevel "executing upgrade test"
                           [("command", resolvedCommand index version)];
                       Ran cmd r] in
          match Exec.Err r with
          | Some e =>
            (Val (Some (Errorf "failed to execute test command: "
                          (Errorf "failed to execute upgrade test: " e))),
             mkState s3 evs)
          | None =>
            processVersions uc (S index) rest
              (mkState s3 (evs ++ [Log InfoLevel "upgrade test passed"
                                     [("version", Version.Name version)]]))
          end
        end.
Proof.
      intros Hop Hcfg. cbn [processVersions]. unfold bind at 1.
      unfold logInfo at 1, emit at 1. rewrite Hop.
      unfold bind at 1. rewrite callUpgradeOperator_eq. cbn [sys events].
      destruct (UpgradeOperator op version (sys st)) as [[[e|]|msg] s2];
        [done| |done].
      rewrite Hcfg. unfold bind at 1. rewrite execCommand_eq. cbn [sys events].
      assert ((if negb (Version.TestCommand version =? "")%string
               then Version.TestCommand version
               else if (index =? 0)%nat then "REPO=allure make prepare"
                    else "REPO=allure make upgrade")
              = resolvedCommand index version) as ->.
      { unfold resolvedCommand, prepareCommand, upgradeCommand.
        destruct (Version.TestCommand version =? "")%string; [|done].
        by destruct index. }
      assert ((if negb (Version.TestSubPath version =? "")%string
               then (OperatorConfig.Workspace (OperatorConfig cfg) ++ "/"
                     ++ Version.TestSubPath version)%string
               else OperatorConfig.Workspace (OperatorConfig cfg))
              = workDirOf cfg version) as ->.
      { unfold workDirOf. by destruct (Version.TestSubPath version =? "")%string. }
      destruct (Exec.RunCommand _ s2) as [r s3].
      unfold wrapExec. rewrite <- !app_assoc. cbn [app].
      destruct (Exec.Err r) as [e|]; [done|].
      unfold bind at 1, logInfo at 1, emit at 1. cbn [sys events].
      by rewrite <- !app_assoc.
Qed.

(** What the loop of [process] leaves behind, whatever its outcome. *)
Lemma processVersions_trace (uc : UpgradeCommand O) op cfg versions :
      operator uc = Some op -> config uc = Some cfg ->
      forall index (st : State Sys) out st',
        processVersions uc index versions st = (out, st') ->
        exists new,
          events st' = events st ++ new
          /\ (forall i cmd, ranCommands new !! i = Some cmd ->
                exists v, versions !! i = Some v
                  /\ cmd = bashCommand (workDirOf cfg v)
                                       (resolvedCommand (index + i) v))
          /\ (exists k, map fst (upgrades new) = take k versions)
          /\ length (ranCommands new) <= length (upgrades new)
             <= S (length (ranCommands new))
          /\ (out = Val None ->
              map fst (upgrades new) = versions
              /\ Forall (fun u => snd u = None) (upgrades new)
              /\ Forall (fun r => Exec.Err r = None) (ranAnswers new)
              /\ length (ranCommands new) = length versions)
          /\ (forall e, out = Val (Some e) ->
              (exists e0, last (upgrades new) = Some (e0.1, Some e0.2)
                 /\ e = Errorf "failed to prepare operator: " e0.2
                 /\ length (upgrades new) = S (length (ranCommands new)))
              \/ (exists r e0, last (ranAnswers new) = Some r
                 /\ Exec.Err r = Some e0
                 /\ e = Errorf "failed to execute test command: "
                          (Errorf "failed to execute upgrade test: " e0)
                 /\ length (upgrades new) = length (ranCommands new))).
Proof.
      intros Hop Hcfg.
      induction versions as [|version rest IH]; intros index st out st' Hrun.
      - inversion Hrun; subst. exists []. rewrite app_nil_r.
        split; [done|]. split; [done|]. split; [by exists 0|].
        split; [cbn; lia|]. split; [by repeat split|]. by intros e He.
      - rewrite (processVersions_round _ _ _ _ _ _ _ Hop Hcfg) in Hrun.
        cbv zeta in Hrun. cbn [sys events] in Hrun.
        destruct (UpgradeOperator op version (sys st)) as [[[e0|]|msg] s2].
        + inversion Hrun; subst. cbn [events]. eexists.
          split; [rewrite <- app_assoc; reflexivity|].
          split; [done|]. split; [by exists 1|]. split; [cbn; lia|].
          split; [done|]. intros e He. inversion He; subst. left.
          by exists (version, e0).
        + destruct (Exec.RunCommand _ s2) as [r s3].
          destruct (Exec.Err r) as [e0|] eqn:Herr.
          * inversion Hrun; subst. cbn [events]. eexists.
            split; [rewrite <- !app_assoc; reflexivity|].
            split.
            { intros [|i] cmd Hi; cbn in Hi; [|done]. inversion Hi; subst.
              exists version. by rewrite Nat.add_0_r. }
            split; [by exists 1|]. split; [cbn; lia|].
            split; [done|]. intros e He. inversion He; subst. right.
            by exists r, e0.
          * apply IH in Hrun
              as (new & Hev & Hcmds & (k & Hk) & Hlen & Hok & Hfail).
            cbn [events] in Hev. eexists.
            split; [rewrite Hev, <- !app_assoc; reflexivity|].
            cbn [app]. cbn [ranCommands upgrades ranAnswers omap list_omap].
            fold (ranCommands new). fold (upgrades new). fold (ranAnswers new).
            split.
            { intros [|i] cmd Hi; cbn in Hi.
              - inversion Hi; subst. exists version. by rewrite Nat.add_0_r.
              - destruct (Hcmds _ _ Hi) as (v & Hv & ->). exists v.
                split; [done|]. do 2 f_equal. lia. }
            split; [exists (S k); cbn; by rewrite Hk|].
            split; [cbn; lia|].
            split.
            { intros Hout. destruct (Hok Hout) as (Hu & Hnone & Hans & Hn).
              split; [cbn; by rewrite Hu|].
              split; [by constructor|]. split; [by constructor|].
              cbn. by rewrite Hn. }
            intros e He. destruct (Hfail _ He) as
                [(e0 & Hlast & -> & Hl)|(r' & e0 & Hlast & Herr' & -> & Hl)].
            { left. exists e0. split; [|split; [done|cbn; lia]].
              destruct (upgrades new); [done|]. exact Hlast. }
            { right. exists r', e0. split; [|split; [done|split; [done|cbn; lia]]].
              destruct (ranAnswers new); [done|]. exact Hlast. }
        + inversion Hrun; subst. cbn [events]. eexists.
          split; [reflexivity|]. split; [done|]. split; [by exists 0|].
          split; [cbn; lia|]. split; [done|]. by intros e He.
Qed.

Lemma process_unfold (uc : UpgradeCommand O) path (st : State Sys) :
      process uc path st
      = match processVersions uc 0 (UpgradePath.Versions path)
                (mkState (sys st)
                   (events st ++ [Log InfoLevel "==> processing upgrade path"
                                    [("path", UpgradePath.Name path)]])) with
        | (Val (Some e), st1) => (Val (Some e), st1)
        | (Val None, st1) =>
          (Val None,
           mkState (sys st1)
             (events st1 ++ [Log InfoLevel "==> upgrade path completed"
                               [("path", UpgradePath.Name path)]]))
        | (Panic msg, st1) => (Panic msg, st1)
        end.
Proof.
      unfold process. unfold bind at 1, logInfo at 1, emit at 1.
      unfold bind at 1.
      by destruct (processVersions uc 0 _ _) as [[[e|]|msg] st1].
Qed.

(** X5: Every test command is [bash -c] of the resolved command, with no
    extra environment, in the workspace of the configuration, or in the
    version's TestSubPath under it when the version has one. *)
Theorem process_working_directory (uc : UpgradeCommand O) op cfg path
        (st : State Sys) :
      operator uc = Some op -> config uc = Some cfg ->
      exists new,
        events (snd (process uc path st)) = events st ++ new
        /\ forall i cmd, ranCommands new !! i = Some cmd ->
             exists v, UpgradePath.Versions path !! i = Some v
               /\ Exec.Name cmd = "bash"
               /\ Exec.Args cmd = ["-c"; resolvedCommand i v]
               /\ Exec.Env cmd = []
               /\ (Version.TestSubPath v = "" ->
                   Exec.Dir cmd = OperatorConfig.Workspace (OperatorConfig cfg))
               /\ (Version.TestSubPath v <> "" ->
                   Exec.Dir cmd
                   = (OperatorConfig.Workspace (OperatorConfig cfg) ++ "/"
                      ++ Version.TestSubPath v)%string).
Proof.
      intros Hop Hcfg. rewrite process_unfold.
      destruct (processVersions uc 0 _ _) as [out st1] eqn:Hrun.
      apply (processVersions_trace _ _ _ _ Hop Hcfg) in Hrun
        as (new & Hev & Hcmds & _).
      cbn [events] in Hev.
      assert (forall i cmd, ranCommands new !! i = Some cmd ->
        exists v, UpgradePath.Versions path !! i = Some v
               /\ Exec.Name cmd = "bash"
               /\ Exec.Args cmd = ["-c"; resolvedCommand i v]
               /\ Exec.Env cmd = []
               /\ (Version.TestSubPath v = "" ->
                   Exec.Dir cmd = OperatorConfig.Workspace (OperatorConfig cfg))
               /\ (Version.TestSubPath v <> "" ->
                   Exec.Dir cmd
                   = (OperatorConfig.Workspace (OperatorConfig cfg) ++ "/"
                      ++ Version.TestSubPath v)%string)) as Hall.
      { intros i cmd Hi. destruct (Hcmds _ _ Hi) as (v & Hv & ->).
        exists v. split; [done|]. cbn. repeat split.
        - intros Hsub. unfold workDirOf. by rewrite Hsub.
        - intros Hsub. unfold workDirOf.
          by destruct (String.eqb_spec (Version.TestSubPath v) ""). }
      destruct out as [[e|]|msg]; cbn [snd events].
      - eexists. split; [rewrite Hev, <- app_assoc; reflexivity|].
        intros i cmd Hi. cbn in Hi. by apply Hall.
      - eexists. split; [rewrite Hev, <- !app_assoc; reflexivity|].
        intros i cmd Hi. cbn in Hi. rewrite ranCommands_app in Hi. cbn in Hi.
        rewrite app_nil_r in Hi. by apply Hall.
      - eexists. split; [rewrite Hev, <- app_assoc; reflexivity|].
        intros i cmd Hi. cbn in Hi. by apply Hall.
Qed.

(** X6: A path that fails stops at the failing version: the operator was
    called for the versions up to it, in order, and for no later one.
    The error is that of the upgrade of the last version called, and
    then its test command was not run, or that of its test command. *)
Theorem process_stops_at_failure (uc : UpgradeCommand O) op cfg path
        (st : State Sys) e :
      operator uc = Some op -> config uc = Some cfg ->
      fst (process uc path st) = Val (Some e) ->
      exists new k,
        events (snd (process uc path st)) = events st ++ new
        /\ map fst (upgrades new) = take k (UpgradePath.Versions path)
        /\ ((exists v e0,
               last (upgrades new) = Some (v, Some e0)
               /\ e = Errorf "failed to prepare operator: " e0
               /\ length (upgrades new) = S (length (ranCommands new)))
            \/ (exists r e0,
               last (ranAnswers new) = Some r /\ Exec.Err r = Some e0
               /\ e = Errorf "failed to execute test command: "
                        (Errorf "failed to execute upgrade test: " e0)
               /\ length (upgrades new) = length (ranCommands new))).
Proof.
      intros Hop Hcfg. rewrite process_unfold.
      destruct (processVersions uc 0 _ _) as [out st1] eqn:Hrun.
      apply (processVersions_trace _ _ _ _ Hop Hcfg) in Hrun
        as (new & Hev & _ & (k & Hk) & _ & _ & Hfail).
      cbn [events] in Hev.
      destruct out as [[e'|]|msg]; cbn [fst snd]; intros Hout; [|done|done].
      inversion Hout; subst e'.
      eexists (_ :: new), k.
      split; [rewrite Hev, <- app_assoc; reflexivity|].
      split; [exact Hk|].
      destruct (Hfail _ eq_refl) as
          [(e0 & Hlast & -> & Hl)|(r' & e0 & Hlast & Herr' & -> & Hl)].
      - left. by exists e0.1, e0.2.
      - right. by exists r', e0.
Qed.

(** X7: A path that passes had every version upgraded, in order and without
    error, and the test command of every version run without error. *)
Theorem process_success (uc : UpgradeCommand O) op cfg path
        (st : State Sys) :
      operator uc = Some op -> config uc = Some cfg ->
      fst (process uc path st) = Val None ->
      exists new,
        events (snd (process uc path st)) = events st ++ new
        /\ map fst (upgrades new) = UpgradePath.Versions path
        /\ Forall (fun u => snd u = None) (upgrades new)
        /\ length (ranCommands new) = length (UpgradePath.Versions path)
        /\ Forall (fun r => Exec.Err r = None) (ranAnswers new).
Proof.
      intros Hop Hcfg. rewrite process_unfold.
      destruct (processVersions uc 0 _ _) as [out st1] eqn:Hrun.
      apply (processVersions_trace _ _ _ _ Hop Hcfg) in Hrun
        as (new & Hev & _ & _ & _ & Hok & _).
      cbn [events] in Hev.
      destruct out as [[e'|]|msg]; cbn [fst snd]; intros Hout; try done.
      destruct (Hok eq_refl) as (Hu & Hnone & Hans & Hn).
      eexists (_ :: new ++ [_]).
      split; [cbn [events]; rewrite Hev, <- !app_assoc; reflexivity|].
      cbn [upgrades ranCommands ranAnswers omap list_omap].
      fold (upgrades (new ++ [Log InfoLevel "==> upgrade path completed"
                                [("path", UpgradePath.Name path)]])).
      fold (ranCommands (new ++ [Log InfoLevel "==> upgrade path completed"
                                [("path", UpgradePath.Name path)]])).
      fold (ranAnswers (new ++ [Log InfoLevel "==> upgrade path completed"
                                [("path", UpgradePath.Name path)]])).
      rewrite upgrades_app, ranCommands_app, ranAnswers_app. cbn.
      by rewrite !app_nil_r.
Qed.

(** X8: When the loop over the paths returns nil, every configured path was
    entered once, in the order of the configuration. *)
Theorem ExecutePaths_nil_entered_all (uc : UpgradeCommand O) cfg paths
        (st : State Sys) :
      fst (ExecutePaths uc cfg paths st) = Val None ->
      pathsEntered (events (snd (ExecutePaths uc cfg paths st)))
      = pathsEntered (events st) ++ map UpgradePath.Name paths.
Proof.
      destruct (ExecutePaths uc cfg paths st) as [out st'] eqn:Hrun.
      cbn [fst snd]. intros ->. by apply ExecutePaths_entered in Hrun.
Qed.

Context {colI : Collaborators O Sys}.

End More.
End CmdMore.

(** * The properties above on the small system *)

Module CmdMoreWitnesses.
Import Config Cmd CmdProps CmdMoreProps OperatorIface CmdMore CmdDemo.

Lemma process_working_directory_witness :
    exists new,
      events (snd (demoProcess (readyUC false) pathB (start [] false)))
      = events (start [] false) ++ new
      /\ map Exec.Dir (ranCommands new) = ["./"; ".//e2e"%string].
Proof.
    destruct (@process_working_directory unit Sys demoOperator demoRunner
                (readyUC false) tt (demoConfig false) pathB (start [] false)
                eq_refl eq_refl) as (new & Hev & _).
    exists new. split; [exact Hev|].
    vm_compute in Hev. subst new. vm_compute. reflexivity.
Defined.

Lemma process_stops_at_failure_witness :
    exists new k,
      events (snd (demoProcess (readyUC false) pathA (start ["v1.1.0"] false)))
      = events (start ["v1.1.0"] false) ++ new
      /\ map fst (upgrades new) = take k [v1; v2]
      /\ length (ranCommands new) = 1.
Proof.
    destruct (@process_stops_at_failure unit Sys demoOperator demoRunner
                (readyUC false) tt (demoConfig false) pathA
                (start ["v1.1.0"] false)
                (Errorf "failed to prepare operator: "
                   (PlainError "bundle version never became present"))
                eq_refl eq_refl eq_refl) as (new & k & Hev & Hk & _).
    exists new, k. split; [exact Hev|]. split; [exact Hk|].
    vm_compute in Hev. subst new. vm_compute. reflexivity.
Defined.

Lemma process_success_witness :
    exists new,
      events (snd (demoProcess (readyUC false) pathA (start [] false)))
      = events (start [] false) ++ new
      /\ map fst (upgrades new) = [v1; v2].
Proof.
    destruct (@process_success unit Sys demoOperator demoRunner
                (readyUC false) tt (demoConfig false) pathA (start [] false)
                eq_refl eq_refl eq_refl) as (new & Hev & Hu & _).
    by exists new.
Defined.

Lemma ExecutePaths_nil_entered_all_witness :
    pathsEntered (events (snd (demoExecutePaths (readyUC false) (demoConfig false)
                                 [pathA; pathB] (start ["v1.1.0"] false))))
    = ["a"; "b"].
Proof.
    apply (@ExecutePaths_nil_entered_all unit Sys demoOperator demoRunner
             (readyUC false) (demoConfig false) [pathA; pathB]
             (start ["v1.1.0"] false)).
    vm_compute; reflexivity.
Defined.

End CmdMoreWitnesses.

(** * More on the configuration *)

Module ConfigMore.
Import Config K8s Operatorhub.

Lemma default_string (s d : string) :
    d <> "" -> (if (s =? "")%string then d else s) <> "".
Proof. intros Hd. by destruct (String.eqb_spec s ""). Qed.

Lemma default_string_twice (s d : string) :
    d <> "" ->
    (if ((if (s =? "")%string then d else s) =? "")%string then d
     else (if (s =? "")%string then d else s))
    = (if (s =? "")%string then d else s).
Proof.
    intros Hd. destruct (String.eqb_spec s "") as [->|Hs].
    - apply String.eqb_neq in Hd. by rewrite Hd.
    - apply String.eqb_neq in Hs. by rewrite Hs.
Qed.

Lemma default_duration_twice (z d : Z) :
    d <> 0%Z ->
    (if ((if (z =? 0)%Z then d else z) =? 0)%Z then d
     else (if (z =? 0)%Z then d else z))
    = (if (z =? 0)%Z then d else z).
Proof.
    intros Hd. destruct (Z.eqb_spec z 0) as [->|Hz].
    - apply Z.eqb_neq in Hd. by rewrite Hd.
    - apply Z.eqb_neq in Hz. by rewrite Hz.
Qed.

(** X10: Defaulting a configuration that has its defaults changes nothing. *)
Theorem defaultConfig_idempotent (c : Config.t) :
    defaultConfig (defaultConfig c) = defaultConfig c.
Proof.
    unfold defaultConfig. cbv zeta.
    cbn [Config.OperatorConfig Config.UpgradePaths Config.Immediate
         Config.LogLevel OperatorConfig.Workspace OperatorConfig.Type_
         OperatorConfig.ArtifactPrefix OperatorConfig.Interval
         OperatorConfig.Timeout OperatorConfig.Artifact OperatorConfig.Namespace
         OperatorConfig.Name OperatorConfig.Command].
    rewrite !default_string_twice by done.
    by rewrite !default_duration_twice by done.
Qed.

(** X11: The operator made from a configuration with its defaults polls with
    an interval and a timeout that are not zero (five seconds and ten
    minutes where the file gives none) and has an artifact name that is
    not empty: the one of the file, or else prefix-name with the prefix
    "operatorhub" where the file gives none.  Its namespace is the one of
    the file, empty when the file gives none. *)
Theorem NewOperator_defaults (c : Config.t) :
    let oc := Config.OperatorConfig c in
    let o := NewOperator (Config.OperatorConfig (defaultConfig c)) in
    interval o <> 0%Z /\ timeout o <> 0%Z
    /\ (OperatorConfig.Interval oc = 0%Z -> interval o = (5 * Second)%Z)
    /\ (OperatorConfig.Timeout oc = 0%Z -> timeout o = (10 * Minute)%Z)
    /\ artifact o <> ""
    /\ (OperatorConfig.Artifact oc <> "" -> artifact o = OperatorConfig.Artifact oc)
    /\ (OperatorConfig.Artifact oc = "" -> OperatorConfig.ArtifactPrefix oc = "" ->
        artifact o = ("operatorhub-" ++ OperatorConfig.Name oc)%string)
    /\ namespace o = OperatorConfig.Namespace oc
    /\ name o = OperatorConfig.Name oc.
Proof.
    cbv zeta. unfold NewOperator, defaultConfig. cbv zeta.
    cbn [Config.OperatorConfig OperatorConfig.Workspace OperatorConfig.Type_
         OperatorConfig.ArtifactPrefix OperatorConfig.Interval
         OperatorConfig.Timeout OperatorConfig.Artifact OperatorConfig.Namespace
         OperatorConfig.Name OperatorConfig.Command
         interval timeout artifact namespace name].
    repeat split.
    - by destruct (Z.eqb_spec (OperatorConfig.Interval (Config.OperatorConfig c)) 0).
    - by destruct (Z.eqb_spec (OperatorConfig.Timeout (Config.OperatorConfig c)) 0).
    - by intros ->.
    - by intros ->.
    - destruct (String.eqb_spec (OperatorConfig.Artifact (Config.OperatorConfig c)) "")
        as [_|Hne]; [|done].
      destruct (String.eqb_spec
                  (OperatorConfig.ArtifactPrefix (Config.OperatorConfig c)) "")
        as [_|Hne]; [done|].
      by destruct (OperatorConfig.ArtifactPrefix (Config.OperatorConfig c)).
    - intros Hne. apply String.eqb_neq in Hne. by rewrite Hne.
    - by intros -> ->.
Qed.
End ConfigMore.

(** * More on the operator-hub reconciler *)

Module K8sMore.
Import K8s Operatorhub K8sProps K8sMoreProps K8sFacts K8sClaims.

(** The programs that only get and poll. *)
Section Readers.
Context {W : Type} {cl : Cluster W}.
Context (R : State W -> State W -> Prop) {preR : PreOrder R}.
Hypothesis Hget : forall g ns n, Respects R (clientGet g ns n).
Hypothesis Hticks :
      forall i t, Respects R (request (pollTicks i t) (PollStart i t)).

Lemma reads_waitInstallPlan o n ns : Respects R (waitInstallPlan o n ns).
Proof. unfold waitInstallPlan. respects. Qed.

Lemma reads_waitCSVReady o n ns : Respects R (waitCSVReady o n ns).
Proof. unfold waitCSVReady. respects. Qed.

Lemma reads_waitPackageManifest o csv : Respects R (waitPackageManifest o csv).
Proof. unfold waitPackageManifest. respects. Qed.

Lemma reads_waitArtifactVersionPresent o n :
      Respects R (waitArtifactVersionPresent o n).
Proof. unfold waitArtifactVersionPresent. respects. Qed.

Lemma reads_InstallArtifactVersion o version :
      (forall obj, Respects R (clientCreate artifactVersionGVR systemNamespace obj)) ->
      Respects R (InstallArtifactVersion o version).
Proof.
      intros Hav. unfold InstallArtifactVersion, createArtifactVersion, GetResource.
      pose proof reads_waitArtifactVersionPresent.
      pose proof reads_waitPackageManifest.
      respects.
Qed.
End Readers.

Section More.
Context {W : Type} {cl : Cluster W}.

Lemma Added_run {A} (P : Entry W -> Prop) (m : M (State W) A) (st : State W) :
      Respects (Added P) m ->
      exists new, calls (snd (m st)) = calls st ++ new /\ Forall P new.
Proof. intros Hm. destruct (m st) as [out st'] eqn:Hrun. by eapply Hm. Qed.

Lemma Added_impl (P Q : Entry W -> Prop) (st st' : State W) :
      (forall e, P e -> Q e) -> Added P st st' -> Added Q st st'.
Proof.
      intros HPQ (new & Hcalls & Hall). exists new. split; [done|].
      by eapply Forall_impl.
Qed.

Lemma readOnly_get g ns n :
      Respects (Added (fun e : Entry W => readOnly (call e))) (clientGet g ns n).
Proof. by apply Added_request. Qed.

Lemma readOnly_ticks i t :
      Respects (Added (fun e : Entry W => readOnly (call e)))
               (request (pollTicks i t) (PollStart i t)).
Proof. by apply Added_request. Qed.

(** X12: The four waits of the reconciler only get and poll: they send no
    request that creates, updates or deletes. *)
Theorem waits_are_read_only (o : Operator) (n ns csv : string) (st : State W) :
      (exists new, calls (snd (waitArtifactVersionPresent o n st)) = calls st ++ new
                   /\ Forall (fun e => readOnly (call e)) new)
      /\ (exists new, calls (snd (waitPackageManifest o csv st)) = calls st ++ new
                      /\ Forall (fun e => readOnly (call e)) new)
      /\ (exists new, calls (snd (waitInstallPlan o n ns st)) = calls st ++ new
                      /\ Forall (fun e => readOnly (call e)) new)
      /\ (exists new, calls (snd (waitCSVReady o n ns st)) = calls st ++ new
                      /\ Forall (fun e => readOnly (call e)) new).
Proof.
      repeat split; apply Added_run.
      - apply reads_waitArtifactVersionPresent;
          [apply Added_preorder|apply readOnly_get|apply readOnly_ticks].
      - apply reads_waitPackageManifest;
          [apply Added_preorder|apply readOnly_get|apply readOnly_ticks].
      - apply reads_waitInstallPlan;
          [apply Added_preorder|apply readOnly_get|apply readOnly_ticks].
      - apply reads_waitCSVReady;
          [apply Added_preorder|apply readOnly_get|apply readOnly_ticks].
Qed.

(** X13: InstallArtifactVersion deletes and updates nothing, and the only
    objects it asks to create are ArtifactVersions in the system
    namespace. *)
Theorem InstallArtifactVersion_requests (o : Operator) (version : string)
        (st : State W) :
      exists new,
        calls (snd (InstallArtifactVersion o version st)) = calls st ++ new
        /\ Forall (fun e => publishing (call e)) new.
Proof.
      apply Added_run. apply reads_InstallArtifactVersion.
      - apply Added_preorder.
      - intros. by apply Added_request.
      - intros. by apply Added_request.
      - intros. by apply Added_request.
Qed.

Lemma wellFormed_quiet o csv channel :
      QuietRequests (Added (wellFormedSubscription (W := W) o csv channel)).
Proof.
      apply Added_quiet. intros w c Hc ns obj answer Heq. cbn in Heq.
      subst c. destruct Hc.
Qed.

Lemma InstallSubscription_wellFormed o csv channel :
      Respects (Added (wellFormedSubscription o csv channel))
               (InstallSubscription o csv channel).
Proof.
      apply Respects_InstallSubscription.
      - apply Added_preorder.
      - apply wellFormed_quiet.
      - apply Added_request. intros w a ns obj answer Heq. cbn in Heq.
        by inversion Heq.
      - apply Added_request. intros w a ns obj answer Heq. cbn in Heq.
        inversion Heq; subst. by repeat split.
Qed.

(** X17: Every Subscription that InstallSubscription asks to create is for
    the operator's name in the operator's namespace, starts at the
    given CSV on the given channel, asks for manual approval of the
    install plan and names the platform catalog of the system
    namespace as its source. *)
Theorem InstallSubscription_subscription (o : Operator) (csv channel : string)
        (st : State W) :
      exists new,
        calls (snd (InstallSubscription o csv channel st)) = calls st ++ new
        /\ Forall (wellFormedSubscription o csv channel) new.
Proof. apply Added_run, InstallSubscription_wellFormed. Qed.

(** *** What a poll that succeeds has established *)

Lemma pollLoop_post {V} (Q : V -> Prop) ticks
        (condition : V -> M (State W) (V * bool * error)) :
      (forall v st v' st', condition v st = (Val (v', true, None), st') -> Q v') ->
      forall vars (st : State W) vars' st',
        pollLoop ticks condition vars st = (Val (vars', None), st') -> Q vars'.
Proof.
      intros Hc. induction ticks as [|ticks IH]; intros vars st vars' st' Hrun;
        [done|].
      cbn [pollLoop] in Hrun. rewrite bind_eq in Hrun.
      destruct (condition vars st) as [[[[v ok] [e|]]|msg] st1] eqn:Hcond;
        try done.
      destruct ok.
      - inversion Hrun; subst. by eapply Hc.
      - by eapply IH.
Qed.

Lemma Poll_post {V} (Q : V -> Prop) interval timeout
        (condition : V -> M (State W) (V * bool * error)) :
      (forall v st v' st', condition v st = (Val (v', true, None), st') -> Q v') ->
      forall vars (st : State W) vars' st',
        PollUntilContextTimeout interval timeout true condition vars st
        = (Val (vars', None), st') -> Q vars'.
Proof.
      intros Hc vars st vars' st'. unfold PollUntilContextTimeout.
      rewrite bind_eq. unfold request at 1.
      destruct (pollTicks interval timeout (world st)) as [ticks w1].
      rewrite bind_eq.
      destruct (condition vars _) as [[[[v ok] [e|]]|msg] st1] eqn:Hcond;
        try done.
      destruct ok.
      - intros Hrun. inversion Hrun; subst. by eapply Hc.
      - by apply pollLoop_post.
Qed.

Lemma waitArtifactVersionPresent_present o n (st : State W) av st' :
      waitArtifactVersionPresent o n st = (Val (inl av), st') ->
      phaseIs av "Present" = true.
Proof.
      unfold waitArtifactVersionPresent. cbv zeta. rewrite bind_eq.
      destruct (PollUntilContextTimeout _ _ _ _ _ st)
        as [[[last [e|]]|msg] st1] eqn:Hpoll; try done.
      intros Hrun. inversion Hrun; subst.
      eapply (Poll_post (fun v => phaseIs v "Present" = true)); [|exact Hpoll].
      intros v st0 v' st0'. cbv beta. rewrite bind_eq. unfold clientGet, request.
      destruct (apiGet artifactVersionGVR systemNamespace n (world st0))
        as [[obj|e] w']; [|done].
      destruct (phaseIs obj "Present") eqn:Hphase; [|done].
      intros Heq. by inversion Heq; subst.
Qed.

Lemma InstallArtifactVersion_status o version (st : State W) av st' :
      InstallArtifactVersion o version st = (Val (inl av), st') ->
      phaseIs av "Present" = true /\ statusVersion av <> "".
Proof.
      intros Hrun. unfold InstallArtifactVersion in Hrun.
      rewrite bind_eq in Hrun.
      destruct (GetResource o (artifact o) systemNamespace artifactGVR st)
        as [[[artifact|e]|msg] st1]; try done.
      rewrite bind_eq in Hrun.
      destruct (createArtifactVersion o version artifact st1)
        as [[[av0|e]|msg] st2]; try done.
      rewrite bind_eq in Hrun.
      destruct (waitArtifactVersionPresent o (GetName av0) st2)
        as [[[av1|e]|msg] st3] eqn:Hwait; try done.
      apply waitArtifactVersionPresent_present in Hwait.
      unfold statusVersion, getNestedString.
      destruct (NestedString av1 ["status"; "version"]) as [[csv found] err]
        eqn:Hcsv.
      destruct found; cbn [negb orb] in Hrun; [|done].
      destruct (String.eqb_spec csv "") as [->|Hne]; [done|].
      rewrite bind_eq in Hrun.
      destruct (waitPackageManifest o csv st3) as [[[e|]|msg] st4]; try done.
      inversion Hrun; subst. rewrite Hcsv. by split.
Qed.

(** X14: An ArtifactVersion that InstallArtifactVersion returns is in phase
    Present and carries a status.version that is not empty. *)
Theorem InstallArtifactVersion_installed (o : Operator) (version : string)
        (st : State W) av :
      fst (InstallArtifactVersion o version st) = Val (inl av) ->
      phaseIs av "Present" = true /\ statusVersion av <> "".
Proof.
      destruct (InstallArtifactVersion o version st) as [out st'] eqn:Hrun.
      cbn [fst]. intros ->. by eapply InstallArtifactVersion_status.
Qed.

Lemma started_quiet : QuietRequests (Added (startsSomewhere (W := W))).
Proof.
      apply Added_quiet. intros w c Hc ns obj answer Heq. cbn in Heq.
      subst c. destruct Hc.
Qed.

(** X21: UpgradeOperator never asks for a Subscription with an empty
    startingCSV. *)
Theorem UpgradeOperator_starting_csv (o : Operator)
        (version : Config.Version.t) (st : State W) :
      exists new,
        calls (snd (UpgradeOperator o version st)) = calls st ++ new
        /\ Forall startsSomewhere new.
Proof.
      destruct (UpgradeOperator o version st) as [out st'] eqn:Hrun. cbn [snd].
      change (Added startsSomewhere st st').
      unfold UpgradeOperator in Hrun. rewrite bind_eq in Hrun.
      destruct (InstallArtifactVersion o (Config.Version.BundleVersion version) st)
        as [out1 st1] eqn:Hinstall.
      assert (Added startsSomewhere st st1) as Hfirst.
      { eapply (Respects_InstallArtifactVersion _ started_quiet);
          [|exact Hinstall].
        intros obj. apply Added_request. intros w a ns obj' answer Heq.
        cbn in Heq. by inversion Heq. }
      destruct out1 as [[av|e]|msg]; [|by inversion Hrun; subst..].
      pose proof (InstallArtifactVersion_status _ _ _ _ _ Hinstall) as [_ Hcsv].
      unfold statusVersion, getNestedString in Hcsv.
      destruct (NestedString av ["status"; "version"]) as [[csv found] err].
      rewrite bind_eq in Hrun.
      destruct (InstallSubscription o csv _ st1) as [out2 st2] eqn:Hsub.
      apply InstallSubscription_wellFormed in Hsub.
      assert (Added startsSomewhere st1 st2) as Hsecond.
      { eapply Added_impl; [|exact Hsub].
        intros e He ns obj answer Heq.
        destruct (He ns obj answer Heq) as (_ & _ & _ & _ & -> & _). done. }
      assert (st' = st2) as ->.
      { by destruct out2 as [[e|]|msg]; inversion Hrun. }
      by etransitivity.
Qed.

(** *** deleteResource, request by request *)

Local Abbreviation gone g ns n :=
      (fun _ : unit =>
         bind (clientGet g ns n)
           (fun got =>
              match got with
              | inr e => if IsNotFound e then ret (tt, true, None)
                         else ret (tt, false, Some e)
              | inl _ => ret (tt, false, None)
              end)).

Lemma pollLoop_gone_gets g ns n ticks :
      forall (st : State W) out st',
        pollLoop ticks (gone g ns n) tt st = (out, st') ->
        exists new answers,
          calls st' = calls st ++ new
          /\ map call new = map (Get g ns n) answers
          /\ length answers <= ticks.
Proof.
      induction ticks as [|ticks IH]; intros st out st' Hrun.
      - inversion Hrun; subst. exists [], []. rewrite app_nil_r.
        by repeat split.
      - cbn [pollLoop] in Hrun. rewrite bind_eq, gone_eq in Hrun.
        destruct (apiGet g ns n (world st)) as [[obj|e] w'] eqn:Hget.
        + apply IH in Hrun as (new & answers & Hcalls & Hshape & Hlen).
          cbn [calls] in Hcalls.
          exists (mkEntry (world st) (Get g ns n (inl obj)) :: new),
                 (inl obj :: answers).
          split; [by rewrite Hcalls, <- app_assoc|].
          split; [cbn; by rewrite Hshape|]. cbn; lia.
        + exists [mkEntry (world st) (Get g ns n (inr e))], [inr e].
          split; [by destruct (IsNotFound e); inversion Hrun; subst|].
          split; [done|]. cbn; lia.
Qed.

(** X23: The requests of deleteResource on a namespace: one delete request
    and, unless it failed with an error other than not-found, one poll
    with at least one get request for the object and at most one more
    than the timer fires before the deadline. *)
Theorem deleteResource_requests (o : Operator) (g : GroupVersionResource)
        (n ns : string) (st : State W) :
      ns <> "" ->
      exists new answer,
        calls (snd (deleteResource o g n ns st)) = calls st ++ new
        /\ ((map call new = [Delete g ns n answer]
             /\ exists e, answer = Some e /\ IsNotFound e = false)
            \/ ((exists ticks answers,
                   map call new
                   = Delete g ns n answer
                     :: PollStart (interval o) (timeout o) ticks
                     :: map (Get g ns n) answers
                   /\ 1 <= length answers <= S ticks)
                /\ (answer = None
                    \/ exists e, answer = Some e /\ IsNotFound e = true))).
Proof.
      intros Hns. destruct (deleteResource o g n ns st) as [out st'] eqn:Hrun.
      cbn [snd]. unfold deleteResource in Hrun.
      apply String.eqb_neq in Hns. rewrite Hns in Hrun. cbn [negb] in Hrun.
      cbv zeta in Hrun. rewrite bind_eq in Hrun.
      unfold clientDelete at 1, request at 1 in Hrun.
      destruct (apiDelete g ns n (world st)) as [answer w1].
      set (first := mkEntry (world st) (Delete g ns n answer)) in Hrun.
      assert (forall out' st'',
        PollUntilContextTimeout (interval o) (timeout o) true (gone g ns n) tt
          (mkState w1 (calls st ++ [first])) = (out', st'') ->
        exists ticks answers rest,
          calls st'' = calls st ++ first :: rest
          /\ map call rest
             = PollStart (interval o) (timeout o) ticks :: map (Get g ns n) answers
          /\ 1 <= length answers <= S ticks) as Hpoll.
      { intros out' st''. unfold PollUntilContextTimeout. rewrite bind_eq.
        unfold request at 1. cbn [world calls].
        destruct (pollTicks (interval o) (timeout o) w1) as [ticks w2].
        rewrite bind_eq, gone_eq. cbn [world calls].
        destruct (apiGet g ns n w2) as [[obj|e] w3].
        - intros Hloop.
          apply pollLoop_gone_gets in Hloop
            as (new & answers & Hcalls & Hshape & Hlen).
          cbn [calls] in Hcalls.
          exists ticks, (inl obj :: answers),
            (mkEntry w1 (PollStart (interval o) (timeout o) ticks)
             :: mkEntry w2 (Get g ns n (inl obj)) :: new).
          split; [rewrite Hcalls, <- !app_assoc; reflexivity|].
          split; [cbn; by rewrite Hshape|]. cbn. lia.
        - intros Hloop. exists ticks, [inr e],
            [mkEntry w1 (PollStart (interval o) (timeout o) ticks);
             mkEntry w2 (Get g ns n (inr e))].
          split; [by destruct (IsNotFound e); inversion Hloop; subst;
                  cbn [calls]; rewrite <- !app_assoc|].
          split; [done|]. cbn. lia. }
      assert (forall st'',
        bind (PollUntilContextTimeout (interval o) (timeout o) true (gone g ns n) tt)
             (fun x => match x with
                       | (_, Some e) =>
                         ret (Some (Errorf ("failed to delete resource " ++ n ++ ": ")%string e))
                       | (_, None) => ret None
                       end) (mkState w1 (calls st ++ [first])) = (out, st'') ->
        exists new,
          calls st'' = calls st ++ new
          /\ exists ticks answers,
               map call new
               = Delete g ns n answer
                 :: PollStart (interval o) (timeout o) ticks
                 :: map (Get g ns n) answers
               /\ 1 <= length answers <= S ticks) as Hwait.
      { intros st'' Hw. rewrite bind_eq in Hw.
        pose proof (Hpoll _ _ (surjective_pairing _))
          as (ticks & answers & rest & Hcalls & Hshape & Hlen).
        clear Hpoll.
        destruct (PollUntilContextTimeout _ _ _ _ _ _) as [out' st2] eqn:Hp.
        cbn [snd] in Hcalls.
        assert (st'' = st2) as ->.
        { by destruct out' as [[[] [e|]]|msg]; inversion Hw. }
        exists (first :: rest). split; [done|].
        exists ticks, answers. split; [cbn; by rewrite Hshape|done]. }
      destruct answer as [e0|].
      - destruct (IsNotFound e0) eqn:Hnf; cbn [negb] in Hrun.
        + apply Hwait in Hrun as (new & Hcalls & Hshape).
          exists new, (Some e0). split; [done|]. right. split; [done|].
          right. by exists e0.
        + inversion Hrun; subst. exists [first], (Some e0). split; [done|].
          left. split; [done|]. by exists e0.
      - apply Hwait in Hrun as (new & Hcalls & Hshape).
        exists new, None. split; [done|]. right. split; [done|]. by left.
Qed.

(** X24: An object that stays makes deleteResource fail with the deadline of
    the poll, after one get request more than the timer fired. *)
Theorem deleteResource_timeout (stays : W -> Prop) (o : Operator)
        (g : GroupVersionResource) (n ns : string) (st : State W) :
      ns <> "" ->
      (forall w, stays w ->
         fst (apiDelete g ns n w) = None /\ stays (snd (apiDelete g ns n w))) ->
      (forall i t w, stays w -> stays (snd (pollTicks i t w))) ->
      (forall w, stays w ->
         exists obj, fst (apiGet g ns n w) = inl obj
                     /\ stays (snd (apiGet g ns n w))) ->
      stays (world st) ->
      fst (deleteResource o g n ns st)
      = Val (Some (Errorf ("failed to delete resource " ++ n ++ ": ")
                          DeadlineExceeded))
      /\ exists new ticks,
           calls (snd (deleteResource o g n ns st)) = calls st ++ new
           /\ length (getAnswers (map call new)) = S ticks
           /\ In (PollStart (interval o) (timeout o) ticks) (map call new).
Proof.
      intros Hns Hdel Hticks Hget Hstays.
      destruct (deleteResource o g n ns st) as [out st'] eqn:Hrun.
      cbn [fst snd]. unfold deleteResource in Hrun.
      apply String.eqb_neq in Hns. rewrite Hns in Hrun. cbn [negb] in Hrun.
      cbv zeta in Hrun. rewrite bind_eq in Hrun.
      unfold clientDelete at 1, request at 1 in Hrun.
      destruct (Hdel _ Hstays) as (Hnil & Hstays1).
      destruct (apiDelete g ns n (world st)) as [answer w1].
      cbn [fst snd] in Hnil, Hstays1. subst answer.
      rewrite bind_eq in Hrun. unfold PollUntilContextTimeout in Hrun.
      rewrite bind_eq in Hrun. unfold request at 1 in Hrun.
      cbn [world calls] in Hrun.
      specialize (Hticks (interval o) (timeout o) _ Hstays1).
      destruct (pollTicks (interval o) (timeout o) w1) as [ticks w2].
      cbn [snd] in Hticks.
      assert (forall k (st0 : State W), stays (world st0) ->
        exists new st1,
          pollLoop k (gone g ns n) tt st0 = (Val (tt, Some DeadlineExceeded), st1)
          /\ calls st1 = calls st0 ++ new
          /\ length (getAnswers (map call new)) = k
          /\ Forall (fun e => exists a, call e = Get g ns n a) new) as Hloop.
      { induction k as [|k IH]; intros st0 Hst0.
        - exists [], st0. rewrite app_nil_r. by repeat split.
        - cbn [pollLoop]. rewrite bind_eq, gone_eq.
          destruct (Hget _ Hst0) as (obj & Hobj & Hst1).
          destruct (apiGet g ns n (world st0)) as [got w']. cbn [fst snd] in *.
          subst got.
          destruct (IH (mkState w' (calls st0 ++ [mkEntry (world st0)
                          (Get g ns n (inl obj))])) Hst1)
            as (new & st1 & Hrun1 & Hcalls & Hlen & Hall).
          exists (mkEntry (world st0) (Get g ns n (inl obj)) :: new), st1.
          split; [exact Hrun1|]. cbn [calls] in Hcalls.
          split; [by rewrite Hcalls, <- app_assoc|].
          split; [change (S (length (getAnswers (map call new))) = S k);
                  by rewrite Hlen|].
          constructor; [by eexists|done]. }
      rewrite bind_eq, gone_eq in Hrun. cbn [world calls] in Hrun.
      destruct (Hget _ Hticks) as (obj & Hobj & Hstays3).
      destruct (apiGet g ns n w2) as [got w3]. cbn [fst snd] in *. subst got.
      match type of Hrun with
      | context [pollLoop ticks _ tt ?s] =>
        destruct (Hloop ticks s Hstays3)
          as (new & st1 & Hrun1 & Hcalls & Hlen & Hall)
      end.
      rewrite Hrun1 in Hrun. injection Hrun as <- <-.
      split; [done|]. cbn [calls] in Hcalls.
      exists (mkEntry (world st) (Delete g ns n None)
              :: mkEntry w1 (PollStart (interval o) (timeout o) ticks)
              :: mkEntry w2 (Get g ns n (inl obj)) :: new), ticks.
      split; [by rewrite Hcalls, <- !app_assoc|].
      split; [change (S (length (getAnswers (map call new))) = S ticks);
              by rewrite Hlen|].
      cbn. right. by left.
Qed.

Lemma InstallSubscription_nil_interface o csv channel (st : State W) :
      namespace o = "" -> csv <> "" ->
      InstallSubscription o csv channel st = (Panic nilDereference, st).
Proof.
      intros Hns Hcsv. unfold InstallSubscription.
      apply String.eqb_neq in Hcsv. rewrite Hcsv.
      rewrite bind_eq. unfold deleteResource. by rewrite Hns.
Qed.

(** X19: With an empty namespace InstallSubscription panics before it sends
    a request: the resource interface of deleteResource is nil. *)
Theorem InstallSubscription_empty_namespace (o : Operator)
        (csv channel : string) (st : State W) :
      namespace o = "" -> csv <> "" ->
      InstallSubscription o csv channel st = (Panic nilDereference, st).
Proof. apply InstallSubscription_nil_interface. Qed.

(** X25: The namespace comes first: when the request to create it fails with
    an error other than already-exists, createSubscription returns that
    error wrapped and asks for no Subscription; when it fails with
    already-exists the Subscription is asked for all the same. *)
Theorem createSubscription_namespace_first (o : Operator)
        (n ns csv channel : string) (st : State W) e w' :
      apiCreate namespaceGVR "" (newNamespace ns) (world st) = (inr e, w') ->
      (IsAlreadyExists e = false ->
         createSubscription o n ns csv channel st
         = (Val (inr (Errorf "failed to create namespace: " e)),
            mkState w' (calls st ++ [mkEntry (world st)
                         (Create namespaceGVR "" (newNamespace ns) (inr e))])))
      /\ (IsAlreadyExists e = true ->
          exists answer rest,
            calls (snd (createSubscription o n ns csv channel st))
            = calls st
              ++ mkEntry (world st) (Create namespaceGVR "" (newNamespace ns) (inr e))
              :: mkEntry w' (Create subscriptionGVR ns
                               (newSubscription n ns csv channel) answer)
              :: rest).
Proof.
      intros Hns. split; intros Hexists.
      - unfold createSubscription. rewrite bind_eq.
        unfold clientCreate at 1, request at 1. by rewrite Hns, Hexists.
      - destruct (createSubscription o n ns csv channel st) as [out st'] eqn:Hrun.
        cbn [snd]. unfold createSubscription in Hrun. rewrite bind_eq in Hrun.
        unfold clientCreate at 1, request at 1 in Hrun.
        rewrite Hns, Hexists in Hrun. cbn [negb] in Hrun.
        cbn [createAttempts] in Hrun. rewrite bind_eq in Hrun.
        unfold clientCreate at 1, request at 1 in Hrun. cbn [world calls] in Hrun.
        destruct (apiCreate subscriptionGVR ns _ w') as [answer w1].
        set (st1 := mkState w1 _) in Hrun.
        assert (Added (fun _ => True) st1 st') as (rest & Hcalls & _).
        { destruct answer as [obj|e1]; [by inversion Hrun; subst|].
          revert Hrun. generalize st1 out st'.
          change (Respects (Added (fun _ : Entry W => True))
                    (bind (if (1 <? 3)%Z
                           then timeSleep (Z.shiftl 1 (1 - 1) * Second)%Z
                           else ret tt)
                       (fun _ => createAttempts [2; 3]%Z ns
                                   (newSubscription n ns csv channel) (Some e1)))).
          apply Respects_bind; try apply Added_preorder.
          - cbn. by apply Added_request.
          - intros _. apply Respects_createAttempts; try apply Added_preorder.
            + by apply Added_quiet.
            + by apply Added_request. }
        exists answer, rest. rewrite Hcalls. subst st1. cbn [calls].
        by rewrite <- !app_assoc.
Qed.

(** *** What a run that succeeds has seen *)

Lemma Extends_preorder : PreOrder (Extends (W := W)).
Proof. apply Added_preorder. Qed.

Lemma Extends_request {A} (op : W -> A * W) (c : A -> Call) :
      Respects Extends (request op c).
Proof. by apply Added_request. Qed.

Lemma Extends_quiet : QuietRequests (Extends (W := W)).
Proof. by apply Added_quiet. Qed.

Ltac extends :=
      unfold Extends;
      let Hq := fresh "Hq" in
      pose proof Extends_quiet as Hq; unfold Extends in Hq; respects.

Lemma Extends_calls (st st' : State W) :
      Extends st st' -> exists new, calls st' = calls st ++ new.
Proof. intros (new & Hcalls & _). by exists new. Qed.

Lemma pollLoop_last {V} ticks
        (condition : V -> M (State W) (V * bool * error)) :
      (forall v, Respects Extends (condition v)) ->
      forall vars (st : State W) vars' st',
        pollLoop ticks condition vars st = (Val (vars', None), st') ->
        exists v st0,
          Extends st st0 /\ condition v st0 = (Val (vars', true, None), st').
Proof.
      intros Hc. induction ticks as [|ticks IH]; intros vars st vars' st' Hrun;
        [done|].
      cbn [pollLoop] in Hrun. rewrite bind_eq in Hrun.
      destruct (condition vars st) as [[[[v ok] [e|]]|msg] st1] eqn:Hcond;
        try done.
      destruct ok.
      - injection Hrun as <- <-. exists vars, st. split; [|done].
        apply Extends_preorder.
      - apply IH in Hrun as (v0 & st0 & Hext & Hlast). exists v0, st0.
        split; [|done]. etransitivity; [|exact Hext]. eapply Hc, Hcond.
Qed.

Lemma Poll_last {V} interval timeout
        (condition : V -> M (State W) (V * bool * error)) :
      (forall v, Respects Extends (condition v)) ->
      forall vars (st : State W) vars' st',
        PollUntilContextTimeout interval timeout true condition vars st
        = (Val (vars', None), st') ->
        exists v st0,
          Extends st st0 /\ condition v st0 = (Val (vars', true, None), st').
Proof.
      intros Hc vars st vars' st' Hrun. unfold PollUntilContextTimeout in Hrun.
      rewrite bind_eq in Hrun.
      destruct (request (pollTicks interval timeout) (PollStart interval timeout) st)
        as [[ticks|msg] st1] eqn:Hticks; [|done].
      apply Extends_request in Hticks.
      rewrite bind_eq in Hrun.
      destruct (condition vars st1) as [[[[v ok] [e|]]|msg] st2] eqn:Hcond;
        try done.
      destruct ok.
      - injection Hrun as <- <-. by exists vars, st1.
      - apply pollLoop_last in Hrun as (v0 & st0 & Hext & Hlast); [|done].
        exists v0, st0. split; [|done].
        etransitivity; [exact Hticks|]. etransitivity; [|exact Hext].
        eapply Hc, Hcond.
Qed.

Lemma waitCSVReady_success o n ns (st st' : State W) :
      waitCSVReady o n ns st = (Val None, st') ->
      exists new last,
        calls st' = calls st ++ new ++ [last]
        /\ Forall (fun e => readOnly (call e)) new
        /\ sawSucceeded ns n (call last).
Proof.
      intros Hrun.
      assert (Added (fun e => readOnly (call e)) st st') as (all & Hall & Hread).
      { eapply reads_waitCSVReady; [| | |exact Hrun];
          [apply Added_preorder|apply readOnly_get|apply readOnly_ticks]. }
      unfold waitCSVReady in Hrun. rewrite bind_eq in Hrun.
      destruct (PollUntilContextTimeout _ _ _ _ _ st)
        as [[[[] [e|]]|msg] st1] eqn:Hpoll; try done.
      injection Hrun as <-.
      apply Poll_last in Hpoll as (v & st0 & Hext & Hlast).
      - rewrite bind_eq in Hlast. unfold clientGet, request in Hlast.
        destruct (apiGet csvGVR ns n (world st0)) as [[obj|e] w'].
        + destruct (phaseIs obj "Succeeded") eqn:Hphase; [|done].
          injection Hlast as <-. cbn [calls] in Hall.
          apply Extends_calls in Hext as (new & Hnew).
          rewrite Hnew, <- app_assoc in Hall. apply app_inv_head in Hall.
          subst all. apply Forall_app in Hread as [Hread _].
          exists new, (mkEntry (world st0) (Get csvGVR ns n (inl obj))).
          cbn [calls]. rewrite Hnew, <- app_assoc.
          repeat split; [done|]. by exists obj.
        + by destruct (IsNotFound e).
      - intros v. extends.
Qed.

Lemma waitPackageManifest_success o csv (st st' : State W) :
      waitPackageManifest o csv st = (Val None, st') ->
      exists new last,
        calls st' = calls st ++ new ++ [last]
        /\ sawListed o csv (call last).
Proof.
      intros Hrun. unfold waitPackageManifest in Hrun. rewrite bind_eq in Hrun.
      destruct (PollUntilContextTimeout _ _ _ _ _ st)
        as [[[[] [e|]]|msg] st1] eqn:Hpoll; try done.
      injection Hrun as <-.
      apply Poll_last in Hpoll as (v & st0 & Hext & Hlast); [|intros v; extends].
      rewrite bind_eq in Hlast. unfold clientGet, request in Hlast.
      destruct (apiGet packageManifestGVR systemNamespace (name o) (world st0))
        as [[pm|e] w']; [|by destruct (IsNotFound e)].
      destruct (NestedSlice pm ["status"; "channels"]) as [[channels found] err]
        eqn:Hchannels.
      destruct (existsb (channelMatches csv) channels) eqn:Hlisted; [|done].
      injection Hlast as <-. apply Extends_calls in Hext as (new & Hnew).
      exists new, (mkEntry (world st0)
                     (Get packageManifestGVR systemNamespace (name o) (inl pm))).
      cbn [calls]. rewrite Hnew, <- app_assoc. split; [done|].
      exists pm. split; [done|]. unfold lists. by rewrite Hchannels.
Qed.

(** X15: When InstallArtifactVersion returns an ArtifactVersion, the last
    request of the run is a get that saw the package manifest of the
    operator list the status.version of that ArtifactVersion. *)
Theorem InstallArtifactVersion_listed (o : Operator) (version : string)
        (st : State W) av :
      fst (InstallArtifactVersion o version st) = Val (inl av) ->
      exists new last,
        calls (snd (InstallArtifactVersion o version st)) = calls st ++ new ++ [last]
        /\ sawListed o (statusVersion av) (call last).
Proof.
      destruct (InstallArtifactVersion o version st) as [out st'] eqn:Hrun.
      cbn [fst snd]. intros ->. unfold InstallArtifactVersion in Hrun.
      rewrite bind_eq in Hrun.
      destruct (GetResource o (artifact o) systemNamespace artifactGVR st)
        as [[[artifact|e]|msg] st1] eqn:H1; try done.
      rewrite bind_eq in Hrun.
      destruct (createArtifactVersion o version artifact st1)
        as [[[av0|e]|msg] st2] eqn:H2; try done.
      rewrite bind_eq in Hrun.
      destruct (waitArtifactVersionPresent o (GetName av0) st2)
        as [[[av1|e]|msg] st3] eqn:H3; try done.
      assert (Extends st st3) as Hext.
      { etransitivity; [|etransitivity].
        - eapply (Extends_request _ _ st), H1.
        - eapply (Respects_createArtifactVersion _ Extends_quiet); [|exact H2].
          intros obj. apply Extends_request.
        - eapply (Respects_waitArtifactVersionPresent _ Extends_quiet), H3. }
      unfold statusVersion, getNestedString.
      destruct (NestedString av1 ["status"; "version"]) as [[csv found] err]
        eqn:Hcsv.
      destruct (negb found || (csv =? "")%string); [done|].
      rewrite bind_eq in Hrun.
      destruct (waitPackageManifest o csv st3) as [[[e|]|msg] st4] eqn:H4;
        try done.
      injection Hrun as <- <-. rewrite Hcsv.
      apply waitPackageManifest_success in H4 as (new & last & Hcalls & Hlast).
      apply Extends_calls in Hext as (pre & Hpre).
      exists (pre ++ new), last. split; [|done].
      by rewrite Hcalls, Hpre, <- !app_assoc.
Qed.

(** X16: Every object that createArtifactVersion asks to create is an
    ArtifactVersion of the system namespace, named after the artifact
    and the version, labelled with the artifact, tagged with the
    version, marked present and owned by the artifact. *)
Theorem createArtifactVersion_object (o : Operator) (version : string)
        (artifact : Unstructured) (st : State W) :
      exists new,
        calls (snd (createArtifactVersion o version artifact st)) = calls st ++ new
        /\ Forall (wellFormedArtifactVersion version artifact) new.
Proof.
      unfold createArtifactVersion, GetResource. cbv zeta. rewrite bind_eq.
      unfold clientGet at 1, request at 1.
      destruct (apiGet artifactVersionGVR systemNamespace _ (world st))
        as [[av|e] w1].
      - eexists. split; [reflexivity|]. constructor; [|done].
        intros g ns obj answer Heq. by cbn in Heq.
      - unfold clientCreate, request. cbn [world calls].
        destruct (apiCreate artifactVersionGVR systemNamespace _ w1)
          as [answer w2].
        cbn [snd calls]. rewrite <- app_assoc. eexists. split; [reflexivity|].
        constructor; [intros g ns obj answer' Heq; by cbn in Heq|].
        constructor; [|done].
        intros g ns obj answer' Heq. cbn [call] in Heq.
        injection Heq as <- <- <- <-. by repeat split.
Qed.

Lemma createAttempts_success attempts ns sub err (st st' : State W) result :
      createAttempts attempts ns sub err st = (Val (inl result), st') ->
      exists new last,
        calls st' = calls st ++ new ++ [last] /\ subscribed ns (call last).
Proof.
      revert err st. induction attempts as [|attempt rest IH]; intros err st Hrun;
        [done|].
      cbn [createAttempts] in Hrun. rewrite bind_eq in Hrun.
      unfold clientCreate at 1, request at 1 in Hrun.
      destruct (apiCreate subscriptionGVR ns sub (world st)) as [[obj|e] w1].
      - injection Hrun as <- <-.
        exists [], (mkEntry (world st) (Create subscriptionGVR ns sub (inl obj))).
        split; [done|]. by exists sub, obj.
      - rewrite bind_eq in Hrun.
        destruct ((if (attempt <? 3)%Z
                   then timeSleep (Z.shiftl 1 (attempt - 1) * Second)%Z
                   else ret tt) _) as [[[]|msg] st1] eqn:Hpause.
        + assert (Extends (mkState w1 (calls st ++ [mkEntry (world st)
                     (Create subscriptionGVR ns sub (inr e))])) st1) as Hext.
          { revert Hpause. generalize st1. generalize (Val (A:=unit) tt).
            generalize (mkState w1 (calls st ++ [mkEntry (world st)
                          (Create subscriptionGVR ns sub (inr e))])).
            change (Respects Extends
                      (if (attempt <? 3)%Z
                       then timeSleep (Z.shiftl 1 (attempt - 1) * Second)%Z
                       else ret tt)).
            extends. }
          apply Extends_calls in Hext as (pause & Hpause'). cbn [calls] in Hpause'.
          apply IH in Hrun as (new & last & Hcalls & Hlast).
          exists (mkEntry (world st) (Create subscriptionGVR ns sub (inr e))
                  :: pause ++ new), last.
          split; [|done]. rewrite Hcalls, Hpause', <- !app_assoc. simpl.
          by rewrite <- !app_assoc.
        + by destruct (attempt <? 3)%Z.
Qed.

Lemma createSubscription_success o n ns csv channel (st st' : State W) result :
      createSubscription o n ns csv channel st = (Val (inl result), st') ->
      exists new last,
        calls st' = calls st ++ new ++ [last] /\ subscribed ns (call last).
Proof.
      unfold createSubscription. rewrite bind_eq.
      unfold clientCreate at 1, request at 1.
      destruct (apiCreate namespaceGVR "" (newNamespace ns) (world st))
        as [[obj|e] w1]; [|destruct (IsAlreadyExists e); [|done]]; cbn [negb];
        intros Hrun;
        apply createAttempts_success in Hrun as (new & last & Hcalls & Hlast);
        cbn [calls] in Hcalls; eexists (_ :: new), last;
        (split; [|done]); rewrite Hcalls, <- !app_assoc; reflexivity.
Qed.

Lemma field_setField (m : Object) (key : string) (v : value) :
      field (setField m key v) key = Some v.
Proof.
      induction m as [|[k v0] rest IH]; cbn [setField field].
      - by rewrite String.eqb_refl.
      - destruct (k =? key)%string eqn:Hk; cbn [field]; by rewrite Hk.
Qed.

(** X18: When InstallSubscription returns nil, the run has created the
    Subscription, then only read until it updated the install plan to
    approved, then only read again, and its last request is a get that
    saw the CSV in phase Succeeded. *)
Theorem InstallSubscription_success (o : Operator) (csv channel : string)
        (st : State W) :
      fst (InstallSubscription o csv channel st) = Val None ->
      exists before created waited update polled last,
        calls (snd (InstallSubscription o csv channel st))
        = calls st ++ before ++ [created] ++ waited ++ [update] ++ polled ++ [last]
        /\ subscribed (namespace o) (call created)
        /\ Forall (fun e => readOnly (call e)) waited
        /\ approval (namespace o) (call update)
        /\ Forall (fun e => readOnly (call e)) polled
        /\ sawSucceeded (namespace o) csv (call last).
Proof.
      destruct (InstallSubscription o csv channel st) as [out st'] eqn:Hrun.
      cbn [fst snd]. intros ->. unfold InstallSubscription in Hrun.
      destruct (csv =? "")%string; [done|].
      rewrite bind_eq in Hrun.
      destruct (deleteResource o subscriptionGVR (name o) (namespace o) st)
        as [[[e|]|msg] st1] eqn:H1; try done.
      rewrite bind_eq in Hrun.
      destruct (deleteResource o csvGVR csv (namespace o) st1)
        as [[[e|]|msg] st2] eqn:H2; try done.
      rewrite bind_eq in Hrun.
      destruct (createSubscription o (name o) (namespace o) csv channel st2)
        as [[[sub|e]|msg] st3] eqn:H3; try done.
      rewrite bind_eq in Hrun.
      destruct (waitInstallPlan o (name o) (namespace o) st3)
        as [[[plan [e|]]|msg] st4] eqn:H4; try done.
      rewrite bind_eq in Hrun. unfold clientGet at 1, request at 1 in Hrun.
      destruct (apiGet installPlanGVR (namespace o) plan (world st4))
        as [[installPlan|e] w5]; [|done].
      destruct (field installPlan "spec") as [[| | | | |spec]|] eqn:Hspec;
        try done.
      rewrite bind_eq in Hrun. unfold clientUpdate at 1, request at 1 in Hrun.
      cbn [world calls] in Hrun.
      destruct (apiUpdate installPlanGVR (namespace o) _ w5) as [[answer|e] w6];
        [|done].
      rewrite bind_eq in Hrun.
      destruct (waitCSVReady o csv (namespace o) _) as [[[e|]|msg] st7] eqn:H7;
        try done.
      injection Hrun as <-.
      apply waitCSVReady_success in H7 as (polled & last & H7 & Hpolled & Hlast).
      cbn [calls] in H7.
      apply createSubscription_success in H3 as (pre3 & created & H3 & Hcreated).
      assert (Extends st st2) as Hext.
      { etransitivity.
        - eapply (Respects_deleteResource _ Extends_quiet), H1.
        - eapply (Respects_deleteResource _ Extends_quiet), H2. }
      apply Extends_calls in Hext as (pre & Hpre).
      assert (Added (fun e => readOnly (call e)) st3 st4) as (waited & H4' & Hwaited).
      { eapply reads_waitInstallPlan; [| | |exact H4];
          [apply Added_preorder|apply readOnly_get|apply readOnly_ticks]. }
      exists (pre ++ pre3), created,
        (waited ++ [mkEntry (world st4)
                      (Get installPlanGVR (namespace o) plan (inl installPlan))]),
        (mkEntry w5 (Update installPlanGVR (namespace o)
                       (setField installPlan "spec"
                          (VMap (setField spec "approved" (VBool true))))
                       (inl answer))),
        polled, last.
      split; [rewrite H7, H4', H3, Hpre, <- !app_assoc; reflexivity|].
      split; [done|].
      split; [apply Forall_app; split; [done|by constructor]|].
      split; [|done].
      eexists _, answer. split; [reflexivity|].
      unfold approved. cbn [NestedFieldNoCopy].
      by rewrite !field_setField.
Qed.

(** X20: With an empty namespace UpgradeOperator never returns nil: it
    returns an error or it panics. *)
Theorem UpgradeOperator_empty_namespace (o : Operator)
        (version : Config.Version.t) (st : State W) :
      namespace o = "" ->
      fst (UpgradeOperator o version st) <> Val None.
Proof.
      intros Hns. unfold UpgradeOperator. rewrite bind_eq.
      destruct (InstallArtifactVersion o (Config.Version.BundleVersion version) st)
        as [[[av|e]|msg] st1] eqn:Hinstall; [|done..].
      pose proof (InstallArtifactVersion_status _ _ _ _ _ Hinstall) as [_ Hcsv].
      unfold statusVersion, getNestedString in Hcsv.
      destruct (NestedString av ["status"; "version"]) as [[csv found] err].
      rewrite bind_eq.
      by rewrite (InstallSubscription_nil_interface o csv _ st1 Hns Hcsv).
Qed.

(** X22: An install plan name that waitInstallPlan returns without error is
    not empty, and it is the status.installplan.name of the Subscription
    that the last request of the run saw. *)
Theorem waitInstallPlan_name (o : Operator) (n ns : string) (st : State W)
        plan :
      fst (waitInstallPlan o n ns st) = Val (plan, None) ->
      plan <> ""
      /\ exists new last,
           calls (snd (waitInstallPlan o n ns st)) = calls st ++ new ++ [last]
           /\ sawPlan ns n plan (call last).
Proof.
      destruct (waitInstallPlan o n ns st) as [out st'] eqn:Hrun. cbn [fst snd].
      intros ->. unfold waitInstallPlan in Hrun. cbv zeta in Hrun.
      rewrite bind_eq in Hrun.
      destruct (PollUntilContextTimeout _ _ _ _ _ st)
        as [[[found [e|]]|msg] st1] eqn:Hpoll; try done.
      destruct (String.eqb_spec found "") as [->|Hne]; [done|].
      injection Hrun as <- <-. split; [done|].
      apply Poll_last in Hpoll as (v & st0 & Hext & Hlast); [|intros v; extends].
      rewrite bind_eq in Hlast. unfold clientGet, request in Hlast.
      destruct (apiGet subscriptionGVR ns n (world st0)) as [[sub|e] w'];
        [|by destruct (IsNotFound e)].
      destruct (JsonPathLookup (VMap sub) ["status"; "installplan"; "name"])
        as [[| | |s| |]|e] eqn:Hplan; try done.
      destruct (s =? "")%string; [done|]. cbn [negb] in Hlast.
      injection Hlast as -> <-. apply Extends_calls in Hext as (new & Hnew).
      exists new, (mkEntry (world st0) (Get subscriptionGVR ns n (inl sub))).
      cbn [calls]. rewrite Hnew, <- app_assoc. split; [done|]. by exists sub.
Qed.
End More.
End K8sMore.

Module K8sMoreWitnesses.
Import K8s Operatorhub K8sProps K8sMoreProps Sim K8sMore.

Lemma InstallArtifactVersion_installed_witness :
    phaseIs presentVersion "Present" = true /\ statusVersion presentVersion <> "".
Proof.
    apply (InstallArtifactVersion_installed (cl := simCluster) op "v17.11.0"
             (start stocked)).
    vm_compute; reflexivity.
Defined.

Lemma InstallArtifactVersion_listed_witness :
    exists new last,
      calls (snd (@InstallArtifactVersion Cluster simCluster op "v17.11.0"
                    (start stocked)))
      = calls (start stocked) ++ new ++ [last]
      /\ sawListed op (statusVersion presentVersion) (call last).
Proof.
    apply (InstallArtifactVersion_listed (cl := simCluster) op "v17.11.0"
             (start stocked)).
    vm_compute; reflexivity.
Defined.

Lemma waitInstallPlan_name_witness :
    "install-7x2kq" <> ""
    /\ exists new last,
         calls (snd (@waitInstallPlan Cluster simCluster op "gitlab-operator"
                       "testing" (start planned)))
         = calls (start planned) ++ new ++ [last]
         /\ sawPlan "testing" "gitlab-operator" "install-7x2kq" (call last).
Proof.
    apply (waitInstallPlan_name (cl := simCluster) op "gitlab-operator" "testing"
             (start planned)).
    vm_compute; reflexivity.
Defined.

Lemma deleteResource_requests_witness :
    exists new answer,
      calls (snd (@deleteResource Cluster simCluster op subscriptionGVR
                    "gitlab-operator" "testing" (start (used []))))
      = calls (start (used [])) ++ new
      /\ ((map call new = [Delete subscriptionGVR "testing" "gitlab-operator" answer]
           /\ exists e, answer = Some e /\ IsNotFound e = false)
          \/ ((exists ticks answers,
                 map call new
                 = Delete subscriptionGVR "testing" "gitlab-operator" answer
                   :: PollStart (interval op) (timeout op) ticks
                   :: map (Get subscriptionGVR "testing" "gitlab-operator") answers
                 /\ 1 <= length answers <= S ticks)
              /\ (answer = None
                  \/ exists e, answer = Some e /\ IsNotFound e = true))).
Proof.
    apply (deleteResource_requests (cl := simCluster) op subscriptionGVR
             "gitlab-operator" "testing" (start (used []))).
    done.
Defined.

(** On a cluster that answers every delete request with nil and deletes
    nothing, the poll runs into its deadline. *)
Lemma deleteResource_timeout_witness :
    fst (@deleteResource Cluster stubborn op subscriptionGVR "gitlab-operator"
           "testing" (start (used [])))
    = Val (Some (Errorf ("failed to delete resource " ++ "gitlab-operator" ++ ": ")
                        DeadlineExceeded))
    /\ exists new ticks,
         calls (snd (@deleteResource Cluster stubborn op subscriptionGVR
                       "gitlab-operator" "testing" (start (used []))))
         = calls (start (used [])) ++ new
         /\ length (getAnswers (map call new)) = S ticks
         /\ In (PollStart (interval op) (timeout op) ticks) (map call new).
Proof.
    apply (deleteResource_timeout (cl := stubborn) subscriptionStays op
             subscriptionGVR "gitlab-operator" "testing" (start (used []))).
    - done.
    - intros w Hw. by split.
    - by intros i t w Hw.
    - intros w Hw. exists oldSubscription. cbn. unfold simGet.
      unfold subscriptionStays in Hw. rewrite Hw. by split.
    - reflexivity.
Defined.

Lemma InstallSubscription_empty_namespace_witness :
    @InstallSubscription Cluster simCluster homeless "gitlab.v17.11.0" "stable"
      (start (fresh []))
    = (Panic nilDereference, start (fresh [])).
Proof.
    apply (InstallSubscription_empty_namespace (cl := simCluster) homeless
             "gitlab.v17.11.0" "stable" (start (fresh []))).
    - reflexivity.
    - done.
Defined.

(** The namespace is there already: the Subscription is asked for all
    the same. *)
Lemma createSubscription_namespace_first_witness :
    exists answer rest,
      calls (snd (@createSubscription Cluster simCluster op "gitlab-operator"
                    "testing" "gitlab.v17.11.0" "stable" (start settled)))
      = calls (start settled)
        ++ mkEntry (world (start settled))
             (Create namespaceGVR "" (newNamespace "testing")
                     (inr (alreadyExists "testing")))
        :: mkEntry settled
             (Create subscriptionGVR "testing"
                (newSubscription "gitlab-operator" "testing" "gitlab.v17.11.0"
                                 "stable") answer)
        :: rest.
Proof.
    apply (proj2 (createSubscription_namespace_first (cl := simCluster) op
                    "gitlab-operator" "testing" "gitlab.v17.11.0" "stable"
                    (start settled) (alreadyExists "testing") settled
                    ltac:(vm_compute; reflexivity))).
    reflexivity.
Defined.

(** On a cluster with a lifecycle manager the installation goes
    through. *)
Lemma InstallSubscription_success_witness :
    exists before created waited update polled last,
      calls (snd (@InstallSubscription Cluster managed op "gitlab.v17.11.0"
                    "stable" (start (used [flaky]))))
      = calls (start (used [flaky]))
        ++ before ++ [created] ++ waited ++ [update] ++ polled ++ [last]
      /\ subscribed (namespace op) (call created)
      /\ Forall (fun e => readOnly (call e)) waited
      /\ approval (namespace op) (call update)
      /\ Forall (fun e => readOnly (call e)) polled
      /\ sawSucceeded (namespace op) "gitlab.v17.11.0" (call last).
Proof.
    apply (InstallSubscription_success (cl := managed) op "gitlab.v17.11.0"
             "stable" (start (used [flaky]))).
    vm_compute; reflexivity.
Defined.

(** The catalog offers the version, and the run panics when it comes to
    the Subscription. *)
Lemma UpgradeOperator_empty_namespace_witness :
    namespace homeless = ""
    /\ fst (@UpgradeOperator Cluster simCluster homeless (v17_11 "") (start stocked))
       <> Val None.
Proof.
    split; [reflexivity|].
    apply (UpgradeOperator_empty_namespace (cl := simCluster) homeless
             (v17_11 "") (start stocked)).
    reflexivity.
Defined.
End K8sMoreWitnesses.
